(** * Reading position and pagination in [components/Reader.tsx]

    A shallow embedding of the page tracking code of the [Reader]
    component, in the version that carries the transform based pagination:
    the [updatePageNonBlocking] coalescer, [applyPageTransform] and
    [goToNextPage], the [relocated] event handler, the tap [clickHandler]
    and the build of the chapter location index.

    Conventions.
    - A JavaScript number that holds a location index, a page number, a
      pixel width or a [Date.now()] timestamp is a [Z]. The one place where
      the code tests for [NaN], the result of [locationFromCfi], has its own
      type [JsVal].
    - A value that the code tests with [=== null], [typeof _ === 'number']
      or truthiness is an [option].
    - A [useRef] cell or a [useState] cell is a record field with the name
      it has in the source; a state setter writes the field. Only
      [currentPage] is written late, by the animation frame callback.
    - epub.js is outside the component: its location table, its spine and
      the rendered views are parameters or part of the state, and a call
      into it that can throw returns a [Result].
    - The handlers that have a [try] run in a small state, log and
      exception monad in which a throw keeps the state reached so far, as
      in JavaScript. Of the log only the [logPageIndicator] stages are
      kept; the [console.log] lines are left out. *)

From Stdlib Require Import ZArith List String Bool Lia QArith.
Import ListNotations.
Open Scope string_scope.
Open Scope list_scope.
Open Scope Z_scope.

(** ** Values coming from the renderer *)

(** What [book.locations.locationFromCfi] hands back: a number, [NaN], or
    something that is not a number ([null], [undefined]). *)
Inductive JsVal : Type :=
  | JNum (n : Z)
  | JNaN
  | JNull.

(** Outcome of a call that may throw. *)
Inductive Result (A : Type) : Type :=
  | Ok (a : A)
  | Throw.
Arguments Ok {A} a.
Arguments Throw {A}.

(** [typeof n === 'number' && !Number.isNaN(n)] *)
Definition asNumber (v : JsVal) : option Z :=
  match v with
  | JNum n => Some n
  | JNaN | JNull => None
  end.

(** [v || 0] for a value used as a number. *)
Definition orZero (v : JsVal) : Z :=
  match v with
  | JNum n => n
  | JNaN | JNull => 0
  end.

(** [a || b] on numbers: [0] is falsy. *)
Definition numOr (a b : Z) : Z := if a =? 0 then b else a.

(** A string used as a condition: [undefined] and the empty string are falsy. *)
Definition truthy (s : option string) : option string :=
  match s with
  | Some "" => None
  | other => other
  end.

(** ** Component state *)

(** [currentPage] with the two refs of [updatePageNonBlocking]; [rafQueue]
    counts the page callbacks handed to [requestAnimationFrame] that have
    not run yet. *)
Record PageCoalescer : Type := {
  currentPage : Z;
  pendingPageRef : option Z;
  pageUpdateScheduledRef : bool;
  rafQueue : nat
}.

(** Section-local page state of the transform based pagination. *)
Record SectionState : Type := {
  sectionPageRef : Z;
  sectionTotalPagesRef : Z;
  containerWidthRef : Z;
  sectionStartGlobalPageRef : Z
}.

(** The viewport refs read by tap navigation. *)
Record ViewportRefs : Type := {
  currentLocationIndexRef : Z;
  currentStartLocationRef : option Z;
  currentEndLocationRef : option Z
}.

(** The refs kept for diagnosis: the previous relocated range and
    epub.js's own displayed page. *)
Record RelocatedRefs : Type := {
  lastRelocatedStartRef : option Z;
  lastRelocatedEndRef : option Z;
  currentDisplayedPageRef : option Z;
  currentDisplayedTotalRef : option Z
}.

(** One entry of [chapterLocationsRef]. *)
Record Chapter : Type := {
  href : string;
  label : string;
  startLocationIndex : Z;
  endLocationIndex : Z
}.

Record ChapterProgress : Type := {
  chapterLocationsRef : list Chapter;
  pagesLeftInChapter : option Z;
  currentChapterName : string
}.

(** Guards of the tap handler. *)
Record NavRefs : Type := {
  isChatOpenRef : bool;
  lastNavigationTimeRef : Z;
  isNavigatingRef : bool;
  lastRequestedLocationIndexRef : option Z
}.

(** The rendered document of a view: [d_body] tells whether [doc.body]
    exists, [d_transform] is [None] when [doc.documentElement] is missing
    and otherwise the offset [x] of its [translateX(-x px)]. *)
Record Document : Type := {
  d_body : bool;
  d_transform : option Z
}.

(** [rendition.manager]: [m_views] is [views._views] (empty also when
    [views] or [_views] is missing), an entry is [None] when the view has
    no [contents.document]; [m_clientWidth] is [container?.clientWidth]. *)
Record Manager : Type := {
  m_views : list (option Document);
  m_clientWidth : option Z
}.

Record Rendition : Type := {
  r_manager : option Manager
}.

Record State : Type := {
  coalescer : PageCoalescer;
  section : SectionState;
  viewport : ViewportRefs;
  relocatedRefs : RelocatedRefs;
  chapters : ChapterProgress;
  nav : NavRefs;
  renditionRef : option Rendition;
  currentLocation : option string
}.

Definition withCoalescer (c : PageCoalescer) (st : State) : State :=
  {| coalescer := c; section := section st; viewport := viewport st;
     relocatedRefs := relocatedRefs st; chapters := chapters st; nav := nav st;
     renditionRef := renditionRef st; currentLocation := currentLocation st |}.

Definition withSection (s : SectionState) (st : State) : State :=
  {| coalescer := coalescer st; section := s; viewport := viewport st;
     relocatedRefs := relocatedRefs st; chapters := chapters st; nav := nav st;
     renditionRef := renditionRef st; currentLocation := currentLocation st |}.

Definition withViewport (v : ViewportRefs) (st : State) : State :=
  {| coalescer := coalescer st; section := section st; viewport := v;
     relocatedRefs := relocatedRefs st; chapters := chapters st; nav := nav st;
     renditionRef := renditionRef st; currentLocation := currentLocation st |}.

Definition withRelocatedRefs (r : RelocatedRefs) (st : State) : State :=
  {| coalescer := coalescer st; section := section st; viewport := viewport st;
     relocatedRefs := r; chapters := chapters st; nav := nav st;
     renditionRef := renditionRef st; currentLocation := currentLocation st |}.

Definition withChapters (c : ChapterProgress) (st : State) : State :=
  {| coalescer := coalescer st; section := section st; viewport := viewport st;
     relocatedRefs := relocatedRefs st; chapters := c; nav := nav st;
     renditionRef := renditionRef st; currentLocation := currentLocation st |}.

Definition withNav (n : NavRefs) (st : State) : State :=
  {| coalescer := coalescer st; section := section st; viewport := viewport st;
     relocatedRefs := relocatedRefs st; chapters := chapters st; nav := n;
     renditionRef := renditionRef st; currentLocation := currentLocation st |}.

Definition withRendition (r : option Rendition) (st : State) : State :=
  {| coalescer := coalescer st; section := section st; viewport := viewport st;
     relocatedRefs := relocatedRefs st; chapters := chapters st; nav := nav st;
     renditionRef := r; currentLocation := currentLocation st |}.

Definition withCurrentLocation (l : option string) (st : State) : State :=
  {| coalescer := coalescer st; section := section st; viewport := viewport st;
     relocatedRefs := relocatedRefs st; chapters := chapters st; nav := nav st;
     renditionRef := renditionRef st; currentLocation := l |}.

(** The values the hooks are created with; [r] is what the init effect
    stored in [renditionRef] ([None] while [file] is still null). *)
Definition initialState (r : option Rendition) : State :=
  {| coalescer := {| currentPage := 1; pendingPageRef := None;
                     pageUpdateScheduledRef := false; rafQueue := 0 |};
     section := {| sectionPageRef := 1; sectionTotalPagesRef := 1;
                   containerWidthRef := 0; sectionStartGlobalPageRef := 1 |};
     viewport := {| currentLocationIndexRef := 0; currentStartLocationRef := None;
                    currentEndLocationRef := None |};
     relocatedRefs := {| lastRelocatedStartRef := None; lastRelocatedEndRef := None;
                         currentDisplayedPageRef := None;
                         currentDisplayedTotalRef := None |};
     chapters := {| chapterLocationsRef := []; pagesLeftInChapter := None;
                    currentChapterName := "" |};
     nav := {| isChatOpenRef := false; lastNavigationTimeRef := 0;
               isNavigatingRef := false; lastRequestedLocationIndexRef := None |};
     renditionRef := r;
     currentLocation := Some "" |}.

(** ** [updatePageNonBlocking] and the animation frame *)

Module Coalescer.

(** [updatePageNonBlocking(newPage)]: remember the page and, unless a
    callback is already scheduled, register one. *)
Definition updatePageNonBlocking (newPage : Z) (c : PageCoalescer) : PageCoalescer :=
  {| currentPage := currentPage c;
     pendingPageRef := Some newPage;
     pageUpdateScheduledRef := true;
     rafQueue := if pageUpdateScheduledRef c then rafQueue c else S (rafQueue c) |}.

(** The callback given to [requestAnimationFrame]; the second component
    lists the [setCurrentPage] calls it makes. *)
Definition pageCallback (c : PageCoalescer) : PageCoalescer * list Z :=
  match pendingPageRef c with
  | Some p =>
      ({| currentPage := p; pendingPageRef := None;
          pageUpdateScheduledRef := false; rafQueue := rafQueue c |}, [p])
  | None =>
      ({| currentPage := currentPage c; pendingPageRef := None;
          pageUpdateScheduledRef := false; rafQueue := rafQueue c |}, [])
  end.

Fixpoint runCallbacks (n : nat) (c : PageCoalescer) : PageCoalescer * list Z :=
  match n with
  | O => (c, [])
  | S k =>
      let (c1, calls1) := pageCallback c in
      let (c2, calls2) := runCallbacks k c1 in
      (c2, calls1 ++ calls2)
  end.

(** The next paint opportunity: every registered callback runs once. *)
Definition animationFrame (c : PageCoalescer) : PageCoalescer * list Z :=
  runCallbacks (rafQueue c)
    {| currentPage := currentPage c; pendingPageRef := pendingPageRef c;
       pageUpdateScheduledRef := pageUpdateScheduledRef c; rafQueue := 0 |}.

(** A run of submissions with no paint in between. *)
Definition submitAll (ps : list Z) (c : PageCoalescer) : PageCoalescer :=
  fold_left (fun acc p => updatePageNonBlocking p acc) ps c.

(** The coalescer after the frame. *)
Definition painted (c : PageCoalescer) : PageCoalescer := fst (animationFrame c).

(** The scheduled flag is set exactly while one callback is registered,
    and a page is pending only while the flag is set. *)
Definition wellFormed (c : PageCoalescer) : Prop :=
  rafQueue c = (if pageUpdateScheduledRef c then 1%nat else 0%nat) /\
  (pageUpdateScheduledRef c = false -> pendingPageRef c = None).

End Coalescer.

Definition updatePageNonBlocking (newPage : Z) (st : State) : State :=
  withCoalescer (Coalescer.updatePageNonBlocking newPage (coalescer st)) st.

(** An animation frame of the component, and [k] of them in a row. *)
Definition paint (st : State) : State :=
  withCoalescer (Coalescer.painted (coalescer st)) st.

Fixpoint paints (k : nat) (st : State) : State :=
  match k with
  | O => st
  | S k' => paints k' (paint st)
  end.

(** ** Transform based pagination: [applyPageTransform], [goToNextPage] *)

Module Transform.

(** [htmlEl.style.transform = translateX(-offset px)], when the element
    is there. *)
Definition setTransform (offset : Z) (doc : Document) : Document :=
  match d_transform doc with
  | Some _ => {| d_body := d_body doc; d_transform := Some offset |}
  | None => doc
  end.

(** [containerWidthRef.current || manager.container?.clientWidth || 440] *)
Definition pageWidth (st : State) (manager : Manager) : Z :=
  numOr (containerWidthRef (section st))
        (numOr (match m_clientWidth manager with Some w => w | None => 0 end) 440).

Definition setSectionPage (pageNum : Z) (s : SectionState) : SectionState :=
  {| sectionPageRef := pageNum;
     sectionTotalPagesRef := sectionTotalPagesRef s;
     containerWidthRef := containerWidthRef s;
     sectionStartGlobalPageRef := sectionStartGlobalPageRef s |}.

(** [applyPageTransform(pageNum)]: each missing link of the chain
    rendition / manager / first view / document / body returns early;
    [sectionPageRef] is written last. *)
Definition applyPageTransform (pageNum : Z) (st : State) : State :=
  match renditionRef st with
  | None => st
  | Some rendition =>
      match r_manager rendition with
      | None => st
      | Some manager =>
          match m_views manager with
          | [] => st
          | None :: _ => st
          | Some doc :: others =>
              if negb (d_body doc) then st
              else
                let containerWidth := pageWidth st manager in
                let offset := (pageNum - 1) * containerWidth in
                let manager' :=
                  {| m_views := Some (setTransform offset doc) :: others;
                     m_clientWidth := m_clientWidth manager |} in
                withSection (setSectionPage pageNum (section st))
                  (withRendition (Some {| r_manager := Some manager' |}) st)
          end
      end
  end.

(** Commands handed to the renderer; the promise they return settles
    later. *)
Inductive RendererCall : Type :=
  | RenditionNext
  | RenditionPrev.

(** [goToNextPage()]: the synchronous part, with the renderer call it
    starts, if any. *)
Definition goToNextPage (st : State) : State * option RendererCall :=
  match renditionRef st with
  | None => (st, None)
  | Some _ =>
      let currentPage := sectionPageRef (section st) in
      let totalPages := sectionTotalPagesRef (section st) in
      if currentPage <? totalPages then
        let newPage := currentPage + 1 in
        let st1 := applyPageTransform newPage st in
        let newGlobalPage := sectionStartGlobalPageRef (section st1) + (newPage - 1) in
        (updatePageNonBlocking newGlobalPage st1, None)
      else (st, Some RenditionNext)
  end.

(** The [then] callback of [rendition.next()] in [goToNextPage]. *)
Definition nextSectionResolved (st : State) : State :=
  applyPageTransform 1 (withSection (setSectionPage 1 (section st)) st).

(** [n] presses of the next button with nothing in between. *)
Fixpoint advanceTimes (n : nat) (st : State) : State :=
  match n with
  | O => st
  | S k => advanceTimes k (fst (goToNextPage st))
  end.

(** The rendered view the transform is written to: a rendition with a
    manager whose first view has a document with a body and a root
    element. *)
Definition viewPresent (st : State) : bool :=
  match renditionRef st with
  | Some {| r_manager := Some {| m_views := Some doc :: _ |} |} =>
      d_body doc && match d_transform doc with Some _ => true | None => false end
  | _ => false
  end.

(** The offset currently applied to the first view's root element. *)
Definition appliedOffset (st : State) : option Z :=
  match renditionRef st with
  | Some {| r_manager := Some {| m_views := Some doc :: _ |} |} => d_transform doc
  | _ => None
  end.

(** The width one page is shifted by. *)
Definition widthOf (st : State) : Z :=
  match renditionRef st with
  | Some {| r_manager := Some manager |} => pageWidth st manager
  | _ => 440
  end.

End Transform.

(** ** The handler monad: state, log and exceptions *)

(** Stages written with [logPageIndicator], and the console line of the
    chapter build's [catch]. *)
Inductive Stage : Type :=
  | RELOCATED_BEFORE_SET_CURRENT_LOCATION
  | RELOCATED_AFTER_SET_CURRENT_LOCATION
  | RELOCATED_BEFORE_ON_LOCATION_CHANGE
  | RELOCATED_AFTER_ON_LOCATION_CHANGE
  | RELOCATED_PAGE_INFO
  | RELOCATED_STUCK_DETECTED
  | RELOCATED_BEFORE_SET_PAGE
  | RELOCATED_AFTER_SET_PAGE
  | CHAPTER_PROGRESS
  | RELOCATED_EVENT_COMPLETE
  | RELOCATED_EVENT_ERROR
  | CHAPTER_LOCATIONS_BUILT
  | CHAPTERS_ERROR_BUILDING.

Definition Stage_eqb (a b : Stage) : bool :=
  match a, b with
  | RELOCATED_BEFORE_SET_CURRENT_LOCATION, RELOCATED_BEFORE_SET_CURRENT_LOCATION
  | RELOCATED_AFTER_SET_CURRENT_LOCATION, RELOCATED_AFTER_SET_CURRENT_LOCATION
  | RELOCATED_BEFORE_ON_LOCATION_CHANGE, RELOCATED_BEFORE_ON_LOCATION_CHANGE
  | RELOCATED_AFTER_ON_LOCATION_CHANGE, RELOCATED_AFTER_ON_LOCATION_CHANGE
  | RELOCATED_PAGE_INFO, RELOCATED_PAGE_INFO
  | RELOCATED_STUCK_DETECTED, RELOCATED_STUCK_DETECTED
  | RELOCATED_BEFORE_SET_PAGE, RELOCATED_BEFORE_SET_PAGE
  | RELOCATED_AFTER_SET_PAGE, RELOCATED_AFTER_SET_PAGE
  | CHAPTER_PROGRESS, CHAPTER_PROGRESS
  | RELOCATED_EVENT_COMPLETE, RELOCATED_EVENT_COMPLETE
  | RELOCATED_EVENT_ERROR, RELOCATED_EVENT_ERROR
  | CHAPTER_LOCATIONS_BUILT, CHAPTER_LOCATIONS_BUILT
  | CHAPTERS_ERROR_BUILDING, CHAPTERS_ERROR_BUILDING => true
  | _, _ => false
  end.

(** Whether a stage was logged. *)
Definition logged (s : Stage) (log : list Stage) : bool := existsb (Stage_eqb s) log.

(** A computation reads and writes the component state, appends to the
    log, and may throw; the state and the log reached at the throw stay. *)
Definition M (A : Type) : Type := State -> Result A * State * list Stage.

Definition ret {A} (a : A) : M A := fun st => (Ok a, st, []).

Definition bind {A B} (m : M A) (k : A -> M B) : M B :=
  fun st =>
    match m st with
    | (Ok a, st1, log1) =>
        match k a st1 with
        | (r, st2, log2) => (r, st2, log1 ++ log2)
        end
    | (Throw, st1, log1) => (Throw, st1, log1)
    end.

Notation "x <- m ;; k" := (bind m (fun x => k))
    (at level 61, m at next level, right associativity).
Notation "m ;; k" := (bind m (fun _ => k))
    (at level 61, right associativity).

Definition get : M State := fun st => (Ok st, st, []).
Definition modify (f : State -> State) : M unit := fun st => (Ok tt, f st, []).
Definition logPageIndicator (s : Stage) : M unit := fun st => (Ok tt, st, [s]).
Definition lift {A} (r : Result A) : M A := fun st => (r, st, []).
Definition when (b : bool) (m : M unit) : M unit := if b then m else ret tt.

(** [try { body } catch (error) { handler }] *)
Definition tryCatch (body handler : M unit) : M unit :=
  fun st =>
    match body st with
    | (Ok _, st1, log1) => (Ok tt, st1, log1)
    | (Throw, st1, log1) =>
        match handler st1 with
        | (r, st2, log2) => (r, st2, log1 ++ log2)
        end
    end.

(** ** The [relocated] event *)

(** [loc.start.displayed]; a field is [None] unless it is a number. *)
Record Displayed : Type := {
  d_page : option Z;
  d_total : option Z
}.

(** [loc.start] or [loc.end]. *)
Record Boundary : Type := {
  b_cfi : option string;
  b_location : option Z;
  b_displayed : option Displayed
}.

(** The payload [loc]. *)
Record Location : Type := {
  loc_start : option Boundary;
  loc_end : option Boundary
}.

(** What the handler closes over: the book's location table and the
    [onLocationChange] prop. [locationsLength] is [book.locations.length()],
    [0] when [book.locations] is missing. *)
Record Env : Type := {
  locationsLength : Z;
  locationFromCfi : string -> Result JsVal;
  onLocationChange : option (option string -> Result unit)
}.

Module Relocated.

Section Handler.

Variable env : Env.

(** A derived index: [locationFromCfi] of a truthy CFI, kept when it is
    a number other than [NaN]. *)
Definition deriveFromCfi (cfi : option string) : Result (option Z) :=
  match truthy cfi with
  | Some c =>
      match locationFromCfi env c with
      | Ok n => Ok (asNumber n)
      | Throw => Throw
      end
  | None => Ok None
  end.

Definition orElse (a b : option Z) : option Z :=
  match a with
  | Some _ => a
  | None => b
  end.

(** [loc?.end?.cfi] and the [location] of [loc.end], when [loc.end] is
    there. *)
Definition cfiOf (b : option Boundary) : option string :=
  match b with
  | Some x => b_cfi x
  | None => None
  end.

Definition locationOf (b : option Boundary) : option Z :=
  match b with
  | Some x => b_location x
  | None => None
  end.

(** [startLocationIndex] and [endLocationIndex] as the handler settles
    them: the event's own indices, else the indices derived from the
    CFIs, and an end that is still null takes the start. *)
Definition resolveIndices (start : Boundary) (end_ : option Boundary)
  : Result (option Z * option Z) :=
  match deriveFromCfi (b_cfi start) with
  | Throw => Throw
  | Ok derivedStartFromCfi =>
      match deriveFromCfi (cfiOf end_) with
      | Throw => Throw
      | Ok derivedEndFromCfi =>
          let startLocationIndex := orElse (b_location start) derivedStartFromCfi in
          let endLocationIndex := orElse (locationOf end_) derivedEndFromCfi in
          Ok (startLocationIndex, orElse endLocationIndex startLocationIndex)
      end
  end.

(** The condition of the [RELOCATED_STUCK_DETECTED] log. *)
Definition stuckDetected (prevStart prevEnd lastRequested : option Z)
    (startLocationIndex endLocationIndex : option Z) : bool :=
  match startLocationIndex, endLocationIndex, prevStart, prevEnd, lastRequested with
  | Some s, Some e, Some ps, Some pe, Some requested =>
      (ps =? s) && (pe =? e) && (e <? requested)
  | _, _, _, _, _ => false
  end.

(** [startLocationIndex !== null && startLocationIndex >= 0] *)
Definition nonNegative (i : option Z) : option Z :=
  match i with
  | Some n => if 0 <=? n then Some n else None
  | None => None
  end.

(** The block guarded by [startDisplayed.page] and [.total] being
    numbers: displayed refs, section state, container width and the
    reset of the transform. The handler's [rendition] is the one the
    init effect stored in [renditionRef]. *)
Definition syncSection (displayedPage displayedTotal : Z)
    (startLocationIndex : option Z) (st : State) : State :=
  let manager :=
    match renditionRef st with
    | Some rendition => r_manager rendition
    | None => None
    end in
  let s := section st in
  let s' :=
    {| sectionPageRef := 1;
       sectionTotalPagesRef := displayedTotal;
       containerWidthRef :=
         match manager with
         | Some {| m_clientWidth := Some w |} => w
         | _ => containerWidthRef s
         end;
       sectionStartGlobalPageRef :=
         match nonNegative startLocationIndex with
         | Some n => n + 1
         | None => sectionStartGlobalPageRef s
         end |} in
  let r := relocatedRefs st in
  let r' :=
    {| lastRelocatedStartRef := lastRelocatedStartRef r;
       lastRelocatedEndRef := lastRelocatedEndRef r;
       currentDisplayedPageRef := Some displayedPage;
       currentDisplayedTotalRef := Some displayedTotal |} in
  let rendition' :=
    match renditionRef st with
    | Some {| r_manager := Some {| m_views := Some doc :: others; m_clientWidth := w |} |} =>
        Some {| r_manager :=
                  Some {| m_views := Some (Transform.setTransform 0 doc) :: others;
                          m_clientWidth := w |} |}
    | other => other
    end in
  withRendition rendition' (withSection s' (withRelocatedRefs r' st)).

(** "Sync the current viewport refs". *)
Definition syncViewport (startLocationIndex endLocationIndex : option Z)
    (v : ViewportRefs) : ViewportRefs :=
  {| currentLocationIndexRef :=
       match nonNegative startLocationIndex with
       | Some n => n
       | None => currentLocationIndexRef v
       end;
     currentStartLocationRef :=
       match nonNegative startLocationIndex with
       | Some n => Some n
       | None => currentStartLocationRef v
       end;
     currentEndLocationRef :=
       match nonNegative endLocationIndex with
       | Some n => Some n
       | None => currentEndLocationRef v
       end |}.

Definition inChapter (i : Z) (chapter : Chapter) : bool :=
  (startLocationIndex chapter <=? i) && (i <=? endLocationIndex chapter).

(** The [for ... of chapters] loop with its [break]. *)
Definition findChapter (i : Z) (chapterList : list Chapter) : option Chapter :=
  find (inChapter i) chapterList.

(** The argument of [setPagesLeftInChapter]:
    [Math.max(0, currentChapter.endLocationIndex - effectiveLocationIndex)]. *)
Definition shownPagesLeft (currentChapter : Chapter) (i : Z) : Z :=
  let pagesLeft := endLocationIndex currentChapter - i in
  Z.max 0 pagesLeft.

(** "Calculate pages left in chapter". *)
Definition chapterProgress (effectiveLocationIndex : option Z) : M unit :=
  st <- get ;;
  let c := chapters st in
  match chapterLocationsRef c, effectiveLocationIndex with
  | _ :: _, Some i =>
      match findChapter i (chapterLocationsRef c) with
      | Some currentChapter =>
          modify (withChapters
                    {| chapterLocationsRef := chapterLocationsRef c;
                       pagesLeftInChapter := Some (shownPagesLeft currentChapter i);
                       currentChapterName := label currentChapter |}) ;;
          logPageIndicator CHAPTER_PROGRESS
      | None =>
          modify (withChapters
                    {| chapterLocationsRef := chapterLocationsRef c;
                       pagesLeftInChapter := None;
                       currentChapterName := "" |})
      end
  | _, _ => ret tt
  end.

(** The part of the handler under [book.locations.length() > 0]. *)
Definition trackPage (start : Boundary) (end_ : option Boundary) : M unit :=
  indices <- lift (resolveIndices start end_) ;;
  let startLocationIndex := fst indices in
  let endLocationIndex := snd indices in
  logPageIndicator RELOCATED_PAGE_INFO ;;
  st <- get ;;
  let r := relocatedRefs st in
  when (stuckDetected (lastRelocatedStartRef r) (lastRelocatedEndRef r)
          (lastRequestedLocationIndexRef (nav st))
          startLocationIndex endLocationIndex)
       (logPageIndicator RELOCATED_STUCK_DETECTED) ;;
  modify (withRelocatedRefs
            {| lastRelocatedStartRef := startLocationIndex;
               lastRelocatedEndRef := endLocationIndex;
               currentDisplayedPageRef := currentDisplayedPageRef r;
               currentDisplayedTotalRef := currentDisplayedTotalRef r |}) ;;
  match b_displayed start with
  | Some {| d_page := Some p; d_total := Some t |} =>
      modify (syncSection p t startLocationIndex)
  | _ => ret tt
  end ;;
  modify (fun st =>
            withViewport
              (syncViewport startLocationIndex endLocationIndex (viewport st)) st) ;;
  match nonNegative startLocationIndex with
  | Some n =>
      let pageNum := Z.max 1 (n + 1) in
      logPageIndicator RELOCATED_BEFORE_SET_PAGE ;;
      modify (updatePageNonBlocking pageNum) ;;
      logPageIndicator RELOCATED_AFTER_SET_PAGE
  | None => ret tt
  end ;;
  chapterProgress startLocationIndex.

(** The body of the handler's [try]. Reading [loc.start.cfi] throws when
    [loc] or [loc.start] is missing. *)
Definition relocatedBody (loc : option Location) : M unit :=
  start <- lift (match loc with
                 | Some {| loc_start := Some b |} => Ok b
                 | _ => Throw
                 end) ;;
  let end_ := match loc with Some l => loc_end l | None => None end in
  let cfi := b_cfi start in
  logPageIndicator RELOCATED_BEFORE_SET_CURRENT_LOCATION ;;
  modify (withCurrentLocation cfi) ;;
  logPageIndicator RELOCATED_AFTER_SET_CURRENT_LOCATION ;;
  match onLocationChange env with
  | Some callback =>
      logPageIndicator RELOCATED_BEFORE_ON_LOCATION_CHANGE ;;
      lift (callback cfi) ;;
      logPageIndicator RELOCATED_AFTER_ON_LOCATION_CHANGE
  | None => ret tt
  end ;;
  when (0 <? locationsLength env) (trackPage start end_) ;;
  logPageIndicator RELOCATED_EVENT_COMPLETE.

(** [rendition.on('relocated', ...)]: the body inside [try], the
    [catch] logs and does not re-throw. *)
Definition relocatedHandler (loc : option Location) : M unit :=
  tryCatch (relocatedBody loc) (logPageIndicator RELOCATED_EVENT_ERROR).

(** State and log after the event. *)
Definition relocated (loc : option Location) (st : State) : State * list Stage :=
  match relocatedHandler loc st with
  | (_, st', log) => (st', log)
  end.

(** Whether the handler's body ran to its end. *)
Definition completes (loc : option Location) (st : State) : bool :=
  match relocatedBody loc st with
  | (Ok _, _, _) => true
  | (Throw, _, _) => false
  end.

(** The range an event resolves to when its processing reaches the page
    tracking and gets through it: [loc.start] is there, the
    [onLocationChange] callback returns, the location table is ready and
    the lookups return. *)
Definition processedRange (loc : option Location) : option (option Z * option Z) :=
  match loc with
  | Some {| loc_start := Some start; loc_end := end_ |} =>
      match match onLocationChange env with
            | Some callback => callback (b_cfi start)
            | None => Ok tt
            end with
      | Ok _ =>
          if 0 <? locationsLength env then
            match resolveIndices start end_ with
            | Ok indices => Some indices
            | Throw => None
            end
          else None
      | Throw => None
      end
  | _ => None
  end.

End Handler.

(** [i] lies in the chapter's range. *)
Definition Contains (chapter : Chapter) (i : Z) : Prop :=
  startLocationIndex chapter <= i <= endLocationIndex chapter.

(** With an empty chapter table no progress has been published. *)
Definition NoProgressWithoutChapters (c : ChapterProgress) : Prop :=
  chapterLocationsRef c = [] ->
  pagesLeftInChapter c = None /\ currentChapterName c = "".

End Relocated.

(** ** The tap handler *)

Module Tap.

(** What [clickHandler] reads from the event and the window.
    [onLink] is [target.closest('a')] being non-null, [selectionText]
    the trimmed selection of the iframe document, [now] is [Date.now()],
    [innerWidth] the (positive) [window.innerWidth]. *)
Record Click : Type := {
  onLink : bool;
  selectionText : string;
  now : Z;
  clientX : Z;
  innerWidth : positive
}.

Inductive Direction : Type :=
  | PREV
  | NEXT.

(** How the handler leaves: one constructor per [return]. *)
Inductive Outcome : Type :=
  | LinkClicked
  | BlockedChatOpen
  | BlockedSelection
  | BlockedDebounce
  | BlockedInProgress
  | BlockedCenterTap
  | Navigating (direction : Direction).

Definition accepted (o : Outcome) : bool :=
  match o with
  | Navigating _ => true
  | _ => false
  end.

(** [tapX / viewportWidth] *)
Definition tapPercent (e : Click) : Q := Qmake (clientX e) (innerWidth e).

(** [tapPercent >= 0.35 && tapPercent <= 0.65] *)
Definition centerTap (e : Click) : bool :=
  Qle_bool (35 # 100) (tapPercent e) && Qle_bool (tapPercent e) (65 # 100).

(** [tapPercent < 0.35 ? 'PREV' : 'NEXT'] *)
Definition directionOf (e : Click) : Direction :=
  if Qle_bool (35 # 100) (tapPercent e) then NEXT else PREV.

Definition hasSelection (e : Click) : bool :=
  negb (Nat.eqb (String.length (selectionText e)) 0).

(** [clickHandler(e)] up to the call of [rendition.next()] or
    [rendition.prev()]. *)
Definition clickHandler (e : Click) (st : State) : State * Outcome :=
  let n := nav st in
  if onLink e then (st, LinkClicked)
  else if isChatOpenRef n then (st, BlockedChatOpen)
  else if hasSelection e then (st, BlockedSelection)
  else
    let timeSinceLastNav := now e - lastNavigationTimeRef n in
    if timeSinceLastNav <? 200 then (st, BlockedDebounce)
    else if isNavigatingRef n then (st, BlockedInProgress)
    else if centerTap e then (st, BlockedCenterTap)
    else
      (withNav {| isChatOpenRef := isChatOpenRef n;
                  lastNavigationTimeRef := now e;
                  isNavigatingRef := true;
                  lastRequestedLocationIndexRef := lastRequestedLocationIndexRef n |} st,
       Navigating (directionOf e)).

(** The [then] and the [catch] of the navigation promise both clear the
    flag. *)
Definition navigationSettled (st : State) : State :=
  let n := nav st in
  withNav {| isChatOpenRef := isChatOpenRef n;
             lastNavigationTimeRef := lastNavigationTimeRef n;
             isNavigatingRef := false;
             lastRequestedLocationIndexRef := lastRequestedLocationIndexRef n |} st.

(** A tap that asks for a page turn: not on a link, no selection, and
    outside the centre band. *)
Definition navigationRequest (e : Click) : bool :=
  negb (onLink e) && negb (hasSelection e) && negb (centerTap e).

End Tap.

(** ** The chapter location index *)

Module ChapterIndex.

(** An entry of [nav.toc]. *)
#[warnings="-register-all"]
Inductive TocItem : Type :=
  | tocItem (itemHref itemLabel : string) (subitems : list TocItem).

Definition itemHref (t : TocItem) : string :=
  match t with tocItem h _ _ => h end.

Definition itemLabel (t : TocItem) : string :=
  match t with tocItem _ l _ => l end.

(** [flattenToc(items)]: each item, then its flattened subitems. *)
Fixpoint flattenItem (item : TocItem) : list TocItem :=
  match item with
  | tocItem _ _ subitems =>
      item :: (fix flattenAll (items : list TocItem) : list TocItem :=
                 match items with
                 | [] => []
                 | i :: rest => flattenItem i ++ flattenAll rest
                 end) subitems
  end.

Definition flattenToc (items : list TocItem) : list TocItem :=
  flat_map flattenItem items.

Section Build.

(** [total] is [book.locations.length()], [spineGet href] the
    [cfiBase] of [spine.get(href)] when the spine has the item. *)
Variable total : Z.
Variable spineGet : string -> option string.
Variable locationFromCfi : string -> Result JsVal.

(** "Get end location (start of next chapter or end of book)". *)
Definition endLocOf (startLoc : Z) (nextTocItem : option TocItem) : Result Z :=
  match nextTocItem with
  | Some next =>
      match spineGet (itemHref next) with
      | Some nextCfi =>
          match locationFromCfi nextCfi with
          | Throw => Throw
          | Ok (JNum nextLoc) =>
              Ok (if startLoc <? nextLoc then nextLoc - 1 else total - 1)
          | Ok _ => Ok (total - 1)
          end
      | None => Ok (total - 1)
      end
  | None => Ok (total - 1)
  end.

(** One turn of the loop: the entry pushed for [tocItem], if any. *)
Definition chapterOf (item : TocItem) (nextTocItem : option TocItem)
  : Result (option Chapter) :=
  match spineGet (itemHref item) with
  | Some startCfi =>
      match locationFromCfi startCfi with
      | Throw => Throw
      | Ok v =>
          let startLoc := orZero v in
          match endLocOf startLoc nextTocItem with
          | Throw => Throw
          | Ok endLoc =>
              Ok (Some {| href := itemHref item; label := itemLabel item;
                          startLocationIndex := startLoc;
                          endLocationIndex := endLoc |})
          end
      end
  | None => Ok None
  end.

(** The loop over [flatToc]; [flatToc[i + 1]] is the head of the rest.
    A throw leaves the loop and loses the local [chapterLocs]. *)
Fixpoint buildLoop (flatToc : list TocItem) : Result (list Chapter) :=
  match flatToc with
  | [] => Ok []
  | item :: rest =>
      match chapterOf item (hd_error rest) with
      | Throw => Throw
      | Ok pushed =>
          match buildLoop rest with
          | Throw => Throw
          | Ok chapterLocs =>
              Ok (match pushed with
                  | Some c => c :: chapterLocs
                  | None => chapterLocs
                  end)
          end
      end
  end.

(** [spine.get(item.href)] finds an item. *)
Definition hasSpineItem (item : TocItem) : bool :=
  match spineGet (itemHref item) with
  | Some _ => true
  | None => false
  end.

(** The number of entries pushed before the turn of an item: the entries
    of [before] that have a spine item. *)
Definition pushedBefore (before : list TocItem) : nat :=
  List.length (filter hasSpineItem before).

(** No lookup made for the entries of [flatToc] throws. *)
Definition LookupsReturn (flatToc : list TocItem) : Prop :=
  forall item cfi,
    In item flatToc -> spineGet (itemHref item) = Some cfi ->
    locationFromCfi cfi <> Throw.

(** The [try] around the build: on success the ref takes the new
    list, on a throw the [catch] only logs. *)
Definition buildChapterLocations (toc : list TocItem) (st : State)
  : State * list Stage :=
  match buildLoop (flattenToc toc) with
  | Ok chapterLocs =>
      (withChapters
         {| chapterLocationsRef := chapterLocs;
            pagesLeftInChapter := pagesLeftInChapter (chapters st);
            currentChapterName := currentChapterName (chapters st) |} st,
       [CHAPTER_LOCATIONS_BUILT])
  | Throw => (st, [CHAPTERS_ERROR_BUILDING])
  end.

End Build.

End ChapterIndex.


(** ** Sample books, events and states *)

Module Samples.

(** A book of 100 locations whose lookups find nothing for the CFIs used
    below, read with a callback that returns. *)
Definition book100 : Env :=
  {| locationsLength := 100;
     locationFromCfi := fun _ => Ok JNull;
     onLocationChange := Some (fun _ => Ok tt) |}.

(** The same book when a location lookup throws. *)
Definition throwingLookup : Env :=
  {| locationsLength := 100;
     locationFromCfi := fun _ => Throw;
     onLocationChange := None |}.

Definition boundaryAt (cfi : string) (index : Z) : Boundary :=
  {| b_cfi := Some cfi; b_location := Some index; b_displayed := None |}.

(** An event that reports the range [first .. last]. *)
Definition rangeEvent (first last : Z) : option Location :=
  Some {| loc_start := Some (boundaryAt "epubcfi(/6/8!/4/2/1:0)" first);
          loc_end := Some (boundaryAt "epubcfi(/6/8!/4/2/9:0)" last) |}.

(** An event that reports a start index and has no [loc.end]. *)
Definition startOnlyEvent (first : Z) : option Location :=
  Some {| loc_start :=
            Some {| b_cfi := None; b_location := Some first; b_displayed := None |};
          loc_end := None |}.

(** An event without indices and CFIs. *)
Definition bareEvent : option Location :=
  Some {| loc_start :=
            Some {| b_cfi := None; b_location := None; b_displayed := None |};
          loc_end := None |}.

(** An event with a CFI and no index. *)
Definition cfiEvent : option Location :=
  Some {| loc_start :=
            Some {| b_cfi := Some "epubcfi(/6/4!/4/2/1:0)"; b_location := None;
                    b_displayed := None |};
          loc_end := None |}.

(** The fresh component with a request for location [requested] on
    record. *)
Definition requesting (requested : Z) : State :=
  withNav {| isChatOpenRef := false; lastNavigationTimeRef := 0;
             isNavigatingRef := false;
             lastRequestedLocationIndexRef := Some requested |}
          (initialState None).

(** The fresh component after a relocation to [first .. last]. *)
Definition viewing (first last : Z) : State :=
  withViewport {| currentLocationIndexRef := first;
                  currentStartLocationRef := Some first;
                  currentEndLocationRef := Some last |}
    (withRelocatedRefs {| lastRelocatedStartRef := Some first;
                          lastRelocatedEndRef := Some last;
                          currentDisplayedPageRef := None;
                          currentDisplayedTotalRef := None |}
       (initialState None)).

(** A rendition whose manager has no view at the moment. *)
Definition noViews : Rendition :=
  {| r_manager := Some {| m_views := []; m_clientWidth := Some 400 |} |}.

(** A rendition showing one section. *)
Definition oneView : Rendition :=
  {| r_manager :=
       Some {| m_views := [Some {| d_body := true; d_transform := Some 0 |}];
               m_clientWidth := Some 400 |} |}.

(** The component on page 1 of a section of [pages] pages that starts at
    global page [first]. *)
Definition inSection (r : option Rendition) (pages first : Z) : State :=
  withSection {| sectionPageRef := 1; sectionTotalPagesRef := pages;
                 containerWidthRef := 400; sectionStartGlobalPageRef := first |}
              (initialState r).

(** The component whose last accepted tap was at time [t]. *)
Definition lastTapAt (t : Z) : State :=
  withNav {| isChatOpenRef := false; lastNavigationTimeRef := t;
             isNavigatingRef := false; lastRequestedLocationIndexRef := None |}
          (initialState (Some oneView)).

(** A tap on the right edge of a 400 pixel wide window at time [t]. *)
Definition rightTap (t : Z) : Tap.Click :=
  {| Tap.onLink := false; Tap.selectionText := ""; Tap.now := t;
     Tap.clientX := 380; Tap.innerWidth := 400 |}.

(** A table of contents of three entries, each with a spine item. *)
Definition threeEntries : list ChapterIndex.TocItem :=
  [ChapterIndex.tocItem "ch1.xhtml" "Ch1" [];
   ChapterIndex.tocItem "ch2.xhtml" "Ch2" [];
   ChapterIndex.tocItem "ch3.xhtml" "Ch3" []].

Definition spineOfThree (h : string) : option string :=
  if String.eqb h "ch1.xhtml" then Some "/6/2[ch1]"
  else if String.eqb h "ch2.xhtml" then Some "/6/4[ch2]"
  else if String.eqb h "ch3.xhtml" then Some "/6/6[ch3]"
  else None.

(** A spine that lacks the second entry. *)
Definition spineWithoutSecond (h : string) : option string :=
  if String.eqb h "ch2.xhtml" then None else spineOfThree h.

(** The three chapters start at 0, 50 and 80. *)
Definition lookupOfThree (cfi : string) : Result JsVal :=
  if String.eqb cfi "/6/2[ch1]" then Ok (JNum 0)
  else if String.eqb cfi "/6/4[ch2]" then Ok (JNum 50)
  else if String.eqb cfi "/6/6[ch3]" then Ok (JNum 80)
  else Ok JNull.

(** The same lookup when the CFI of the third entry makes it throw. *)
Definition lookupThrowingOnThird (cfi : string) : Result JsVal :=
  if String.eqb cfi "/6/6[ch3]" then Throw else lookupOfThree cfi.

(** A lookup that places the second entry before the first. *)
Definition lookupOutOfOrder (cfi : string) : Result JsVal :=
  if String.eqb cfi "/6/2[ch1]" then Ok (JNum 30)
  else if String.eqb cfi "/6/4[ch2]" then Ok (JNum 10)
  else if String.eqb cfi "/6/6[ch3]" then Ok (JNum 80)
  else Ok JNull.

Definition ch1 : Chapter :=
  {| href := "ch1.xhtml"; label := "Ch1"; startLocationIndex := 0; endLocationIndex := 49 |}.

Definition ch2 : Chapter :=
  {| href := "ch2.xhtml"; label := "Ch2"; startLocationIndex := 50; endLocationIndex := 99 |}.

(** The fresh component with the chapter table [Ch1 0-49, Ch2 50-99]. *)
Definition twoChapters : State :=
  withChapters {| chapterLocationsRef := [ch1; ch2]; pagesLeftInChapter := None;
                  currentChapterName := "" |}
               (initialState None).

End Samples.

(** * The rest of the reader *)

(** ** The previous-page button: [goToPrevPage] *)

Module Retreat.

(** [goToPrevPage()]: the synchronous part, with the renderer call it
    starts, if any. *)
Definition goToPrevPage (st : State) : State * option Transform.RendererCall :=
  match renditionRef st with
  | None => (st, None)
  | Some _ =>
      let currentPage := sectionPageRef (section st) in
      if 1 <? currentPage then
        let newPage := currentPage - 1 in
        let st1 := Transform.applyPageTransform newPage st in
        let newGlobalPage := sectionStartGlobalPageRef (section st1) + (newPage - 1) in
        (updatePageNonBlocking newGlobalPage st1, None)
      else (st, Some Transform.RenditionPrev)
  end.

(** [loc?.start?.displayed?.total || 1] on the value of
    [rendition.currentLocation()]. *)
Definition displayedTotalOf (loc : option Location) : Z :=
  numOr (match loc with
         | Some {| loc_start := Some {| b_displayed := Some {| d_total := Some t |} |} |} => t
         | _ => 0
         end) 1.

(** The [then] callback of [rendition.prev()]: go to the last page of
    the section now shown. It returns the [total] that the deferred
    callback closes over. *)
Definition prevSectionResolved (loc : option Location) (st : State) : State * Z :=
  let total := displayedTotalOf loc in
  let s := section st in
  let st1 :=
    withSection {| sectionPageRef := total;
                   sectionTotalPagesRef := total;
                   containerWidthRef := containerWidthRef s;
                   sectionStartGlobalPageRef := sectionStartGlobalPageRef s |} st in
  (Transform.applyPageTransform total st1, total).

(** The callback of the [setTimeout(..., 50)] set by the [then]
    callback. *)
Definition prevSectionDeferred (total : Z) (st : State) : State :=
  let lastPageGlobal := sectionStartGlobalPageRef (section st) + (total - 1) in
  updatePageNonBlocking lastPageGlobal st.

End Retreat.

(** An event that carries [displayed.page] and [displayed.total]. *)
Definition displayedEvent (cfi : string) (first last page total : Z) : option Location :=
  Some {| loc_start :=
            Some {| b_cfi := Some cfi; b_location := Some first;
                    b_displayed := Some {| d_page := Some page; d_total := Some total |} |};
          loc_end :=
            Some {| b_cfi := None; b_location := Some last; b_displayed := None |} |}.

(** [displayed.page] and [displayed.total] of [loc.start], when both are
    numbers. *)
Definition displayedNumbers (loc : option Location) : option (Z * Z) :=
  match loc with
  | Some {| loc_start :=
              Some {| b_displayed := Some {| d_page := Some p; d_total := Some t |} |} |} =>
      Some (p, t)
  | _ => None
  end.

(** Every page number the component holds is at least 1. *)
Definition PagesPositive (st : State) : Prop :=
  1 <= currentPage (coalescer st) /\
  (forall p, pendingPageRef (coalescer st) = Some p -> 1 <= p) /\
  1 <= sectionStartGlobalPageRef (section st) /\
  1 <= sectionPageRef (section st).

(** The two invariants together: page numbers at least 1, and a well
    formed coalescer. *)
Definition Healthy (st : State) : Prop :=
  PagesPositive st /\ Coalescer.wellFormed (coalescer st).

(** The section state and the page waiting for the next frame agree:
    the pending page is [sectionStartGlobalPage + (sectionPage - 1)]. *)
Definition PageMatchesSection (st : State) : Prop :=
  pendingPageRef (coalescer st) =
    Some (sectionStartGlobalPageRef (section st) + (sectionPageRef (section st) - 1)).

(** Events handled one after the other, no frame in between. *)
Fixpoint relocateAll (env : Env) (events : list (option Location)) (st : State) : State :=
  match events with
  | [] => st
  | loc :: rest => relocateAll env rest (fst (Relocated.relocated env loc st))
  end.

(** ** The relocated handler without the monad *)

Module Settled.

(** The chapter progress after the lookup for the start index [s]. *)
Definition chaptersAfter (s : option Z) (c : ChapterProgress) : ChapterProgress :=
  match chapterLocationsRef c, s with
  | _ :: _, Some i =>
      match Relocated.findChapter i (chapterLocationsRef c) with
      | Some currentChapter =>
          {| chapterLocationsRef := chapterLocationsRef c;
             pagesLeftInChapter := Some (Relocated.shownPagesLeft currentChapter i);
             currentChapterName := label currentChapter |}
      | None =>
          {| chapterLocationsRef := chapterLocationsRef c;
             pagesLeftInChapter := None;
             currentChapterName := "" |}
      end
  | _, _ => c
  end.

(** The state the handler leaves when nothing throws and the location
    table is ready: the statements of the [try] block in their order,
    for the resolved indices [s] and [e]. *)
Definition settledState (start : Boundary) (s e : option Z) (st : State) : State :=
  let st1 := withCurrentLocation (b_cfi start) st in
  let r := relocatedRefs st1 in
  let st2 :=
    withRelocatedRefs
      {| lastRelocatedStartRef := s;
         lastRelocatedEndRef := e;
         currentDisplayedPageRef := currentDisplayedPageRef r;
         currentDisplayedTotalRef := currentDisplayedTotalRef r |} st1 in
  let st3 :=
    match b_displayed start with
    | Some {| d_page := Some p; d_total := Some t |} => Relocated.syncSection p t s st2
    | _ => st2
    end in
  let st4 := withViewport (Relocated.syncViewport s e (viewport st3)) st3 in
  let st5 :=
    match Relocated.nonNegative s with
    | Some n => updatePageNonBlocking (Z.max 1 (n + 1)) st4
    | None => st4
    end in
  withChapters (chaptersAfter s (chapters st5)) st5.

End Settled.

(** ** What can happen to the component *)

(** One reaction of the component: an event of the renderer, a frame, a
    button, a tap, a settled promise or timer, the end of the chapter
    build. The renderer is taken to report section page counts that are
    not negative. *)
Inductive Step (env : Env) : State -> State -> Prop :=
| StepRelocated (loc : option Location) (st : State) :
    Step env st (fst (Relocated.relocated env loc st))
| StepFrame (st : State) :
    Step env st (paint st)
| StepNextButton (st : State) :
    Step env st (fst (Transform.goToNextPage st))
| StepNextResolved (st : State) :
    Step env st (Transform.nextSectionResolved st)
| StepPrevButton (st : State) :
    Step env st (fst (Retreat.goToPrevPage st))
| StepPrevResolved (loc : option Location) (st : State) :
    1 <= Retreat.displayedTotalOf loc ->
    Step env st (fst (Retreat.prevSectionResolved loc st))
| StepPrevDeferred (total : Z) (st : State) :
    1 <= total ->
    Step env st (Retreat.prevSectionDeferred total st)
| StepTap (e : Tap.Click) (st : State) :
    Step env st (fst (Tap.clickHandler e st))
| StepNavigationSettled (st : State) :
    Step env st (Tap.navigationSettled st)
| StepChaptersBuilt (total : Z) (spineGet : string -> option string)
    (toc : list ChapterIndex.TocItem) (st : State) :
    Step env st
      (fst (ChapterIndex.buildChapterLocations total spineGet (locationFromCfi env) toc st)).

(** The states the component can be in, from its first render on. *)
Inductive Reachable (env : Env) (r : option Rendition) : State -> Prop :=
| ReachableInitial : Reachable env r (initialState r)
| ReachableStep (st st' : State) :
    Reachable env r st -> Step env st st' -> Reachable env r st'.

(** ** Chapter ranges that tile the book *)

(** The start index an entry of the table of contents resolves to: the
    location of the [cfiBase] of its spine item, when the spine has the
    item and the lookup returns a number. *)
Definition startOf (spineGet : string -> option string)
    (locationFromCfi : string -> Result JsVal) (item : ChapterIndex.TocItem) : option Z :=
  match spineGet (ChapterIndex.itemHref item) with
  | Some cfi =>
      match locationFromCfi cfi with
      | Ok (JNum n) => Some n
      | _ => None
      end
  | None => None
  end.

(** Ranges that follow each other without gap or overlap and end at
    [last]. *)
Fixpoint Tiled (last : Z) (cs : list Chapter) : Prop :=
  match cs with
  | [] => True
  | c :: rest =>
      startLocationIndex c <= endLocationIndex c /\
      match rest with
      | [] => endLocationIndex c = last
      | d :: _ => endLocationIndex c + 1 = startLocationIndex d
      end /\
      Tiled last rest
  end.

(** Start indices in strictly increasing order, all below [total]. *)
Fixpoint Ascending (total : Z) (starts : list Z) : Prop :=
  match starts with
  | [] => True
  | s :: rest =>
      s < total /\
      match rest with
      | [] => True
      | s' :: _ => s < s'
      end /\
      Ascending total rest
  end.

(** ** The visibility of the page indicator: [showIndicatorTemporarily] *)

Module Indicator.

(** The two callbacks this code hands to [requestAnimationFrame]: the one
    of [showIndicatorTemporarily] and the one of the hide timer. *)
Inductive FrameCallback : Type :=
  | ShowFrame
  | HideFrame.

(** A timer set by [setTimeout] that has neither fired nor been
    cleared, with the time from which it may fire. *)
Record Timer : Type := {
  timerId : positive;
  due : Z
}.

(** [showPageIndicator] and [hideTimerRef] of the component, with the
    part of the browser they depend on: the timers set, the callbacks
    registered for the next frame in their order, the id the next
    [setTimeout] returns, and the time in milliseconds. *)
Record Visibility : Type := {
  showPageIndicator : bool;
  hideTimerRef : option positive;
  timers : list Timer;
  frameCallbacks : list FrameCallback;
  nextTimerId : positive;
  clock : Z
}.

(** The first render: [useState(true)], [useRef(null)]. *)
Definition mounted (now : Z) : Visibility :=
  {| showPageIndicator := true; hideTimerRef := None; timers := [];
     frameCallbacks := []; nextTimerId := 1; clock := now |}.

Definition requestAnimationFrame (cb : FrameCallback) (v : Visibility) : Visibility :=
  {| showPageIndicator := showPageIndicator v;
     hideTimerRef := hideTimerRef v;
     timers := timers v;
     frameCallbacks := frameCallbacks v ++ [cb];
     nextTimerId := nextTimerId v;
     clock := clock v |}.

(** [showIndicatorTemporarily()]: all its work is deferred to the next
    frame. *)
Definition showIndicatorTemporarily (v : Visibility) : Visibility :=
  requestAnimationFrame ShowFrame v.

Definition clearTimeout (id : positive) (ts : list Timer) : list Timer :=
  filter (fun t => negb (Pos.eqb (timerId t) id)) ts.

(** The frame callback of [showIndicatorTemporarily]: show, clear the
    timer on record, set a new one for 2000 ms. *)
Definition showCallback (v : Visibility) : Visibility :=
  let cleared :=
    match hideTimerRef v with
    | Some id => clearTimeout id (timers v)
    | None => timers v
    end in
  {| showPageIndicator := true;
     hideTimerRef := Some (nextTimerId v);
     timers := cleared ++ [{| timerId := nextTimerId v; due := clock v + 2000 |}];
     frameCallbacks := frameCallbacks v;
     nextTimerId := Pos.succ (nextTimerId v);
     clock := clock v |}.

(** The frame callback registered by the hide timer. *)
Definition hideCallback (v : Visibility) : Visibility :=
  {| showPageIndicator := false;
     hideTimerRef := hideTimerRef v;
     timers := timers v;
     frameCallbacks := frameCallbacks v;
     nextTimerId := nextTimerId v;
     clock := clock v |}.

Definition runCallback (cb : FrameCallback) (v : Visibility) : Visibility :=
  match cb with
  | ShowFrame => showCallback v
  | HideFrame => hideCallback v
  end.

Definition runCallbacks (cbs : list FrameCallback) (v : Visibility) : Visibility :=
  fold_left (fun acc cb => runCallback cb acc) cbs v.

(** An animation frame: the callbacks registered before it run in the
    order of their registration. *)
Definition animationFrame (v : Visibility) : Visibility :=
  runCallbacks (frameCallbacks v)
    {| showPageIndicator := showPageIndicator v;
       hideTimerRef := hideTimerRef v;
       timers := timers v;
       frameCallbacks := [];
       nextTimerId := nextTimerId v;
       clock := clock v |}.

(** The timer [id] fires, which it does only while set and once due: its
    callback registers the hide for the next frame. The ref keeps the
    id. *)
Definition timerFires (id : positive) (v : Visibility) : Visibility :=
  match find (fun t => Pos.eqb (timerId t) id) (timers v) with
  | Some t =>
      if due t <=? clock v then
        requestAnimationFrame HideFrame
          {| showPageIndicator := showPageIndicator v;
             hideTimerRef := hideTimerRef v;
             timers := clearTimeout id (timers v);
             frameCallbacks := frameCallbacks v;
             nextTimerId := nextTimerId v;
             clock := clock v |}
      else v
  | None => v
  end.

(** Time passes. *)
Definition elapse (ms : N) (v : Visibility) : Visibility :=
  {| showPageIndicator := showPageIndicator v;
     hideTimerRef := hideTimerRef v;
     timers := timers v;
     frameCallbacks := frameCallbacks v;
     nextTimerId := nextTimerId v;
     clock := clock v + Z.of_N ms |}.

(** What can happen: a call of [showIndicatorTemporarily] (a button, an
    accepted tap), a frame, a timer firing, time passing. *)
Inductive Event : Type :=
  | Called
  | Frame
  | TimerFires (id : positive)
  | Elapsed (ms : N).

Definition react (ev : Event) (v : Visibility) : Visibility :=
  match ev with
  | Called => showIndicatorTemporarily v
  | Frame => animationFrame v
  | TimerFires id => timerFires id v
  | Elapsed ms => elapse ms v
  end.

Definition run (events : list Event) (v : Visibility) : Visibility :=
  fold_left (fun acc ev => react ev acc) events v.

(** No timer is set but the one whose id the ref holds. *)
Definition OneTimer (v : Visibility) : Prop :=
  timers v = [] \/
  exists t, timers v = [t] /\ hideTimerRef v = Some (timerId t).

(** The indicator is hidden, or about to be, only after a first show. *)
Definition HiddenAfterShow (v : Visibility) : Prop :=
  (showPageIndicator v = false \/ In HideFrame (frameCallbacks v) \/ timers v <> []) ->
  hideTimerRef v <> None.

End Indicator.

(** ** The selection handler: the text handed to [onTextSelected] *)

Module Selection.

(** Strings are sequences of UTF-16 code units. [isWhiteSpace] is the
    class [\s] of a regular expression, which is also what [trim]
    strips: the white space and line terminator code points. *)
Definition isWhiteSpace (c : N) : bool :=
  ((9 <=? c) && (c <=? 13) || (c =? 32) || (c =? 160) || (c =? 5760)
   || (8192 <=? c) && (c <=? 8202) || (c =? 8232) || (c =? 8233)
   || (c =? 8239) || (c =? 8287) || (c =? 12288) || (c =? 65279))%N.

Definition space : N := 32%N.

(** [text.replace(/\s+/g, ' ')]: every maximal run of white space gives
    one space. [inRun] tells that the code unit before was white
    space. *)
Fixpoint replaceRuns (inRun : bool) (text : list N) : list N :=
  match text with
  | [] => []
  | c :: rest =>
      if isWhiteSpace c then
        if inRun then replaceRuns true rest else space :: replaceRuns true rest
      else c :: replaceRuns false rest
  end.

Fixpoint trimStart (text : list N) : list N :=
  match text with
  | [] => []
  | c :: rest => if isWhiteSpace c then trimStart rest else text
  end.

Fixpoint trimEnd (text : list N) : list N :=
  match text with
  | [] => []
  | c :: rest =>
      match trimEnd rest with
      | [] => if isWhiteSpace c then [] else [c]
      | kept => c :: kept
      end
  end.

(** [String.prototype.trim] *)
Definition trim (text : list N) : list N := trimEnd (trimStart text).

(** [text.replace(/\s+/g, ' ').trim()] *)
Definition cleanText (text : list N) : list N := trim (replaceRuns false text).

Record SelectionData : Type := {
  text : list N;
  cfiRange : string
}.

(** The [then] callback of [book.getRange(cfiRange)] on the text of the
    range: the argument of the call of [onTextSelected], if it makes
    one. *)
Definition selected (range : string) (rangeText : list N) : option SelectionData :=
  let cleaned := cleanText rangeText in
  if (0 <? List.length cleaned)%nat
  then Some {| text := cleaned; cfiRange := range |}
  else None.

Definition visible (c : N) : bool := negb (isWhiteSpace c).

(** Every white space code unit is a space. *)
Definition OnlySpaces (l : list N) : Prop :=
  forall c, In c l -> isWhiteSpace c = true -> c = space.

(** No two white space code units in a row. *)
Fixpoint Spaced (l : list N) : Prop :=
  match l with
  | [] => True
  | c :: rest =>
      (isWhiteSpace c = true ->
       match rest with
       | [] => True
       | d :: _ => isWhiteSpace d = false
       end) /\
      Spaced rest
  end.

(** No two white space code units in a row and none at the end. *)
Fixpoint Separated (l : list N) : Prop :=
  match l with
  | [] => True
  | c :: rest =>
      (isWhiteSpace c = true ->
       match rest with
       | [] => False
       | d :: _ => isWhiteSpace d = false
       end) /\
      Separated rest
  end.

(** The normal form: single spaces between visible code units. *)
Definition Clean (l : list N) : Prop :=
  OnlySpaces l /\ Separated l /\
  match l with
  | [] => True
  | c :: _ => isWhiteSpace c = false
  end.

End Selection.

(** ** The caller: font size and bookmarks of [App] *)

Module App.

(** [useState(100)] *)
Definition initialFontSize : Z := 100.

Definition increaseFontSize (prev : Z) : Z := Z.min (prev + 10) 200.

Definition decreaseFontSize (prev : Z) : Z := Z.max (prev - 10) 60.

(** [disabled={fontSize <= 60}] and [disabled={fontSize >= 200}] of the
    two buttons. *)
Definition decreaseDisabled (fontSize : Z) : bool := fontSize <=? 60.

Definition increaseDisabled (fontSize : Z) : bool := 200 <=? fontSize.

Inductive FontButton : Type :=
  | Plus
  | Minus.

(** A click; a disabled button gives none. *)
Definition click (b : FontButton) (fontSize : Z) : Z :=
  match b with
  | Plus => if increaseDisabled fontSize then fontSize else increaseFontSize fontSize
  | Minus => if decreaseDisabled fontSize then fontSize else decreaseFontSize fontSize
  end.

Definition clicks (bs : list FontButton) (fontSize : Z) : Z :=
  fold_left (fun size b => click b size) bs fontSize.

Record Bookmark : Type := {
  id : string;
  cfi : string;
  label : string;
  timestamp : Z
}.

(** [Record<string, Bookmark[]>] *)
Definition Bookmarks : Type := string -> option (list Bookmark).

(** [bookmarks[activeBookId] || []] *)
Definition ofBook (bookmarks : Bookmarks) (activeBookId : string) : list Bookmark :=
  match bookmarks activeBookId with
  | Some l => l
  | None => []
  end.

(** [{ ...prev, [activeBookId]: newBookmarks }] *)
Definition withBook (activeBookId : string) (newBookmarks : list Bookmark)
    (prev : Bookmarks) : Bookmarks :=
  fun k => if String.eqb k activeBookId then Some newBookmarks else prev k.

Fixpoint findIndex (p : Bookmark -> bool) (l : list Bookmark) : option nat :=
  match l with
  | [] => None
  | b :: rest =>
      if p b then Some O
      else match findIndex p rest with
           | Some i => Some (S i)
           | None => None
           end
  end.

(** [newBookmarks.splice(existingIndex, 1)] on a copy. *)
Definition splice1 (existingIndex : nat) (l : list Bookmark) : list Bookmark :=
  firstn existingIndex l ++ skipn (S existingIndex) l.

(** What the handlers read from the component, and the two calls of
    [bookmarkService]: [deleteBookmark(id)] and
    [saveBookmark(uid, {bookId, cfi, label})], which return or throw. *)
Record Session : Type := {
  activeBookId : option string;
  currentCfi : string;
  authUser : option string;
  deleteBookmark : string -> Result unit;
  saveBookmark : string -> string -> string -> string -> Result string
}.

Definition nonEmpty (s : string) : bool := negb (String.eqb s "").


(** [toggleBookmark()]: [bookmarks] is the state the handler closed
    over, [prev] the state when its [setBookmarks] runs; [newLabel] and
    [now] are the label and [Date.now()] of a new bookmark. *)
Definition toggleBookmark (s : Session) (newLabel : string) (now : Z)
    (bookmarks prev : Bookmarks) : Bookmarks :=
  match activeBookId s, authUser s with
  | Some book, Some uid =>
      if nonEmpty book && nonEmpty (currentCfi s) then
        let bookBookmarks := ofBook bookmarks book in
        match findIndex (fun b => String.eqb (cfi b) (currentCfi s)) bookBookmarks with
        | Some existingIndex =>
            match nth_error bookBookmarks existingIndex with
            | Some bookmarkToRemove =>
                match deleteBookmark s (id bookmarkToRemove) with
                | Ok _ => withBook book (splice1 existingIndex bookBookmarks) prev
                | Throw => prev
                end
            | None => prev
            end
        | None =>
            match saveBookmark s uid book (currentCfi s) newLabel with
            | Ok bookmarkId =>
                withBook book
                  ({| id := bookmarkId; cfi := currentCfi s; label := newLabel;
                      timestamp := now |} :: bookBookmarks)
                  prev
            | Throw => prev
            end
        end
      else prev
  | _, _ => prev
  end.

(** [removeBookmark(bookmarkId)] *)
Definition removeBookmark (s : Session) (bookmarkId : string)
    (bookmarks prev : Bookmarks) : Bookmarks :=
  match activeBookId s, authUser s with
  | Some book, Some _ =>
      if nonEmpty book then
        match deleteBookmark s bookmarkId with
        | Ok _ =>
            withBook book
              (filter (fun b => negb (String.eqb (id b) bookmarkId)) (ofBook bookmarks book))
              prev
        | Throw => prev
        end
      else prev
  | _, _ => prev
  end.


(** A click on the bookmark button or on the bin of a listed bookmark,
    each handled to its end before the next. *)
Inductive Action : Type :=
  | Toggle (s : Session) (newLabel : string) (now : Z)
  | Remove (s : Session) (bookmarkId : string).

Definition act (a : Action) (bookmarks : Bookmarks) : Bookmarks :=
  match a with
  | Toggle s newLabel now => toggleBookmark s newLabel now bookmarks bookmarks
  | Remove s bookmarkId => removeBookmark s bookmarkId bookmarks bookmarks
  end.

Definition acts (l : list Action) (bookmarks : Bookmarks) : Bookmarks :=
  fold_left (fun b a => act a b) l bookmarks.

(** No two bookmarks of a book are at the same place. *)
Definition OnePerPlace (bookmarks : Bookmarks) : Prop :=
  forall book, NoDup (map cfi (ofBook bookmarks book)).

End App.

(** ** More sample data *)

Module Cases.

(** The component on page [page] of a section of [pages] pages that
    starts at global page [first]. *)
Definition onPage (r : option Rendition) (page pages first : Z) : State :=
  withSection {| sectionPageRef := page; sectionTotalPagesRef := pages;
                 containerWidthRef := 400; sectionStartGlobalPageRef := first |}
              (initialState r).

End Cases.
(** * Properties *)

(** ** The page coalescer *)

Lemma wellFormed_update p c :
  Coalescer.wellFormed c -> Coalescer.wellFormed (Coalescer.updatePageNonBlocking p c).
Proof.
  unfold Coalescer.wellFormed, Coalescer.updatePageNonBlocking; simpl.
  destruct (pageUpdateScheduledRef c); intros [H _]; rewrite H; split;
    (reflexivity || discriminate).
Qed.

Lemma update_scheduled p c :
  Coalescer.wellFormed c ->
  let c' := Coalescer.updatePageNonBlocking p c in
  rafQueue c' = 1%nat /\ pageUpdateScheduledRef c' = true /\
  pendingPageRef c' = Some p /\ currentPage c' = currentPage c.
Proof.
  unfold Coalescer.wellFormed, Coalescer.updatePageNonBlocking; simpl.
  destruct (pageUpdateScheduledRef c); intros [H _]; rewrite H; auto.
Qed.

Lemma submitAll_snoc ps p c :
  Coalescer.submitAll (ps ++ [p]) c
  = Coalescer.updatePageNonBlocking p (Coalescer.submitAll ps c).
Proof. unfold Coalescer.submitAll. rewrite fold_left_app. reflexivity. Qed.

Lemma wellFormed_submitAll ps :
  forall c, Coalescer.wellFormed c -> Coalescer.wellFormed (Coalescer.submitAll ps c).
Proof.
  induction ps as [|p ps IH]; intros c H; simpl; auto.
  apply IH, wellFormed_update, H.
Qed.

Lemma currentPage_submitAll ps :
  forall c, currentPage (Coalescer.submitAll ps c) = currentPage c.
Proof.
  induction ps as [|p ps IH]; intros c; simpl; auto.
  unfold Coalescer.submitAll in *. simpl. rewrite IH. reflexivity.
Qed.

(** After a non-empty run: one callback, the last page pending. *)
Lemma submitAll_pending p ps c :
  Coalescer.wellFormed c ->
  let c' := Coalescer.submitAll (p :: ps) c in
  rafQueue c' = 1%nat /\ pendingPageRef c' = Some (last ps p) /\
  currentPage c' = currentPage c.
Proof.
  intros Hwf.
  destruct (exists_last (l := p :: ps)) as [front [q Hq]]; [discriminate|].
  assert (Hlast : last ps p = q).
  { assert (H : last (p :: ps) p = q) by (rewrite Hq; apply last_last).
    destruct ps; simpl in H; auto. }
  cbv zeta. rewrite Hq, submitAll_snoc, Hlast.
  destruct (update_scheduled q _ (wellFormed_submitAll front c Hwf)) as (H1 & _ & H3 & H4).
  repeat split; auto.
  rewrite H4. apply currentPage_submitAll.
Qed.

(** What a frame leaves: nothing pending, nothing scheduled, and as the
    current page the pending page if there was one. *)
Lemma painted_spec c :
  Coalescer.wellFormed c ->
  Coalescer.painted c =
    {| currentPage := match pendingPageRef c with
                      | Some p => p
                      | None => currentPage c
                      end;
       pendingPageRef := None;
       pageUpdateScheduledRef := false;
       rafQueue := 0 |}.
Proof.
  unfold Coalescer.wellFormed, Coalescer.painted, Coalescer.animationFrame.
  intros [Hq Hp].
  destruct (pageUpdateScheduledRef c) eqn:Es; rewrite Hq.
  - cbn. unfold Coalescer.pageCallback. cbn [pendingPageRef].
    destruct (pendingPageRef c); reflexivity.
  - cbn. rewrite (Hp eq_refl). reflexivity.
Qed.

Lemma wellFormed_painted c :
  Coalescer.wellFormed c -> Coalescer.wellFormed (Coalescer.painted c).
Proof.
  intros H. rewrite (painted_spec c H). split; reflexivity.
Qed.

Lemma wellFormed_initial r : Coalescer.wellFormed (coalescer (initialState r)).
Proof. split; reflexivity. Qed.

Lemma coalescer_paints k :
  forall st,
    Coalescer.wellFormed (coalescer st) ->
    Coalescer.wellFormed (coalescer (paints k st)) /\
    relocatedRefs (paints k st) = relocatedRefs st /\
    nav (paints k st) = nav st /\
    chapters (paints k st) = chapters st /\
    viewport (paints k st) = viewport st /\
    (k <> O -> coalescer (paints k st) = Coalescer.painted (coalescer st)).
Proof.
  induction k as [|k IH]; intros st Hwf.
  - cbn [paints]. split; [exact Hwf|]. do 4 (split; [reflexivity|]).
    intros H; contradiction H; reflexivity.
  - cbn [paints].
    assert (Hwf' : Coalescer.wellFormed (coalescer (paint st)))
      by (apply wellFormed_painted, Hwf).
    destruct (IH (paint st) Hwf') as (H1 & H2 & H3 & H4 & H5 & H6).
    split; [exact H1|]. split; [exact H2|]. split; [exact H3|].
    split; [exact H4|]. split; [exact H5|].
    intros _. destruct k as [|k]; [reflexivity|].
    rewrite H6 by discriminate.
    cbn [paint coalescer withCoalescer].
    rewrite (painted_spec _ (wellFormed_painted _ Hwf)).
    rewrite (painted_spec _ Hwf). reflexivity.
Qed.

(** ** Transform based pagination *)

Lemma applyPageTransform_present pageNum st :
  Transform.viewPresent st = true ->
  let st' := Transform.applyPageTransform pageNum st in
  sectionPageRef (section st') = pageNum /\
  sectionTotalPagesRef (section st') = sectionTotalPagesRef (section st) /\
  sectionStartGlobalPageRef (section st') = sectionStartGlobalPageRef (section st) /\
  containerWidthRef (section st') = containerWidthRef (section st) /\
  Transform.appliedOffset st' = Some ((pageNum - 1) * Transform.widthOf st) /\
  Transform.widthOf st' = Transform.widthOf st /\
  Transform.viewPresent st' = true /\
  coalescer st' = coalescer st.
Proof.
  unfold Transform.viewPresent, Transform.applyPageTransform, Transform.appliedOffset,
    Transform.widthOf.
  destruct (renditionRef st) as [[[[views cw]|]]|] eqn:Er; try discriminate.
  destruct views as [|[doc|] others]; try discriminate.
  simpl. destruct (d_body doc) eqn:Eb; try discriminate.
  destruct (d_transform doc) eqn:Et; try discriminate.
  intros _. simpl. unfold Transform.setTransform. rewrite Et. simpl.
  unfold Transform.pageWidth. simpl. rewrite Eb. repeat split; reflexivity.
Qed.

Lemma section_update p st : section (updatePageNonBlocking p st) = section st.
Proof. reflexivity. Qed.

Lemma appliedOffset_update p st :
  Transform.appliedOffset (updatePageNonBlocking p st) = Transform.appliedOffset st.
Proof. reflexivity. Qed.

Lemma widthOf_update p st : Transform.widthOf (updatePageNonBlocking p st) = Transform.widthOf st.
Proof. reflexivity. Qed.

Lemma viewPresent_update p st :
  Transform.viewPresent (updatePageNonBlocking p st) = Transform.viewPresent st.
Proof. reflexivity. Qed.

(** One in-section advance with the view present. *)
Lemma goToNextPage_in_section st :
  Transform.viewPresent st = true ->
  sectionPageRef (section st) < sectionTotalPagesRef (section st) ->
  let st' := fst (Transform.goToNextPage st) in
  snd (Transform.goToNextPage st) = None /\
  sectionPageRef (section st') = sectionPageRef (section st) + 1 /\
  sectionTotalPagesRef (section st') = sectionTotalPagesRef (section st) /\
  sectionStartGlobalPageRef (section st') = sectionStartGlobalPageRef (section st) /\
  Transform.appliedOffset st' = Some (sectionPageRef (section st) * Transform.widthOf st) /\
  pendingPageRef (coalescer st') =
    Some (sectionStartGlobalPageRef (section st) + (sectionPageRef (section st') - 1)) /\
  currentPage (coalescer st') = currentPage (coalescer st) /\
  Transform.widthOf st' = Transform.widthOf st /\
  Transform.viewPresent st' = true.
Proof.
  intros Hv Hlt.
  pose proof (applyPageTransform_present (sectionPageRef (section st) + 1) st Hv)
    as (Hp & Ht & Hs & Hc & Ho & Hw & Hv' & Hco).
  unfold Transform.goToNextPage.
  assert (Hr : exists r, renditionRef st = Some r).
  { unfold Transform.viewPresent in Hv. destruct (renditionRef st); [eauto|discriminate]. }
  destruct Hr as [r Hr]. rewrite Hr.
  apply Z.ltb_lt in Hlt. rewrite Hlt. cbn [fst snd].
  set (st1 := Transform.applyPageTransform (sectionPageRef (section st) + 1) st) in *.
  rewrite section_update, appliedOffset_update, widthOf_update, viewPresent_update.
  unfold updatePageNonBlocking. cbn [coalescer withCoalescer].
  cbn [Coalescer.updatePageNonBlocking pendingPageRef currentPage].
  rewrite Hp, Ht, Hs, Ho, Hw, Hco.
  repeat split; auto.
  f_equal. ring.
Qed.

(** ** The relocated handler *)

Section RelocatedFacts.

Variable env : Env.

Lemma logged_app s l1 l2 : logged s (l1 ++ l2) = logged s l1 || logged s l2.
Proof. apply existsb_app. Qed.

(** Once the indices are resolved the page tracking runs to its end; the
    conjuncts describe what it leaves in each part of the state. *)
Lemma trackPage_run start end_ st s e :
  Relocated.resolveIndices env start end_ = Ok (s, e) ->
  exists st' log,
    Relocated.trackPage env start end_ st = (Ok tt, st', log) /\
    logged RELOCATED_STUCK_DETECTED log =
      Relocated.stuckDetected (lastRelocatedStartRef (relocatedRefs st))
                              (lastRelocatedEndRef (relocatedRefs st))
                              (lastRequestedLocationIndexRef (nav st)) s e /\
    logged RELOCATED_EVENT_ERROR log = false /\
    logged RELOCATED_EVENT_COMPLETE log = false /\
    lastRelocatedStartRef (relocatedRefs st') = s /\
    lastRelocatedEndRef (relocatedRefs st') = e /\
    viewport st' = Relocated.syncViewport s e (viewport st) /\
    coalescer st' =
      match Relocated.nonNegative s with
      | Some n => Coalescer.updatePageNonBlocking (Z.max 1 (n + 1)) (coalescer st)
      | None => coalescer st
      end /\
    nav st' = nav st /\
    currentLocation st' = currentLocation st /\
    chapters st' =
      match chapterLocationsRef (chapters st), s with
      | _ :: _, Some i =>
          match Relocated.findChapter i (chapterLocationsRef (chapters st)) with
          | Some ch =>
              {| chapterLocationsRef := chapterLocationsRef (chapters st);
                 pagesLeftInChapter := Some (Relocated.shownPagesLeft ch i);
                 currentChapterName := label ch |}
          | None =>
              {| chapterLocationsRef := chapterLocationsRef (chapters st);
                 pagesLeftInChapter := None;
                 currentChapterName := "" |}
          end
      | _, _ => chapters st
      end /\
    logged CHAPTER_PROGRESS log =
      match chapterLocationsRef (chapters st), s with
      | _ :: _, Some i =>
          match Relocated.findChapter i (chapterLocationsRef (chapters st)) with
          | Some _ => true
          | None => false
          end
      | _, _ => false
      end.
Proof.
  intros Hr.
  unfold Relocated.trackPage, Relocated.chapterProgress, when, bind, lift, modify,
    get, ret, logPageIndicator.
  rewrite Hr. cbn [fst snd].
  destruct (Relocated.stuckDetected _ _ _ s e);
    destruct (b_displayed start) as [[[p|] [t|]]|];
    destruct (Relocated.nonNegative s) eqn:En;
    cbn -[Relocated.findChapter Relocated.shownPagesLeft Z.max Z.add];
    destruct (chapterLocationsRef (chapters st)) eqn:Ech;
    destruct s as [i|];
    cbn -[Relocated.findChapter Relocated.shownPagesLeft Z.max Z.add];
    try destruct (Relocated.findChapter i _) eqn:Ef;
    cbn -[Relocated.findChapter Relocated.shownPagesLeft Z.max Z.add];
    (do 2 eexists; split; [reflexivity|]);
    cbn -[Relocated.findChapter Relocated.shownPagesLeft Z.max Z.add];
    try rewrite Ech; try rewrite Ef;
    repeat split; try reflexivity;
    destruct (chapters st); cbn in *; congruence.
Qed.

(** The whole event, for an event that gets through the page tracking. *)
Lemma relocated_run loc st s e :
  Relocated.processedRange env loc = Some (s, e) ->
  Relocated.completes env loc st = true /\
  exists st' log,
    Relocated.relocated env loc st = (st', log) /\
    logged RELOCATED_STUCK_DETECTED log =
      Relocated.stuckDetected (lastRelocatedStartRef (relocatedRefs st))
                              (lastRelocatedEndRef (relocatedRefs st))
                              (lastRequestedLocationIndexRef (nav st)) s e /\
    logged RELOCATED_EVENT_ERROR log = false /\
    logged RELOCATED_EVENT_COMPLETE log = true /\
    lastRelocatedStartRef (relocatedRefs st') = s /\
    lastRelocatedEndRef (relocatedRefs st') = e /\
    viewport st' = Relocated.syncViewport s e (viewport st) /\
    coalescer st' =
      match Relocated.nonNegative s with
      | Some n => Coalescer.updatePageNonBlocking (Z.max 1 (n + 1)) (coalescer st)
      | None => coalescer st
      end /\
    nav st' = nav st /\
    chapters st' =
      match chapterLocationsRef (chapters st), s with
      | _ :: _, Some i =>
          match Relocated.findChapter i (chapterLocationsRef (chapters st)) with
          | Some ch =>
              {| chapterLocationsRef := chapterLocationsRef (chapters st);
                 pagesLeftInChapter := Some (Relocated.shownPagesLeft ch i);
                 currentChapterName := label ch |}
          | None =>
              {| chapterLocationsRef := chapterLocationsRef (chapters st);
                 pagesLeftInChapter := None;
                 currentChapterName := "" |}
          end
      | _, _ => chapters st
      end /\
    logged CHAPTER_PROGRESS log =
      match chapterLocationsRef (chapters st), s with
      | _ :: _, Some i =>
          match Relocated.findChapter i (chapterLocationsRef (chapters st)) with
          | Some _ => true
          | None => false
          end
      | _, _ => false
      end.
Proof.
  unfold Relocated.processedRange.
  destruct loc as [[[start|] end_]|]; try discriminate.
  destruct (0 <? locationsLength env) eqn:Hlen;
    [|destruct (onLocationChange env) as [cb|]; [destruct (cb _)|]; discriminate].
  destruct (Relocated.resolveIndices env start end_) as [[s' e']|] eqn:Hres;
    [|destruct (onLocationChange env) as [cb|]; [destruct (cb _)|]; discriminate].
  intros H.
  assert (Hse : (s', e') = (s, e)).
  { destruct (onLocationChange env) as [cb|]; [destruct (cb _)|]; congruence. }
  inversion Hse; subst s' e'; clear Hse.
  destruct (trackPage_run start end_ (withCurrentLocation (b_cfi start) st) s e Hres)
    as (st' & log & Hrun & Hstuck & Herr & Hcomp & Hs & He & Hv & Hco & Hnav & _ & Hch & Hcp).
  unfold Relocated.completes, Relocated.relocated, Relocated.relocatedHandler, tryCatch,
    Relocated.relocatedBody, when, bind, lift, modify, get, ret, logPageIndicator.
  rewrite Hlen.
  destruct (onLocationChange env) as [cb|].
  - destruct (cb (b_cfi start)) as [[]|]; try discriminate.
    cbn [loc_end]. rewrite Hrun. split; [reflexivity|].
    exists st', (RELOCATED_BEFORE_SET_CURRENT_LOCATION
                 :: RELOCATED_AFTER_SET_CURRENT_LOCATION
                 :: RELOCATED_BEFORE_ON_LOCATION_CHANGE
                 :: RELOCATED_AFTER_ON_LOCATION_CHANGE
                 :: log ++ [RELOCATED_EVENT_COMPLETE]).
    split; [reflexivity|].
    unfold logged in *. cbn [existsb Stage_eqb orb].
    rewrite !existsb_app, ?Hstuck, ?Herr, ?Hcomp, ?Hcp. cbn.
    rewrite ?orb_false_r. repeat split; auto.
  - cbn [loc_end]. rewrite Hrun. split; [reflexivity|].
    exists st', (RELOCATED_BEFORE_SET_CURRENT_LOCATION
                 :: RELOCATED_AFTER_SET_CURRENT_LOCATION
                 :: log ++ [RELOCATED_EVENT_COMPLETE]).
    split; [reflexivity|].
    unfold logged in *. cbn [existsb Stage_eqb orb].
    rewrite !existsb_app, ?Hstuck, ?Herr, ?Hcomp, ?Hcp. cbn.
    rewrite ?orb_false_r. repeat split; auto.
Qed.

(** An event that does not get through the page tracking: the state keeps
    everything but [currentLocation], which the first statements of the
    body have already written unless reading [loc.start.cfi] threw. *)
Lemma relocated_untracked loc st :
  Relocated.processedRange env loc = None ->
  exists st' log,
    Relocated.relocated env loc st = (st', log) /\
    st' = match loc with
          | Some {| loc_start := Some b |} => withCurrentLocation (b_cfi b) st
          | _ => st
          end /\
    logged RELOCATED_STUCK_DETECTED log = false /\
    logged CHAPTER_PROGRESS log = false /\
    logged RELOCATED_EVENT_ERROR log = negb (Relocated.completes env loc st) /\
    logged RELOCATED_EVENT_COMPLETE log = Relocated.completes env loc st.
Proof.
  unfold Relocated.processedRange, Relocated.completes, Relocated.relocated,
    Relocated.relocatedHandler, tryCatch, Relocated.relocatedBody, when, bind, lift,
    modify, get, ret, logPageIndicator.
  destruct loc as [[[start|] end_]|]; cbn [loc_end];
    try (intros _; do 2 eexists; split; [reflexivity|]; repeat split; reflexivity).
  destruct (onLocationChange env) as [cb|].
  - destruct (cb (b_cfi start)) as [[]|];
      try (intros _; do 2 eexists; split; [reflexivity|]; repeat split; reflexivity).
    destruct (0 <? locationsLength env);
      try (intros _; do 2 eexists; split; [reflexivity|]; repeat split; reflexivity).
    unfold Relocated.trackPage, bind, lift.
    destruct (Relocated.resolveIndices env start end_); try discriminate.
    intros _; do 2 eexists; split; [reflexivity|]; repeat split; reflexivity.
  - destruct (0 <? locationsLength env);
      try (intros _; do 2 eexists; split; [reflexivity|]; repeat split; reflexivity).
    unfold Relocated.trackPage, bind, lift.
    destruct (Relocated.resolveIndices env start end_); try discriminate.
    intros _; do 2 eexists; split; [reflexivity|]; repeat split; reflexivity.
Qed.

(** The handler never hands an exception to its caller. *)
Lemma relocatedHandler_returns loc st :
  fst (fst (Relocated.relocatedHandler env loc st)) = Ok tt.
Proof.
  unfold Relocated.relocatedHandler, tryCatch, logPageIndicator.
  destruct (Relocated.relocatedBody env loc st) as [[[u|] st1] log1]; reflexivity.
Qed.

Lemma inChapter_Contains i ch :
  Relocated.inChapter i ch = true <-> Relocated.Contains ch i.
Proof.
  unfold Relocated.inChapter, Relocated.Contains.
  rewrite andb_true_iff, !Z.leb_le. tauto.
Qed.

(** [findChapter] returns the first range, in list order, that contains
    the index. *)
Lemma findChapter_first i before ch after :
  (forall c, In c before -> ~ Relocated.Contains c i) ->
  Relocated.Contains ch i ->
  Relocated.findChapter i (before ++ ch :: after) = Some ch.
Proof.
  unfold Relocated.findChapter.
  induction before as [|c before IH]; intros Hnot Hin; simpl.
  - apply inChapter_Contains in Hin. rewrite Hin. reflexivity.
  - destruct (Relocated.inChapter i c) eqn:Ec.
    + apply inChapter_Contains in Ec. exfalso. apply (Hnot c); simpl; auto.
    + apply IH; auto. intros c' Hc'. apply Hnot. simpl; auto.
Qed.

Lemma findChapter_none i l :
  (forall c, In c l -> ~ Relocated.Contains c i) ->
  Relocated.findChapter i l = None.
Proof.
  unfold Relocated.findChapter. intros Hnot.
  destruct (find (Relocated.inChapter i) l) as [c|] eqn:Ef; auto.
  apply find_some in Ef. destruct Ef as [Hin Hc].
  apply inChapter_Contains in Hc. exfalso. exact (Hnot c Hin Hc).
Qed.

Lemma findChapter_some i l ch :
  Relocated.findChapter i l = Some ch -> In ch l /\ Relocated.Contains ch i.
Proof.
  unfold Relocated.findChapter. intros Ef. apply find_some in Ef.
  destruct Ef as [Hin Hc]. apply inChapter_Contains in Hc. auto.
Qed.

Lemma shownPagesLeft_inside ch i :
  Relocated.Contains ch i -> Relocated.shownPagesLeft ch i = endLocationIndex ch - i.
Proof. unfold Relocated.Contains, Relocated.shownPagesLeft. cbv zeta. lia. Qed.

Lemma updatePageNonBlocking_twice p c :
  Coalescer.updatePageNonBlocking p (Coalescer.updatePageNonBlocking p c) =
  Coalescer.updatePageNonBlocking p c.
Proof. reflexivity. Qed.

Lemma nonNegative_some s n : Relocated.nonNegative (Some s) = Some n -> n = s /\ 0 <= s.
Proof.
  unfold Relocated.nonNegative. destruct (0 <=? s) eqn:E; [|discriminate].
  intros H. apply Z.leb_le in E. split; [congruence | exact E].
Qed.

End RelocatedFacts.

(** The handler keeps the coalescer well formed. *)
Lemma wellFormed_relocated env loc st :
  Coalescer.wellFormed (coalescer st) ->
  Coalescer.wellFormed (coalescer (fst (Relocated.relocated env loc st))).
Proof.
  intros Hwf.
  destruct (Relocated.processedRange env loc) as [[s e]|] eqn:Hp.
  - destruct (relocated_run env loc st s e Hp)
      as (_ & st' & log & Hr & _ & _ & _ & _ & _ & _ & Hco & _).
    rewrite Hr. cbn [fst]. rewrite Hco.
    destruct (Relocated.nonNegative s); [apply wellFormed_update|]; exact Hwf.
  - destruct (relocated_untracked env loc st Hp) as (st' & log & Hr & Hst & _).
    rewrite Hr. cbn [fst]. rewrite Hst.
    destruct loc as [[[b|] end_]|]; exact Hwf.
Qed.

(** ** Stuck detection *)

(** C1. For two consecutive relocation events that are processed with the
    location table ready, with any number of animation frames in between,
    the second one logs [RELOCATED_STUCK_DETECTED] exactly when both
    resolved to the same start and end index and the last requested
    location index is set and strictly greater than that end. Such an
    event does not move the page: it leaves [currentPage] as it is, and
    after the next frame [currentPage] is what the previous event settled,
    [start + 1] for a start that is not negative. *)
Theorem stuck_flagged_exactly_when_range_repeats
    (env : Env) (st : State) (loc1 loc2 : option Location)
    (previous range : option Z * option Z) (frames : nat) :
  Coalescer.wellFormed (coalescer st) ->
  Relocated.processedRange env loc1 = Some previous ->
  Relocated.processedRange env loc2 = Some range ->
  let st1 := fst (Relocated.relocated env loc1 st) in
  let between := paints frames st1 in
  let st2 := fst (Relocated.relocated env loc2 between) in
  let log2 := snd (Relocated.relocated env loc2 between) in
  (logged RELOCATED_STUCK_DETECTED log2 = true <->
   exists s e requested,
     previous = (Some s, Some e) /\ range = (Some s, Some e) /\
     lastRequestedLocationIndexRef (nav between) = Some requested /\
     e < requested) /\
  (logged RELOCATED_STUCK_DETECTED log2 = true ->
   currentPage (coalescer st2) = currentPage (coalescer between) /\
   currentPage (coalescer (paint st2)) = currentPage (coalescer (paint st1)) /\
   forall s, fst range = Some s -> 0 <= s ->
             currentPage (coalescer (paint st2)) = s + 1).
Proof.
  intros Hwf H1 H2. destruct previous as [s1 e1], range as [s2 e2].
  destruct (relocated_run env loc1 st s1 e1 H1)
    as (_ & st1 & log1 & Hr1 & _ & _ & _ & Hs1 & He1 & _ & Hco1 & Hnav1 & _).
  rewrite Hr1. cbn [fst snd].
  assert (Hwf1 : Coalescer.wellFormed (coalescer st1)).
  { rewrite Hco1. destruct (Relocated.nonNegative s1); [apply wellFormed_update|]; exact Hwf. }
  destruct (coalescer_paints frames st1 Hwf1) as (Hwfb & Hrb & Hnb & _ & _ & Hcb).
  set (between := paints frames st1) in *.
  destruct (relocated_run env loc2 between s2 e2 H2)
    as (_ & st2 & log2 & Hr2 & Hstuck & _ & _ & _ & _ & _ & Hco2 & _).
  rewrite Hr2. cbn [fst snd].
  rewrite Hstuck, Hrb, Hs1, He1.
  assert (Hiff : Relocated.stuckDetected s1 e1 (lastRequestedLocationIndexRef (nav between))
                   s2 e2 = true <->
                 exists s e requested,
                   (s1, e1) = (Some s, Some e) /\ (s2, e2) = (Some s, Some e) /\
                   lastRequestedLocationIndexRef (nav between) = Some requested /\
                   e < requested).
  { unfold Relocated.stuckDetected.
    destruct s2 as [s|], e2 as [e|], s1 as [ps|], e1 as [pe|],
      (lastRequestedLocationIndexRef (nav between)) as [r|];
      try (split; [discriminate | intros (a & b & c & Ha & Hb & Hc & _); congruence]).
    rewrite !andb_true_iff, !Z.eqb_eq, Z.ltb_lt. split.
    - intros [[-> ->] Hlt]. exists s, e, r. auto.
    - intros (a & b & c & Ha & Hb & Hc & Hlt).
      inversion Ha; inversion Hb; inversion Hc; subst. auto. }
  split; [exact Hiff|].
  intros Hflag. apply Hiff in Hflag.
  destruct Hflag as (s & e & r & Hp & Hq & _ & _).
  injection Hp as -> ->. injection Hq as -> ->.
  cbn [paint coalescer withCoalescer fst].
  assert (Hwf2 : Coalescer.wellFormed (coalescer st2)).
  { rewrite Hco2. destruct (Relocated.nonNegative (Some s));
      [apply wellFormed_update|]; exact Hwfb. }
  rewrite (painted_spec _ Hwf2), (painted_spec _ Hwf1). cbn [currentPage].
  rewrite Hco2.
  destruct (Relocated.nonNegative (Some s)) as [n|] eqn:En.
  - (* both events submitted the same page *)
    rewrite Hco1. cbn [Coalescer.updatePageNonBlocking pendingPageRef currentPage].
    split; [reflexivity|]. split; [reflexivity|].
    intros s' Hs' Hge. injection Hs' as <-.
    apply nonNegative_some in En. destruct En as [-> _]. lia.
  - (* a negative start: neither event submitted a page *)
    split; [reflexivity|]. split.
    + destruct frames as [|k].
      * reflexivity.
      * rewrite Hcb by discriminate.
        rewrite (painted_spec _ Hwf1). reflexivity.
    + intros s' Hs' Hge. injection Hs' as <-.
      unfold Relocated.nonNegative in En.
      apply Z.leb_le in Hge. rewrite Hge in En. discriminate.
Qed.

Lemma stuck_flagged_witness :
  let st1 := fst (Relocated.relocated Samples.book100 (Samples.rangeEvent 55 58)
                    (Samples.requesting 60)) in
  let second := Relocated.relocated Samples.book100 (Samples.rangeEvent 55 58)
                  (paints 1 st1) in
  logged RELOCATED_STUCK_DETECTED (snd second) = true /\
  currentPage (coalescer (paint (fst second))) = 56.
Proof.
  destruct (stuck_flagged_exactly_when_range_repeats
              Samples.book100 (Samples.requesting 60)
              (Samples.rangeEvent 55 58) (Samples.rangeEvent 55 58)
              (Some 55, Some 58) (Some 55, Some 58) 1
              (conj eq_refl (fun _ => eq_refl)) eq_refl eq_refl) as [Hiff Hpage].
  assert (Hflag : logged RELOCATED_STUCK_DETECTED
                    (snd (Relocated.relocated Samples.book100 (Samples.rangeEvent 55 58)
                       (paints 1
                          (fst (Relocated.relocated Samples.book100
                                  (Samples.rangeEvent 55 58) (Samples.requesting 60))))))
                  = true).
  { apply Hiff. exists 55, 58, 60. repeat split; reflexivity. }
  split; [exact Hflag|].
  destruct (Hpage Hflag) as (_ & _ & Hsettled).
  apply (Hsettled 55); [reflexivity | lia].
Defined.

(** ** Resolution of the indices *)

(** C2, as the code has it. The resolved start is the event's own start
    index when it has one, else the index derived from the start CFI, else
    null; the resolved end is the event's own end index when it has one,
    else the index derived from the end CFI, else the resolved start of
    the same event. The earlier viewport range is not consulted. *)
Theorem resolution_order
    (env : Env) (start : Boundary) (end_ : option Boundary) (s e : option Z) :
  Relocated.resolveIndices env start end_ = Ok (s, e) ->
  (forall n, b_location start = Some n -> s = Some n) /\
  (b_location start = None -> Relocated.deriveFromCfi env (b_cfi start) = Ok s) /\
  (forall n, Relocated.locationOf end_ = Some n -> e = Some n) /\
  (forall n, Relocated.locationOf end_ = None ->
             Relocated.deriveFromCfi env (Relocated.cfiOf end_) = Ok (Some n) ->
             e = Some n) /\
  (Relocated.locationOf end_ = None ->
   Relocated.deriveFromCfi env (Relocated.cfiOf end_) = Ok None ->
   e = s).
Proof.
  unfold Relocated.resolveIndices.
  destruct (Relocated.deriveFromCfi env (b_cfi start)) as [ds|]; [|discriminate].
  destruct (Relocated.deriveFromCfi env (Relocated.cfiOf end_)) as [de|]; [|discriminate].
  intros H. inversion H; subst; clear H.
  unfold Relocated.orElse.
  repeat split.
  - intros n Hn. rewrite Hn. reflexivity.
  - intros Hn. rewrite Hn. reflexivity.
  - intros n Hn. rewrite Hn. reflexivity.
  - intros n Hn Hd. rewrite Hn. inversion Hd. reflexivity.
  - intros Hn Hd. rewrite Hn. inversion Hd. reflexivity.
Qed.

Lemma resolution_order_witness :
  Relocated.resolveIndices Samples.book100
    {| b_cfi := None; b_location := Some 10; b_displayed := None |} None
  = Ok (Some 10, Some 10) /\
  Some 10 = Some 10.
Proof.
  split; [reflexivity|].
  destruct (resolution_order Samples.book100
              {| b_cfi := None; b_location := Some 10; b_displayed := None |} None
              (Some 10) (Some 10) eq_refl) as (_ & _ & _ & _ & Hend).
  exact (Hend eq_refl eq_refl).
Defined.

(** C2 as written fails: with the earlier range ending at 5, an event that
    reports start 10 and no end resolves to the end 10, and an event
    without any index resolves to no index at all. *)
Lemma resolution_prior_end_counterexample :
  let st := Samples.viewing 3 5 in
  lastRelocatedEndRef (relocatedRefs st) = Some 5 /\
  currentEndLocationRef (viewport st) = Some 5 /\
  Relocated.processedRange Samples.book100 (Samples.startOnlyEvent 10)
    = Some (Some 10, Some 10) /\
  lastRelocatedEndRef
    (relocatedRefs (fst (Relocated.relocated Samples.book100
                           (Samples.startOnlyEvent 10) st))) = Some 10 /\
  currentEndLocationRef
    (viewport (fst (Relocated.relocated Samples.book100
                      (Samples.startOnlyEvent 10) st))) = Some 10 /\
  Relocated.processedRange Samples.book100 Samples.bareEvent = Some (None, None) /\
  ~ (forall (st : State) (loc : option Location) (s e : option Z),
        Relocated.processedRange Samples.book100 loc = Some (s, e) ->
        match loc with
        | Some {| loc_start := Some b; loc_end := end_ |} =>
            Relocated.locationOf end_ = None ->
            Relocated.deriveFromCfi Samples.book100 (Relocated.cfiOf end_) = Ok None ->
            e = lastRelocatedEndRef (relocatedRefs st)
        | _ => True
        end).
Proof.
  repeat split; try reflexivity.
  intros H.
  specialize (H (Samples.viewing 3 5) (Samples.startOnlyEvent 10) (Some 10) (Some 10)
                eq_refl eq_refl eq_refl).
  discriminate H.
Qed.

(** ** Chapter progress *)

(** The empty-table invariant holds at start and is kept by the handler. *)
Lemma noProgress_initial r :
  Relocated.NoProgressWithoutChapters (chapters (initialState r)).
Proof. intros _. split; reflexivity. Qed.

Lemma relocated_chapters_cases env loc st :
  let st' := fst (Relocated.relocated env loc st) in
  let log := snd (Relocated.relocated env loc st) in
  (chapters st' = chapters st /\ logged CHAPTER_PROGRESS log = false) \/
  (exists i ch,
      Relocated.findChapter i (chapterLocationsRef (chapters st)) = Some ch /\
      chapters st' =
        {| chapterLocationsRef := chapterLocationsRef (chapters st);
           pagesLeftInChapter := Some (Relocated.shownPagesLeft ch i);
           currentChapterName := label ch |} /\
      logged CHAPTER_PROGRESS log = true) \/
  (chapterLocationsRef (chapters st) <> [] /\
   chapters st' =
     {| chapterLocationsRef := chapterLocationsRef (chapters st);
        pagesLeftInChapter := None;
        currentChapterName := "" |} /\
   logged CHAPTER_PROGRESS log = false).
Proof.
  cbv zeta.
  destruct (Relocated.processedRange env loc) as [[s e]|] eqn:Hp.
  - destruct (relocated_run env loc st _ _ Hp)
      as (_ & st' & log & Hr & _ & _ & _ & _ & _ & _ & _ & _ & Hch & Hcp).
    rewrite Hr. cbn [fst snd]. rewrite Hch, Hcp.
    destruct (chapterLocationsRef (chapters st)) as [|c l] eqn:El; [left; auto|].
    destruct s as [i|]; [|left; auto].
    destruct (Relocated.findChapter i (c :: l)) as [ch|] eqn:Ef.
    + right; left. exists i, ch. auto.
    + right; right. repeat split; auto. discriminate.
  - destruct (relocated_untracked env loc st Hp) as (st' & log & Hr & Hst & _ & Hcp & _).
    rewrite Hr. cbn [fst snd]. left. split; [|exact Hcp].
    rewrite Hst. destruct loc as [[[b|] end_]|]; reflexivity.
Qed.

Lemma noProgress_relocated env loc st :
  Relocated.NoProgressWithoutChapters (chapters st) ->
  Relocated.NoProgressWithoutChapters (chapters (fst (Relocated.relocated env loc st))).
Proof.
  intros Hinv.
  destruct (relocated_chapters_cases env loc st)
    as [[Heq _] | [(i & ch & Hf & Heq & _) | (Hne & Heq & _)]];
    rewrite Heq; auto.
  - intros Hnil. cbn in Hnil. rewrite Hnil in Hf. discriminate.
  - intros _. split; reflexivity.
Qed.

Lemma noProgress_build total spineGet locationFromCfi toc st :
  chapterLocationsRef (chapters st) = [] ->
  Relocated.NoProgressWithoutChapters (chapters st) ->
  Relocated.NoProgressWithoutChapters
    (chapters (fst (ChapterIndex.buildChapterLocations total spineGet locationFromCfi
                      toc st))).
Proof.
  intros Hnil Hinv. unfold ChapterIndex.buildChapterLocations.
  destruct (ChapterIndex.buildLoop total spineGet locationFromCfi
              (ChapterIndex.flattenToc toc)); [|exact Hinv].
  intros _. exact (Hinv Hnil).
Qed.

(** C7. For a relocation that resolves to the start index [i]: when some
    range contains [i], the first such range in the order of the table is
    the one published, with its label and [endIndex - i] pages left, which
    is 0 at the range's last index; when no range contains [i], pages left
    is null and the label is empty. *)
Theorem chapter_lookup_and_progress
    (env : Env) (loc : option Location) (st : State) (i : Z) (e : option Z) :
  Relocated.processedRange env loc = Some (Some i, e) ->
  Relocated.NoProgressWithoutChapters (chapters st) ->
  let st' := fst (Relocated.relocated env loc st) in
  (forall before ch after,
      chapterLocationsRef (chapters st) = before ++ ch :: after ->
      (forall c, In c before -> ~ Relocated.Contains c i) ->
      Relocated.Contains ch i ->
      currentChapterName (chapters st') = label ch /\
      pagesLeftInChapter (chapters st') = Some (endLocationIndex ch - i) /\
      (i = endLocationIndex ch -> pagesLeftInChapter (chapters st') = Some 0)) /\
  ((forall c, In c (chapterLocationsRef (chapters st)) -> ~ Relocated.Contains c i) ->
   pagesLeftInChapter (chapters st') = None /\
   currentChapterName (chapters st') = "").
Proof.
  intros Hp Hinv.
  destruct (relocated_run env loc st _ _ Hp)
    as (_ & st' & log & Hr & _ & _ & _ & _ & _ & _ & _ & _ & Hch & _).
  rewrite Hr. cbn [fst]. split.
  - intros before ch after Hl Hbefore Hin.
    rewrite Hch, Hl.
    rewrite (findChapter_first i before ch after Hbefore Hin).
    destruct before; cbn [app chapterLocationsRef pagesLeftInChapter currentChapterName];
      rewrite (shownPagesLeft_inside ch i Hin);
      (repeat split; auto; intros ->; f_equal; lia).
  - intros Hnone. rewrite Hch.
    rewrite (findChapter_none i _ Hnone).
    destruct (chapterLocationsRef (chapters st)) eqn:El.
    + apply Hinv. exact El.
    + split; reflexivity.
Qed.

Lemma chapter_lookup_and_progress_witness :
  let st' := fst (Relocated.relocated Samples.book100 (Samples.rangeEvent 49 49)
                    Samples.twoChapters) in
  currentChapterName (chapters st') = "Ch1" /\
  pagesLeftInChapter (chapters st') = Some 0.
Proof.
  destruct (chapter_lookup_and_progress Samples.book100 (Samples.rangeEvent 49 49)
              Samples.twoChapters 49 (Some 49) eq_refl
              (fun _ => conj eq_refl eq_refl)) as [Hfound _].
  destruct (Hfound [] Samples.ch1 [Samples.ch2] eq_refl) as (Hname & Hleft & _).
  - intros c [].
  - unfold Relocated.Contains. simpl. lia.
  - split; [exact Hname | exact Hleft].
Defined.

(** The chapter boundary of the two-chapter book: index 50 is the first
    of the second chapter, 49 pages before its end. *)
Example progress_at_second_chapter :
  chapters (fst (Relocated.relocated Samples.book100 (Samples.rangeEvent 50 52)
                   Samples.twoChapters))
  = {| chapterLocationsRef := [Samples.ch1; Samples.ch2];
       pagesLeftInChapter := Some 49;
       currentChapterName := "Ch2" |}.
Proof. reflexivity. Qed.

(** An index before the first range of the table: front matter. *)
Example progress_in_front_matter :
  let st := withChapters {| chapterLocationsRef := [Samples.ch2];
                            pagesLeftInChapter := Some 7;
                            currentChapterName := "Ch2" |} (initialState None) in
  chapters (fst (Relocated.relocated Samples.book100 (Samples.rangeEvent 3 4) st))
  = {| chapterLocationsRef := [Samples.ch2];
       pagesLeftInChapter := None;
       currentChapterName := "" |}.
Proof. reflexivity. Qed.

(** C10. A number published as pages left is never negative: an event
    that publishes chapter progress leaves a number that is at least 0 in
    [pagesLeftInChapter]; an event keeps the numbers non-negative if they
    were; and the published value is 0 for an index past the range's end. *)
Theorem pages_left_never_negative
    (env : Env) (loc : option Location) (st : State) :
  let st' := fst (Relocated.relocated env loc st) in
  let log := snd (Relocated.relocated env loc st) in
  (logged CHAPTER_PROGRESS log = true ->
   exists n, pagesLeftInChapter (chapters st') = Some n /\ 0 <= n) /\
  ((forall n, pagesLeftInChapter (chapters st) = Some n -> 0 <= n) ->
   forall n, pagesLeftInChapter (chapters st') = Some n -> 0 <= n) /\
  (forall ch i,
      0 <= Relocated.shownPagesLeft ch i /\
      (endLocationIndex ch < i -> Relocated.shownPagesLeft ch i = 0)).
Proof.
  cbv zeta.
  assert (Hclamp : forall ch i,
             0 <= Relocated.shownPagesLeft ch i /\
             (endLocationIndex ch < i -> Relocated.shownPagesLeft ch i = 0)).
  { intros ch i. unfold Relocated.shownPagesLeft. cbv zeta. lia. }
  split; [|split; [|exact Hclamp]].
  - intros Hlogged.
    destruct (relocated_chapters_cases env loc st)
      as [[_ Hlog] | [(i & ch & _ & Heq & _) | (_ & _ & Hlog)]];
      try (rewrite Hlog in Hlogged; discriminate).
    rewrite Heq. eexists; split; [reflexivity | apply Hclamp].
  - intros Hbefore n.
    destruct (relocated_chapters_cases env loc st)
      as [[Heq _] | [(i & ch & _ & Heq & _) | (_ & Heq & _)]];
      rewrite Heq; cbn [pagesLeftInChapter].
    + apply Hbefore.
    + intros Hn. inversion Hn. apply Hclamp.
    + discriminate.
Qed.

Lemma pages_left_never_negative_witness :
  exists n,
    pagesLeftInChapter
      (chapters (fst (Relocated.relocated Samples.book100 (Samples.rangeEvent 50 52)
                        Samples.twoChapters))) = Some n /\ 0 <= n.
Proof.
  destruct (pages_left_never_negative Samples.book100 (Samples.rangeEvent 50 52)
              Samples.twoChapters) as [Hset _].
  apply Hset. reflexivity.
Defined.

(** ** Exceptions in the relocated handler *)

Lemma completes_processed env loc st :
  Relocated.completes env loc st = false -> Relocated.processedRange env loc = None.
Proof.
  intros Hc. destruct (Relocated.processedRange env loc) as [[s e]|] eqn:Hp; auto.
  destruct (relocated_run env loc st s e Hp) as [Habs _]. congruence.
Qed.

(** C9, as the code has it. When the body of the handler throws, the
    exception is caught in the handler, [RELOCATED_EVENT_ERROR] is logged
    and the handler returns normally; the page state, section state,
    viewport range, relocated refs, chapter progress and navigation refs
    keep their values. There is no rollback: [currentLocation] keeps its
    value only when the throw is the read of [loc.start.cfi], and otherwise
    already holds the event's CFI. *)
Theorem relocation_exception_contained
    (env : Env) (loc : option Location) (st : State) :
  Relocated.completes env loc st = false ->
  let st' := fst (Relocated.relocated env loc st) in
  let log := snd (Relocated.relocated env loc st) in
  fst (fst (Relocated.relocatedHandler env loc st)) = Ok tt /\
  logged RELOCATED_EVENT_ERROR log = true /\
  logged RELOCATED_EVENT_COMPLETE log = false /\
  coalescer st' = coalescer st /\
  section st' = section st /\
  viewport st' = viewport st /\
  relocatedRefs st' = relocatedRefs st /\
  chapters st' = chapters st /\
  nav st' = nav st /\
  renditionRef st' = renditionRef st /\
  currentLocation st' =
    match loc with
    | Some {| loc_start := Some b |} => b_cfi b
    | _ => currentLocation st
    end.
Proof.
  intros Hc. cbv zeta.
  split; [apply relocatedHandler_returns|].
  destruct (relocated_untracked env loc st (completes_processed env loc st Hc))
    as (st' & log & Hr & Hst & _ & _ & Herr & Hcomp).
  rewrite Hr. cbn [fst snd]. rewrite Herr, Hcomp, Hc, Hst.
  destruct loc as [[[b|] end_]|]; repeat split; reflexivity.
Qed.

Lemma relocation_exception_contained_witness :
  logged RELOCATED_EVENT_ERROR
    (snd (Relocated.relocated Samples.throwingLookup Samples.cfiEvent
            (Samples.viewing 3 5))) = true /\
  viewport (fst (Relocated.relocated Samples.throwingLookup Samples.cfiEvent
                   (Samples.viewing 3 5))) = viewport (Samples.viewing 3 5).
Proof.
  destruct (relocation_exception_contained Samples.throwingLookup Samples.cfiEvent
              (Samples.viewing 3 5) eq_refl)
    as (_ & Herr & _ & _ & _ & Hview & _).
  split; [exact Herr | exact Hview].
Defined.

(** C9 as written fails: when the location lookup throws, the handler has
    already stored the event's CFI as the current location, so the state
    after the event is not the state before it. *)
Lemma relocation_rollback_counterexample :
  let st := initialState None in
  let st' := fst (Relocated.relocated Samples.throwingLookup Samples.cfiEvent st) in
  Relocated.completes Samples.throwingLookup Samples.cfiEvent st = false /\
  currentLocation st = Some "" /\
  currentLocation st' = Some "epubcfi(/6/4!/4/2/1:0)" /\
  st' <> st.
Proof.
  cbv zeta. repeat split; try reflexivity.
  intros H. apply (f_equal currentLocation) in H. discriminate H.
Qed.

(** ** Coalescing of page updates *)

(** C4. Page numbers submitted with [updatePageNonBlocking] before the next
    animation frame do not touch [currentPage]; they leave one callback
    registered, and the frame makes exactly one [setCurrentPage] call, with
    the last submitted page. A relocation event meanwhile writes the
    viewport refs, the relocated range and the chapter progress at once,
    and only queues its page number: this is stated for every event that
    submits a page, that is, every processed event with a start index that
    is not negative. *)
Theorem page_updates_coalesce :
  (forall (c : PageCoalescer) (p : Z) (ps : list Z),
      Coalescer.wellFormed c ->
      let c' := Coalescer.submitAll (p :: ps) c in
      currentPage c' = currentPage c /\
      rafQueue c' = 1%nat /\
      snd (Coalescer.animationFrame c') = [last ps p] /\
      currentPage (fst (Coalescer.animationFrame c')) = last ps p /\
      pendingPageRef (fst (Coalescer.animationFrame c')) = None /\
      Coalescer.wellFormed (fst (Coalescer.animationFrame c'))) /\
  (forall (env : Env) (loc : option Location) (st : State) (s : Z) (e : option Z),
      Relocated.processedRange env loc = Some (Some s, e) ->
      0 <= s ->
      let st' := fst (Relocated.relocated env loc st) in
      currentStartLocationRef (viewport st') = Some s /\
      currentLocationIndexRef (viewport st') = s /\
      (forall n, e = Some n -> 0 <= n -> currentEndLocationRef (viewport st') = Some n) /\
      lastRelocatedStartRef (relocatedRefs st') = Some s /\
      lastRelocatedEndRef (relocatedRefs st') = e /\
      (forall ch,
          Relocated.findChapter s (chapterLocationsRef (chapters st)) = Some ch ->
          pagesLeftInChapter (chapters st') = Some (Relocated.shownPagesLeft ch s) /\
          currentChapterName (chapters st') = label ch) /\
      (chapterLocationsRef (chapters st) <> [] ->
       Relocated.findChapter s (chapterLocationsRef (chapters st)) = None ->
       pagesLeftInChapter (chapters st') = None /\
       currentChapterName (chapters st') = "") /\
      currentPage (coalescer st') = currentPage (coalescer st) /\
      pendingPageRef (coalescer st') = Some (s + 1)).
Proof.
  split.
  - intros c p ps Hwf.
    destruct (submitAll_pending p ps c Hwf) as (Hq & Hpend & Hcur).
    cbv zeta. unfold Coalescer.animationFrame.
    rewrite Hq. cbn [Coalescer.runCallbacks]. unfold Coalescer.pageCallback.
    cbn [pendingPageRef]. rewrite Hpend. cbn.
    split; [exact Hcur|]. do 4 (split; [reflexivity|]). split; reflexivity.
  - intros env loc st s e Hp Hs.
    destruct (relocated_run env loc st (Some s) e Hp)
      as (_ & st' & log & Hr & _ & _ & _ & Hls & Hle & Hv & Hco & _ & Hch & _).
    cbv zeta. rewrite Hr. cbn [fst].
    assert (Hns : Relocated.nonNegative (Some s) = Some s).
    { unfold Relocated.nonNegative. apply Z.leb_le in Hs. rewrite Hs. reflexivity. }
    rewrite Hv, Hco, Hls, Hle, Hch. unfold Relocated.syncViewport.
    rewrite Hns.
    cbn [currentStartLocationRef currentEndLocationRef currentLocationIndexRef].
    split; [reflexivity|]. split; [reflexivity|].
    split; [|split; [reflexivity|]; split; [reflexivity|]; split; [|split; [|split]]].
    + intros n -> Hn. unfold Relocated.nonNegative.
      apply Z.leb_le in Hn. rewrite Hn. reflexivity.
    + intros ch Hf. rewrite Hf.
      destruct (chapterLocationsRef (chapters st)); [discriminate Hf|].
      split; reflexivity.
    + intros Hnil Hf. rewrite Hf.
      destruct (chapterLocationsRef (chapters st)); [congruence|].
      split; reflexivity.
    + reflexivity.
    + cbn. f_equal. lia.
Qed.

Lemma page_updates_coalesce_witness :
  let c' := Coalescer.submitAll [5; 6; 7] (coalescer (initialState None)) in
  let st' := fst (Relocated.relocated Samples.book100 (Samples.rangeEvent 55 58)
                    (initialState None)) in
  currentPage c' = 1 /\
  snd (Coalescer.animationFrame c') = [7] /\
  currentPage (fst (Coalescer.animationFrame c')) = 7 /\
  currentStartLocationRef (viewport st') = Some 55 /\
  currentPage (coalescer st') = 1 /\
  pendingPageRef (coalescer st') = Some 56.
Proof.
  destruct page_updates_coalesce as [Hsubmit Hevent].
  destruct (Hsubmit (coalescer (initialState None)) 5 [6; 7]
              (conj eq_refl (fun _ => eq_refl)))
    as (Hcur & _ & Hcalls & Hpage & _).
  destruct (Hevent Samples.book100 (Samples.rangeEvent 55 58) (initialState None)
              55 (Some 58) eq_refl ltac:(lia))
    as (Hstart & _ & _ & _ & _ & _ & _ & Hsame & Hpending).
  cbv zeta. split; [exact Hcur|]. split; [exact Hcalls|]. split; [exact Hpage|].
  split; [exact Hstart|]. split; [exact Hsame | exact Hpending].
Defined.

(** ** The next-page button *)

Lemma advanceTimes_in_section n :
  forall st,
    Transform.viewPresent st = true ->
    sectionPageRef (section st) + Z.of_nat n <= sectionTotalPagesRef (section st) ->
    let st' := Transform.advanceTimes n st in
    sectionPageRef (section st') = sectionPageRef (section st) + Z.of_nat n /\
    sectionTotalPagesRef (section st') = sectionTotalPagesRef (section st) /\
    sectionStartGlobalPageRef (section st') = sectionStartGlobalPageRef (section st) /\
    Transform.viewPresent st' = true /\
    (n <> O ->
     pendingPageRef (coalescer st') =
       Some (sectionStartGlobalPageRef (section st) + (sectionPageRef (section st') - 1))).
Proof.
  induction n as [|n IH]; intros st Hv Hle.
  - cbn [Transform.advanceTimes]. rewrite Z.add_0_r. repeat split; auto.
    intros H; contradiction H; reflexivity.
  - cbn [Transform.advanceTimes].
    destruct (goToNextPage_in_section st Hv ltac:(lia))
      as (_ & Hp & Ht & Hs & _ & Hpend & _ & _ & Hv').
    set (st1 := fst (Transform.goToNextPage st)) in *.
    destruct (IH st1 Hv' ltac:(lia)) as (IHp & IHt & IHs & IHv & IHpend).
    cbv zeta.
    split; [rewrite IHp, Hp; lia|].
    split; [rewrite IHt, Ht; reflexivity|].
    split; [rewrite IHs, Hs; reflexivity|].
    split; [exact IHv|].
    intros _. destruct n as [|n].
    + cbn [Transform.advanceTimes]. exact Hpend.
    + rewrite IHpend by discriminate. rewrite Hs. reflexivity.
Qed.

Lemma nextSectionResolved_page st :
  sectionPageRef (section (Transform.nextSectionResolved st)) = 1.
Proof.
  unfold Transform.nextSectionResolved, Transform.applyPageTransform.
  cbn [renditionRef withSection].
  destruct (renditionRef st) as [[[[views cw]|]]|]; try reflexivity.
  cbn [r_manager m_views].
  destruct views as [|[doc|] others]; try reflexivity.
  destruct (d_body doc); reflexivity.
Qed.

(** C5, as the code has it. With the rendered view in place (rendition,
    manager, a first view whose document has a body and a root element), a
    call with [sectionPage < sectionTotalPages] adds exactly 1 to
    [sectionPage], moves the view to [(sectionPage - 1) * width] for the
    new page and submits [sectionStartGlobalPage + (sectionPage - 1)], so
    [n] calls inside the section raise the submitted page by 1 each. With
    a rendition in place and [sectionPage = sectionTotalPages], the call
    changes nothing and hands over to [rendition.next()], whose completion
    sets [sectionPage] to 1. *)
Theorem advance_in_section_and_across :
  (forall st : State,
      Transform.viewPresent st = true ->
      sectionPageRef (section st) < sectionTotalPagesRef (section st) ->
      let st' := fst (Transform.goToNextPage st) in
      snd (Transform.goToNextPage st) = None /\
      sectionPageRef (section st') = sectionPageRef (section st) + 1 /\
      Transform.appliedOffset st' =
        Some ((sectionPageRef (section st') - 1) * Transform.widthOf st) /\
      pendingPageRef (coalescer st') =
        Some (sectionStartGlobalPageRef (section st) + (sectionPageRef (section st') - 1))) /\
  (forall (st : State) (n : nat),
      Transform.viewPresent st = true ->
      sectionPageRef (section st) + Z.of_nat n <= sectionTotalPagesRef (section st) ->
      n <> O ->
      let st' := Transform.advanceTimes n st in
      sectionPageRef (section st') = sectionPageRef (section st) + Z.of_nat n /\
      pendingPageRef (coalescer st') =
        Some (sectionStartGlobalPageRef (section st)
              + (sectionPageRef (section st) - 1) + Z.of_nat n)) /\
  (forall (st : State) (rendition : Rendition),
      renditionRef st = Some rendition ->
      sectionPageRef (section st) = sectionTotalPagesRef (section st) ->
      Transform.goToNextPage st = (st, Some Transform.RenditionNext) /\
      sectionPageRef (section (Transform.nextSectionResolved st)) = 1).
Proof.
  split; [|split].
  - intros st Hv Hlt.
    destruct (goToNextPage_in_section st Hv Hlt)
      as (Hnone & Hp & _ & _ & Hoff & Hpend & _).
    cbv zeta. rewrite Hp in *. repeat split; auto.
    rewrite Hoff. f_equal. ring.
  - intros st n Hv Hle Hn.
    destruct (advanceTimes_in_section n st Hv Hle) as (Hp & _ & _ & _ & Hpend).
    cbv zeta. split; [exact Hp|].
    rewrite (Hpend Hn), Hp. f_equal. ring.
  - intros st rendition Hr Heq. split; [|apply nextSectionResolved_page].
    unfold Transform.goToNextPage. rewrite Hr, Heq, Z.ltb_irrefl. reflexivity.
Qed.

Lemma advance_in_section_and_across_witness :
  let st := Samples.inSection (Some Samples.oneView) 3 11 in
  sectionPageRef (section (Transform.advanceTimes 2 st)) = 3 /\
  pendingPageRef (coalescer (Transform.advanceTimes 2 st)) = Some 13 /\
  snd (Transform.goToNextPage (Transform.advanceTimes 2 st)) = Some Transform.RenditionNext.
Proof.
  destruct advance_in_section_and_across as (_ & Hmany & Hcross).
  destruct (Hmany (Samples.inSection (Some Samples.oneView) 3 11) 2%nat eq_refl)
    as [Hp Hpend]; [simpl; lia | discriminate |].
  destruct (Hcross (Transform.advanceTimes 2 (Samples.inSection (Some Samples.oneView) 3 11))
              {| r_manager :=
                   Some {| m_views := [Some {| d_body := true; d_transform := Some 800 |}];
                           m_clientWidth := Some 400 |} |}
              eq_refl eq_refl) as [Hgo _].
  cbv zeta. split; [exact Hp|]. split; [exact Hpend|].
  rewrite Hgo. reflexivity.
Defined.

(** C5 as written fails without the rendered view. With no view in the
    manager a call on page 1 of 3 leaves [sectionPage] at 1, and two calls
    submit the same page; with no rendition (the file is still loading) a
    call on the last page of the section starts no renderer command. *)
Lemma advance_without_view_counterexample :
  let st := Samples.inSection (Some Samples.noViews) 3 11 in
  sectionPageRef (section st) < sectionTotalPagesRef (section st) /\
  sectionPageRef (section (fst (Transform.goToNextPage st))) = 1 /\
  pendingPageRef (coalescer (Transform.advanceTimes 1 st)) = Some 12 /\
  pendingPageRef (coalescer (Transform.advanceTimes 2 st)) = Some 12 /\
  sectionPageRef (section (initialState None))
    = sectionTotalPagesRef (section (initialState None)) /\
  Transform.goToNextPage (initialState None) = (initialState None, None).
Proof. cbv zeta. repeat split; reflexivity. Qed.

(** ** The tap handler *)

(** What decides a tap: it starts a navigation exactly when it is a
    navigation request, the chat is closed, at least 200 ms have passed
    since the last accepted tap and no navigation is in progress. *)
Lemma clickHandler_accepts e st :
  Tap.accepted (snd (Tap.clickHandler e st)) = true <->
  Tap.navigationRequest e = true /\
  isChatOpenRef (nav st) = false /\
  200 <= Tap.now e - lastNavigationTimeRef (nav st) /\
  isNavigatingRef (nav st) = false.
Proof.
  unfold Tap.clickHandler, Tap.navigationRequest.
  destruct (Tap.onLink e), (isChatOpenRef (nav st)), (Tap.hasSelection e);
    cbn; try (split; [discriminate | intros (H1 & H2 & _); discriminate]).
  destruct (Tap.now e - lastNavigationTimeRef (nav st) <? 200) eqn:Et.
  - apply Z.ltb_lt in Et. cbn. split; [discriminate | intros (_ & _ & H & _); lia].
  - apply Z.ltb_ge in Et.
    destruct (isNavigatingRef (nav st)), (Tap.centerTap e); cbn;
      try (split; [discriminate | intros (H1 & _ & _ & H2); discriminate]).
    split; auto.
Qed.

(** Only an accepted tap writes [lastNavigationTimeRef]. *)
Lemma clickHandler_window e st :
  lastNavigationTimeRef (nav (fst (Tap.clickHandler e st))) =
    if Tap.accepted (snd (Tap.clickHandler e st)) then Tap.now e
    else lastNavigationTimeRef (nav st).
Proof.
  unfold Tap.clickHandler.
  destruct (Tap.onLink e), (isChatOpenRef (nav st)), (Tap.hasSelection e),
    (Tap.now e - lastNavigationTimeRef (nav st) <? 200),
    (isNavigatingRef (nav st)), (Tap.centerTap e); reflexivity.
Qed.

(** C6, as the code has it. Of two taps less than 200 ms apart at most one
    is accepted: when the first is accepted the second is dropped, whatever
    happens in between that leaves [lastNavigationTimeRef] alone. A tap is
    accepted exactly when it is a navigation request, the chat is closed, at
    least 200 ms have passed since the last accepted tap and no navigation
    is in progress; and only an accepted tap moves the window. *)
Theorem debounce_window
    (st between : State) (e1 e2 : Tap.Click) :
  let r1 := Tap.clickHandler e1 st in
  let r2 := Tap.clickHandler e2 between in
  lastNavigationTimeRef (nav between) = lastNavigationTimeRef (nav (fst r1)) ->
  Tap.now e2 - Tap.now e1 < 200 ->
  (Tap.accepted (snd r1) = true -> Tap.accepted (snd r2) = false) /\
  (Tap.accepted (snd r1) = true <->
   Tap.navigationRequest e1 = true /\
   isChatOpenRef (nav st) = false /\
   200 <= Tap.now e1 - lastNavigationTimeRef (nav st) /\
   isNavigatingRef (nav st) = false) /\
  lastNavigationTimeRef (nav (fst r1)) =
    (if Tap.accepted (snd r1) then Tap.now e1 else lastNavigationTimeRef (nav st)) /\
  lastNavigationTimeRef (nav (fst r2)) =
    (if Tap.accepted (snd r2) then Tap.now e2 else lastNavigationTimeRef (nav between)).
Proof.
  cbv zeta. intros Hbetween Hclose.
  split; [|split; [apply clickHandler_accepts|split; apply clickHandler_window]].
  intros Hacc.
  destruct (Tap.accepted (snd (Tap.clickHandler e2 between))) eqn:H2; auto.
  apply clickHandler_accepts in H2. destruct H2 as (_ & _ & Hwin & _).
  rewrite Hbetween, clickHandler_window, Hacc in Hwin. lia.
Qed.

Lemma debounce_window_witness :
  Tap.accepted (snd (Tap.clickHandler (Samples.rightTap 1000) (Samples.lastTapAt 0))) = true /\
  Tap.accepted
    (snd (Tap.clickHandler (Samples.rightTap 1100)
            (Tap.navigationSettled
               (fst (Tap.clickHandler (Samples.rightTap 1000) (Samples.lastTapAt 0))))))
  = false.
Proof.
  split; [reflexivity|].
  destruct (debounce_window (Samples.lastTapAt 0)
              (Tap.navigationSettled
                 (fst (Tap.clickHandler (Samples.rightTap 1000) (Samples.lastTapAt 0))))
              (Samples.rightTap 1000) (Samples.rightTap 1100) eq_refl)
    as [Hdrop _]; [simpl; lia|].
  apply Hdrop. reflexivity.
Defined.

(** C6 as written fails: after a tap accepted at 1000, two navigation
    requests at 1100 and 1250 are 150 ms apart, the first of them is
    dropped and the second is accepted; and two requests at 1050 and 1150
    are both dropped. *)
Lemma debounce_second_accepted_counterexample :
  let e1 := Samples.rightTap 1100 in
  let e2 := Samples.rightTap 1250 in
  let e3 := Samples.rightTap 1050 in
  let e4 := Samples.rightTap 1150 in
  let st := Samples.lastTapAt 1000 in
  Tap.navigationRequest e1 = true /\
  Tap.navigationRequest e2 = true /\
  Tap.now e2 - Tap.now e1 < 200 /\
  snd (Tap.clickHandler e1 st) = Tap.BlockedDebounce /\
  snd (Tap.clickHandler e2 (fst (Tap.clickHandler e1 st))) = Tap.Navigating Tap.NEXT /\
  Tap.now e4 - Tap.now e3 < 200 /\
  snd (Tap.clickHandler e3 st) = Tap.BlockedDebounce /\
  snd (Tap.clickHandler e4 (fst (Tap.clickHandler e3 st))) = Tap.BlockedDebounce.
Proof. cbv zeta. repeat split; try reflexivity. Qed.

(** ** The chapter location index *)

Section ChapterIndexFacts.

Variable total : Z.
Variable spineGet : string -> option string.
Variable locationFromCfi : string -> Result JsVal.

Lemma buildLoop_cons item rest cs :
  ChapterIndex.buildLoop total spineGet locationFromCfi (item :: rest) = Ok cs ->
  exists pushed tl,
    ChapterIndex.chapterOf total spineGet locationFromCfi item (hd_error rest) = Ok pushed /\
    ChapterIndex.buildLoop total spineGet locationFromCfi rest = Ok tl /\
    cs = match pushed with Some c => c :: tl | None => tl end.
Proof.
  cbn [ChapterIndex.buildLoop].
  destruct (ChapterIndex.chapterOf _ _ _ item (hd_error rest)) as [pushed|]; [|discriminate].
  destruct (ChapterIndex.buildLoop _ _ _ rest) as [tl|]; [|discriminate].
  intros H. inversion H. eauto.
Qed.

(** A turn pushes an entry exactly when the spine has the item. *)
Lemma chapterOf_pushes item next pushed :
  ChapterIndex.chapterOf total spineGet locationFromCfi item next = Ok pushed ->
  match spineGet (ChapterIndex.itemHref item), pushed with
  | Some _, Some _ | None, None => True
  | _, _ => False
  end.
Proof.
  unfold ChapterIndex.chapterOf.
  destruct (spineGet (ChapterIndex.itemHref item)) as [cfi|].
  - destruct (locationFromCfi cfi); [|discriminate].
    destruct (ChapterIndex.endLocOf _ _ _ _ _); [|discriminate].
    intros H. inversion H. exact I.
  - intros H. inversion H. exact I.
Qed.

(** The entry pushed for an item sits at the position given by the number
    of entries pushed before it. *)
Lemma buildLoop_nth item rest c :
  ChapterIndex.chapterOf total spineGet locationFromCfi item (hd_error rest) = Ok (Some c) ->
  forall before cs,
    ChapterIndex.buildLoop total spineGet locationFromCfi (before ++ item :: rest) = Ok cs ->
    nth_error cs (ChapterIndex.pushedBefore spineGet before) = Some c.
Proof.
  intros Hc. induction before as [|b before IH]; intros cs Hb.
  - apply buildLoop_cons in Hb. destruct Hb as (pushed & tl & Hp & _ & ->).
    rewrite Hc in Hp. inversion Hp. reflexivity.
  - cbn [app] in Hb. apply buildLoop_cons in Hb.
    destruct Hb as (pushed & tl & Hp & Htl & ->).
    apply chapterOf_pushes in Hp.
    unfold ChapterIndex.pushedBefore. cbn [filter].
    unfold ChapterIndex.hasSpineItem at 1.
    destruct (spineGet (ChapterIndex.itemHref b)), pushed; try contradiction.
    + cbn [List.length nth_error]. apply IH. exact Htl.
    + apply IH. exact Htl.
Qed.

Lemma buildLoop_suffix before :
  forall rest cs,
    ChapterIndex.buildLoop total spineGet locationFromCfi (before ++ rest) = Ok cs ->
    exists cs', ChapterIndex.buildLoop total spineGet locationFromCfi rest = Ok cs'.
Proof.
  induction before as [|b before IH]; intros rest cs H; [eauto|].
  cbn [app] in H. apply buildLoop_cons in H.
  destruct H as (_ & tl & _ & Htl & _). eapply IH. exact Htl.
Qed.

(** The build returns exactly when no lookup throws. *)
Lemma buildLoop_returns flatToc :
  ChapterIndex.LookupsReturn spineGet locationFromCfi flatToc <->
  exists cs, ChapterIndex.buildLoop total spineGet locationFromCfi flatToc = Ok cs.
Proof.
  unfold ChapterIndex.LookupsReturn.
  induction flatToc as [|item rest IH].
  - split; [intros _; exists []; reflexivity | intros _ item cfi []].
  - split.
    + intros Hret.
      assert (Hrest : exists cs, ChapterIndex.buildLoop total spineGet locationFromCfi rest
                                 = Ok cs).
      { apply IH. intros i cfi Hin. apply Hret. right. exact Hin. }
      destruct Hrest as [tl Htl].
      cbn [ChapterIndex.buildLoop]. rewrite Htl.
      unfold ChapterIndex.chapterOf, ChapterIndex.endLocOf.
      destruct (spineGet (ChapterIndex.itemHref item)) as [cfi|] eqn:Es; [|eauto].
      destruct (locationFromCfi cfi) as [v|] eqn:Ev;
        [|exfalso; exact (Hret item cfi (or_introl eq_refl) Es Ev)].
      destruct rest as [|next rest']; cbn [hd_error]; [eauto|].
      destruct (spineGet (ChapterIndex.itemHref next)) as [ncfi|] eqn:En; [|eauto].
      destruct (locationFromCfi ncfi) as [[n| |]|] eqn:Enl; eauto.
      exfalso. exact (Hret next ncfi (or_intror (or_introl eq_refl)) En Enl).
    + intros [cs Hcs] i cfi Hin Hs Hthrow.
      change (ChapterIndex.buildLoop total spineGet locationFromCfi (item :: rest) = Ok cs) in Hcs.
      apply buildLoop_cons in Hcs. destruct Hcs as (pushed & tl & Hp & Htl & _).
      destruct Hin as [<- | Hin].
      * unfold ChapterIndex.chapterOf in Hp.
        rewrite Hs, Hthrow in Hp. discriminate.
      * exact (proj2 IH (ex_intro _ tl Htl) i cfi Hin Hs Hthrow).
Qed.

End ChapterIndexFacts.

(** C3. When no lookup throws the build returns a table, and for every
    entry of the flattened table of contents that has a spine item the
    table holds its range at the entry's position: the range starts at the
    index of the entry's CFI, ends at [total - 1] for the last entry, ends
    one before the next entry's index when that index is strictly greater
    than the start (and the next range then starts at that index), and
    falls back to [total - 1] as well when the next entry's index is not
    strictly greater; no error is raised in that case. *)
Theorem chapter_range_construction
    (total : Z) (spineGet : string -> option string)
    (locationFromCfi : string -> Result JsVal)
    (flatToc : list ChapterIndex.TocItem) :
  ChapterIndex.LookupsReturn spineGet locationFromCfi flatToc ->
  exists chapterLocs,
    ChapterIndex.buildLoop total spineGet locationFromCfi flatToc = Ok chapterLocs /\
    forall before item rest startCfi,
      flatToc = before ++ item :: rest ->
      spineGet (ChapterIndex.itemHref item) = Some startCfi ->
      exists c v,
        nth_error chapterLocs (ChapterIndex.pushedBefore spineGet before) = Some c /\
        locationFromCfi startCfi = Ok v /\
        href c = ChapterIndex.itemHref item /\
        label c = ChapterIndex.itemLabel item /\
        startLocationIndex c = orZero v /\
        (rest = [] -> endLocationIndex c = total - 1) /\
        (forall next rest' nextCfi nextLoc,
            rest = next :: rest' ->
            spineGet (ChapterIndex.itemHref next) = Some nextCfi ->
            locationFromCfi nextCfi = Ok (JNum nextLoc) ->
            (startLocationIndex c < nextLoc ->
             endLocationIndex c = nextLoc - 1 /\
             exists c',
               nth_error chapterLocs (S (ChapterIndex.pushedBefore spineGet before))
                 = Some c' /\
               href c' = ChapterIndex.itemHref next /\
               startLocationIndex c' = nextLoc) /\
            (nextLoc <= startLocationIndex c -> endLocationIndex c = total - 1)).
Proof.
  intros Hret.
  destruct (proj1 (buildLoop_returns total spineGet locationFromCfi flatToc) Hret)
    as [cs Hcs].
  exists cs. split; [exact Hcs|].
  intros before item rest startCfi -> Hs.
  destruct (buildLoop_suffix total spineGet locationFromCfi before (item :: rest) cs Hcs)
    as [cs' Hcs'].
  destruct (buildLoop_cons total spineGet locationFromCfi item rest cs' Hcs')
    as (pushed & tl & Hp & Htl & _).
  pose proof Hp as Hp'.
  unfold ChapterIndex.chapterOf in Hp'. rewrite Hs in Hp'.
  destruct (locationFromCfi startCfi) as [v|] eqn:Ev; [|discriminate].
  destruct (ChapterIndex.endLocOf total spineGet locationFromCfi (orZero v) (hd_error rest))
    as [endLoc|] eqn:Eend; [|discriminate].
  inversion Hp' as [Hpushed]. rewrite <- Hpushed in Hp.
  eexists; exists v.
  split; [exact (buildLoop_nth total spineGet locationFromCfi item rest _ Hp before cs Hcs)|].
  cbn [href label startLocationIndex endLocationIndex].
  repeat (split; [reflexivity|]).
  unfold ChapterIndex.endLocOf in Eend.
  split.
  - intros ->. cbn [hd_error] in Eend. inversion Eend. reflexivity.
  - intros next rest' nextCfi nextLoc -> Hn Hnl.
    cbn [hd_error] in Eend. rewrite Hn, Hnl in Eend.
    split.
    + intros Hlt. apply Z.ltb_lt in Hlt. rewrite Hlt in Eend.
      split; [inversion Eend; reflexivity|].
      destruct (buildLoop_cons total spineGet locationFromCfi next rest' tl Htl)
        as (pushed' & tl' & Hp2 & _ & _).
      pose proof Hp2 as Hp2'.
      unfold ChapterIndex.chapterOf in Hp2'. rewrite Hn, Hnl in Hp2'.
      destruct (ChapterIndex.endLocOf total spineGet locationFromCfi
                  (orZero (JNum nextLoc)) (hd_error rest')) as [e2|]; [|discriminate].
      inversion Hp2' as [Hpushed2]. rewrite <- Hpushed2 in Hp2.
      match type of Hp2 with _ = Ok (Some ?c2) => exists c2 end.
      split; [|split; reflexivity].
      replace (S (ChapterIndex.pushedBefore spineGet before))
        with (ChapterIndex.pushedBefore spineGet (before ++ [item])).
      * apply (buildLoop_nth total spineGet locationFromCfi next rest' _ Hp2).
        rewrite <- app_assoc. exact Hcs.
      * unfold ChapterIndex.pushedBefore.
        rewrite filter_app, length_app. cbn [filter].
        unfold ChapterIndex.hasSpineItem at 2. rewrite Hs.
        cbn [List.length]. lia.
    + intros Hge. apply Z.ltb_ge in Hge. rewrite Hge in Eend.
      inversion Eend. reflexivity.
Qed.

Lemma lookupOfThree_returns cfi : Samples.lookupOfThree cfi <> Throw.
Proof.
  unfold Samples.lookupOfThree.
  destruct (String.eqb cfi "/6/2[ch1]"), (String.eqb cfi "/6/4[ch2]"),
    (String.eqb cfi "/6/6[ch3]"); discriminate.
Qed.

Lemma chapter_range_construction_witness :
  ChapterIndex.buildLoop 100 Samples.spineOfThree Samples.lookupOfThree
    Samples.threeEntries
  = Ok [ {| href := "ch1.xhtml"; label := "Ch1";
            startLocationIndex := 0; endLocationIndex := 49 |};
         {| href := "ch2.xhtml"; label := "Ch2";
            startLocationIndex := 50; endLocationIndex := 79 |};
         {| href := "ch3.xhtml"; label := "Ch3";
            startLocationIndex := 80; endLocationIndex := 99 |} ] /\
  exists c,
    nth_error
      [ {| href := "ch1.xhtml"; label := "Ch1";
           startLocationIndex := 0; endLocationIndex := 49 |};
        {| href := "ch2.xhtml"; label := "Ch2";
           startLocationIndex := 50; endLocationIndex := 79 |};
        {| href := "ch3.xhtml"; label := "Ch3";
           startLocationIndex := 80; endLocationIndex := 99 |} ] 1 = Some c /\
    endLocationIndex c = 80 - 1.
Proof.
  split; [reflexivity|].
  destruct (chapter_range_construction 100 Samples.spineOfThree Samples.lookupOfThree
              Samples.threeEntries
              (fun item cfi _ _ => lookupOfThree_returns cfi))
    as (cs & Hcs & Hranges).
  vm_compute in Hcs. inversion Hcs as [Hcs']. clear Hcs.
  destruct (Hranges [ChapterIndex.tocItem "ch1.xhtml" "Ch1" []]
              (ChapterIndex.tocItem "ch2.xhtml" "Ch2" [])
              [ChapterIndex.tocItem "ch3.xhtml" "Ch3" []]
              "/6/4[ch2]" eq_refl eq_refl)
    as (c & v & Hnth & Hv & _ & _ & Hstart & _ & Hnext).
  exists c. rewrite Hcs'. split; [exact Hnth|].
  vm_compute in Hv. inversion Hv as [Hv']. rewrite <- Hv' in Hstart.
  destruct (Hnext (ChapterIndex.tocItem "ch3.xhtml" "Ch3" []) [] "/6/6[ch3]" 80
              eq_refl eq_refl eq_refl) as [Hgreater _].
  apply Hgreater. rewrite Hstart. simpl. lia.
Defined.

(** When the second entry resolves before the first, the first range
    runs to the end of the book. *)
Example ranges_out_of_order :
  ChapterIndex.buildLoop 100 Samples.spineOfThree Samples.lookupOutOfOrder
    Samples.threeEntries
  = Ok [ {| href := "ch1.xhtml"; label := "Ch1";
            startLocationIndex := 30; endLocationIndex := 99 |};
         {| href := "ch2.xhtml"; label := "Ch2";
            startLocationIndex := 10; endLocationIndex := 79 |};
         {| href := "ch3.xhtml"; label := "Ch3";
            startLocationIndex := 80; endLocationIndex := 99 |} ].
Proof. reflexivity. Qed.

(** Nested entries come out in document order. *)
Example flattenToc_nested :
  map ChapterIndex.itemLabel
    (ChapterIndex.flattenToc
       [ChapterIndex.tocItem "p1.xhtml" "Part 1"
          [ChapterIndex.tocItem "c1.xhtml" "One" [];
           ChapterIndex.tocItem "c2.xhtml" "Two" []];
        ChapterIndex.tocItem "p2.xhtml" "Part 2" []])
  = ["Part 1"; "One"; "Two"; "Part 2"].
Proof. reflexivity. Qed.

(** ** Failure of the chapter build *)

Lemma chapterOf_href total spineGet locationFromCfi item next c :
  ChapterIndex.chapterOf total spineGet locationFromCfi item next = Ok (Some c) ->
  href c = ChapterIndex.itemHref item /\ label c = ChapterIndex.itemLabel item.
Proof.
  unfold ChapterIndex.chapterOf.
  destruct (spineGet (ChapterIndex.itemHref item)); [|discriminate].
  destruct (locationFromCfi s); [|discriminate].
  destruct (ChapterIndex.endLocOf _ _ _ _ _); [|discriminate].
  intros H. inversion H. split; reflexivity.
Qed.

(** The table has one entry for each item with a spine item, in order. *)
Lemma buildLoop_hrefs total spineGet locationFromCfi flatToc :
  forall cs,
    ChapterIndex.buildLoop total spineGet locationFromCfi flatToc = Ok cs ->
    map href cs =
      map ChapterIndex.itemHref (filter (ChapterIndex.hasSpineItem spineGet) flatToc).
Proof.
  induction flatToc as [|item rest IH]; intros cs H.
  - inversion H. reflexivity.
  - apply buildLoop_cons in H. destruct H as (pushed & tl & Hp & Htl & ->).
    pose proof (chapterOf_pushes _ _ _ _ _ _ Hp) as Hpush.
    cbn [filter]. unfold ChapterIndex.hasSpineItem at 1.
    destruct (spineGet (ChapterIndex.itemHref item)), pushed; try contradiction.
    + cbn [map]. apply chapterOf_href in Hp. destruct Hp as [-> _].
      f_equal. apply IH. exact Htl.
    + apply IH. exact Htl.
Qed.

(** C8, as the code has it. The [try] is around the whole build. When the
    lookup throws for any entry that has a spine item, the build is given
    up: the error is logged and the state, with its chapter table, stays as
    it was, so no range of this build is available. When no lookup throws,
    the new table has one range for each entry with a spine item, in
    order; an entry without a spine item is left out without a log. *)
Theorem chapter_build_failure
    (total : Z) (spineGet : string -> option string)
    (locationFromCfi : string -> Result JsVal)
    (toc : list ChapterIndex.TocItem) (st : State) :
  let flatToc := ChapterIndex.flattenToc toc in
  let result := ChapterIndex.buildChapterLocations total spineGet locationFromCfi toc st in
  ((exists item cfi,
       In item flatToc /\ spineGet (ChapterIndex.itemHref item) = Some cfi /\
       locationFromCfi cfi = Throw) ->
   result = (st, [CHAPTERS_ERROR_BUILDING])) /\
  (ChapterIndex.LookupsReturn spineGet locationFromCfi flatToc ->
   snd result = [CHAPTER_LOCATIONS_BUILT] /\
   map href (chapterLocationsRef (chapters (fst result))) =
     map ChapterIndex.itemHref
         (filter (ChapterIndex.hasSpineItem spineGet) flatToc)).
Proof.
  cbv zeta. unfold ChapterIndex.buildChapterLocations. split.
  - intros (item & cfi & Hin & Hs & Hthrow).
    destruct (ChapterIndex.buildLoop total spineGet locationFromCfi
                (ChapterIndex.flattenToc toc)) as [cs|] eqn:Hb; [|reflexivity].
    exfalso.
    exact (proj2 (buildLoop_returns total spineGet locationFromCfi _)
             (ex_intro _ cs Hb) item cfi Hin Hs Hthrow).
  - intros Hret.
    destruct (proj1 (buildLoop_returns total spineGet locationFromCfi _) Hret) as [cs Hb].
    rewrite Hb. cbn [fst snd chapters withChapters chapterLocationsRef].
    split; [reflexivity|].
    apply (buildLoop_hrefs total spineGet locationFromCfi _ cs Hb).
Qed.

Lemma chapter_build_failure_witness :
  map href
    (chapterLocationsRef
       (chapters (fst (ChapterIndex.buildChapterLocations 100 Samples.spineWithoutSecond
                         Samples.lookupOfThree Samples.threeEntries (initialState None)))))
  = ["ch1.xhtml"; "ch3.xhtml"] /\
  ChapterIndex.buildChapterLocations 100 Samples.spineOfThree
    Samples.lookupThrowingOnThird Samples.threeEntries (initialState None)
  = (initialState None, [CHAPTERS_ERROR_BUILDING]).
Proof.
  split.
  - destruct (chapter_build_failure 100 Samples.spineWithoutSecond Samples.lookupOfThree
                Samples.threeEntries (initialState None)) as [_ Hbuilt].
    destruct (Hbuilt (fun item cfi _ _ => lookupOfThree_returns cfi)) as [_ Hhrefs].
    exact Hhrefs.
  - destruct (chapter_build_failure 100 Samples.spineOfThree Samples.lookupThrowingOnThird
                Samples.threeEntries (initialState None)) as [Hfail _].
    apply Hfail.
    exists (ChapterIndex.tocItem "ch3.xhtml" "Ch3" []), "/6/6[ch3]".
    split; [simpl; auto|]. split; reflexivity.
Defined.

(** C8 as written fails: when only the third entry's lookup throws, the
    ranges of the first two entries are lost with it. The first entry's own
    turn of the loop returns its range, yet the build leaves the table
    empty, and a relocation into the first chapter publishes no progress. *)
Lemma chapter_build_one_error_counterexample :
  let build :=
    ChapterIndex.buildChapterLocations 100 Samples.spineOfThree
      Samples.lookupThrowingOnThird Samples.threeEntries (initialState None) in
  ChapterIndex.chapterOf 100 Samples.spineOfThree Samples.lookupThrowingOnThird
    (ChapterIndex.tocItem "ch1.xhtml" "Ch1" [])
    (Some (ChapterIndex.tocItem "ch2.xhtml" "Ch2" []))
  = Ok (Some Samples.ch1) /\
  Samples.lookupThrowingOnThird "/6/4[ch2]" = Ok (JNum 50) /\
  Samples.lookupThrowingOnThird "/6/6[ch3]" = Throw /\
  snd build = [CHAPTERS_ERROR_BUILDING] /\
  chapterLocationsRef (chapters (fst build)) = [] /\
  pagesLeftInChapter
    (chapters (fst (Relocated.relocated Samples.book100 (Samples.rangeEvent 10 12)
                      (fst build)))) = None.
Proof. cbv zeta. repeat split; reflexivity. Qed.

(** * Properties of the rest of the reader *)

(** ** The handler in closed form *)

(** For an event that gets through the page tracking, the handler leaves
    the state computed by [settledState]. *)
Lemma relocated_settled env loc st s e :
  Relocated.processedRange env loc = Some (s, e) ->
  exists start end_,
    loc = Some {| loc_start := Some start; loc_end := end_ |} /\
    Relocated.resolveIndices env start end_ = Ok (s, e) /\
    fst (Relocated.relocated env loc st) = Settled.settledState start s e st.
Proof.
  unfold Relocated.processedRange.
  destruct loc as [[[start|] end_]|]; try discriminate.
  intros H. exists start, end_. split; [reflexivity|].
  assert (Hlen : (0 <? locationsLength env) = true).
  { destruct (0 <? locationsLength env); [reflexivity|].
    destruct (onLocationChange env) as [cb|]; [destruct (cb _)|]; discriminate. }
  rewrite Hlen in H.
  assert (Hres : Relocated.resolveIndices env start end_ = Ok (s, e)).
  { destruct (Relocated.resolveIndices env start end_) as [[s' e']|];
      destruct (onLocationChange env) as [cb|]; try destruct (cb _); congruence. }
  split; [exact Hres|].
  unfold Relocated.relocated, Relocated.relocatedHandler, tryCatch,
    Relocated.relocatedBody, Relocated.trackPage, Relocated.chapterProgress,
    when, bind, lift, modify, get, ret, logPageIndicator.
  rewrite Hlen. cbn [loc_end]. rewrite Hres. cbn [fst snd].
  unfold Settled.settledState, Settled.chaptersAfter.
  assert (Hcb : match onLocationChange env with
                | Some callback => callback (b_cfi start)
                | None => Ok tt
                end = Ok tt).
  { destruct (onLocationChange env) as [cb|]; [|reflexivity].
    destruct (cb (b_cfi start)) as [[]|]; [reflexivity|discriminate]. }
  destruct (onLocationChange env) as [cb|]; [rewrite Hcb|];
    destruct (Relocated.stuckDetected _ _ _ s e);
    destruct (b_displayed start) as [[[p|] [t|]]|];
    destruct (Relocated.nonNegative s) eqn:En;
    cbn -[Relocated.findChapter Relocated.shownPagesLeft Z.max Z.add
          Relocated.syncSection Relocated.syncViewport];
    destruct (chapterLocationsRef (chapters st)) eqn:Ech;
    destruct s as [i|];
    cbn -[Relocated.findChapter Relocated.shownPagesLeft Z.max Z.add
          Relocated.syncSection Relocated.syncViewport];
    try destruct (Relocated.findChapter i _) eqn:Ef;
    cbn -[Relocated.findChapter Relocated.shownPagesLeft Z.max Z.add
          Relocated.syncSection Relocated.syncViewport];
    try rewrite Ech; try rewrite Ef; try reflexivity;
    destruct st as [co se vi re [cl pl cn] na rr cu]; cbn in *; subst; reflexivity.
Qed.

(** ** The previous-page button *)

(** One in-section retreat with the view present. *)
Lemma goToPrevPage_in_section st :
  Transform.viewPresent st = true ->
  1 < sectionPageRef (section st) ->
  let st' := fst (Retreat.goToPrevPage st) in
  snd (Retreat.goToPrevPage st) = None /\
  sectionPageRef (section st') = sectionPageRef (section st) - 1 /\
  sectionTotalPagesRef (section st') = sectionTotalPagesRef (section st) /\
  sectionStartGlobalPageRef (section st') = sectionStartGlobalPageRef (section st) /\
  containerWidthRef (section st') = containerWidthRef (section st) /\
  Transform.appliedOffset st' =
    Some ((sectionPageRef (section st) - 2) * Transform.widthOf st) /\
  pendingPageRef (coalescer st') =
    Some (sectionStartGlobalPageRef (section st) + (sectionPageRef (section st') - 1)) /\
  currentPage (coalescer st') = currentPage (coalescer st) /\
  Transform.widthOf st' = Transform.widthOf st /\
  Transform.viewPresent st' = true.
Proof.
  intros Hv Hlt.
  pose proof (applyPageTransform_present (sectionPageRef (section st) - 1) st Hv)
    as (Hp & Ht & Hs & Hc & Ho & Hw & Hv' & Hco).
  unfold Retreat.goToPrevPage.
  assert (Hr : exists r, renditionRef st = Some r).
  { unfold Transform.viewPresent in Hv. destruct (renditionRef st); [eauto|discriminate]. }
  destruct Hr as [r Hr]. rewrite Hr.
  apply Z.ltb_lt in Hlt. rewrite Hlt. cbn [fst snd].
  set (st1 := Transform.applyPageTransform (sectionPageRef (section st) - 1) st) in *.
  rewrite section_update, appliedOffset_update, widthOf_update, viewPresent_update.
  unfold updatePageNonBlocking. cbn [coalescer withCoalescer].
  cbn [Coalescer.updatePageNonBlocking pendingPageRef currentPage].
  rewrite Hp, Ht, Hs, Hc, Ho, Hw, Hco.
  repeat split; auto.
  f_equal. ring.
Qed.

(** X1. The previous-page button mirrors the next-page button. With the
    rendered view in place and [sectionPage > 1] it takes exactly 1 from
    [sectionPage], moves the view to the offset of the new page and submits
    [sectionStartGlobalPage + (sectionPage - 1)]. With a rendition and
    [sectionPage <= 1] it changes nothing and hands over to
    [rendition.prev()]. Without a rendition it does nothing. *)
Theorem retreat_in_section_and_across :
  (forall st : State,
      Transform.viewPresent st = true ->
      1 < sectionPageRef (section st) ->
      let st' := fst (Retreat.goToPrevPage st) in
      snd (Retreat.goToPrevPage st) = None /\
      sectionPageRef (section st') = sectionPageRef (section st) - 1 /\
      Transform.appliedOffset st' =
        Some ((sectionPageRef (section st') - 1) * Transform.widthOf st) /\
      pendingPageRef (coalescer st') =
        Some (sectionStartGlobalPageRef (section st)
              + (sectionPageRef (section st') - 1))) /\
  (forall (st : State) (rendition : Rendition),
      renditionRef st = Some rendition ->
      sectionPageRef (section st) <= 1 ->
      Retreat.goToPrevPage st = (st, Some Transform.RenditionPrev)) /\
  (forall st : State,
      renditionRef st = None ->
      Retreat.goToPrevPage st = (st, None) /\
      Transform.goToNextPage st = (st, None)).
Proof.
  split; [|split].
  - intros st Hv Hlt.
    destruct (goToPrevPage_in_section st Hv Hlt)
      as (Hnone & Hp & _ & _ & _ & Hoff & Hpend & _).
    cbv zeta. rewrite Hp in *. split; [exact Hnone|]. split; [reflexivity|].
    split; [|exact Hpend]. rewrite Hoff. f_equal. ring.
  - intros st rendition Hr Hle.
    unfold Retreat.goToPrevPage. rewrite Hr.
    apply Z.ltb_ge in Hle. rewrite Hle. reflexivity.
  - intros st Hr. unfold Retreat.goToPrevPage, Transform.goToNextPage.
    rewrite Hr. split; reflexivity.
Qed.

Lemma retreat_in_section_and_across_witness :
  let st := Cases.onPage (Some Samples.oneView) 3 5 11 in
  sectionPageRef (section (fst (Retreat.goToPrevPage st))) = 2 /\
  pendingPageRef (coalescer (fst (Retreat.goToPrevPage st))) = Some 12 /\
  snd (Retreat.goToPrevPage (Samples.inSection (Some Samples.oneView) 5 11))
  = Some Transform.RenditionPrev.
Proof.
  destruct retreat_in_section_and_across as (Hin & Hacross & _).
  destruct (Hin (Cases.onPage (Some Samples.oneView) 3 5 11) eq_refl)
    as (_ & Hp & _ & Hpend); [simpl; lia|].
  cbv zeta in *. split; [exact Hp|]. split; [exact Hpend|].
  rewrite (Hacross (Samples.inSection (Some Samples.oneView) 5 11) Samples.oneView eq_refl);
    [reflexivity | simpl; lia].
Defined.

(** X2. Inside a section the two buttons undo each other: with the view
    in place, next followed by previous, and previous followed by next,
    leave the section state as it was, show the page the section state
    names, and submit the page number of that page. *)
Theorem advance_and_retreat_cancel (st : State) :
  Transform.viewPresent st = true ->
  (1 <= sectionPageRef (section st) < sectionTotalPagesRef (section st) ->
   let st' := fst (Retreat.goToPrevPage (fst (Transform.goToNextPage st))) in
   section st' = section st /\
   Transform.appliedOffset st' =
     Some ((sectionPageRef (section st) - 1) * Transform.widthOf st) /\
   pendingPageRef (coalescer st') =
     Some (sectionStartGlobalPageRef (section st) + (sectionPageRef (section st) - 1))) /\
  (1 < sectionPageRef (section st) <= sectionTotalPagesRef (section st) ->
   let st' := fst (Transform.goToNextPage (fst (Retreat.goToPrevPage st))) in
   section st' = section st /\
   Transform.appliedOffset st' =
     Some ((sectionPageRef (section st) - 1) * Transform.widthOf st) /\
   pendingPageRef (coalescer st') =
     Some (sectionStartGlobalPageRef (section st) + (sectionPageRef (section st) - 1))).
Proof.
  intros Hv. split.
  - intros [Hge Hlt].
    destruct (goToNextPage_in_section st Hv Hlt)
      as (_ & Hp & Ht & Hs & _ & _ & _ & Hw & Hv1).
    set (st1 := fst (Transform.goToNextPage st)) in *.
    assert (Hc : containerWidthRef (section st1) = containerWidthRef (section st)).
    { unfold st1, Transform.goToNextPage.
      assert (Hr : exists r, renditionRef st = Some r).
      { unfold Transform.viewPresent in Hv.
        destruct (renditionRef st); [eauto|discriminate]. }
      destruct Hr as [r Hr]. rewrite Hr.
      apply Z.ltb_lt in Hlt. rewrite Hlt. cbn [fst]. rewrite section_update.
      apply (applyPageTransform_present _ st Hv). }
    destruct (goToPrevPage_in_section st1 Hv1 ltac:(lia))
      as (_ & Hp2 & Ht2 & Hs2 & Hc2 & Hoff2 & Hpend2 & _).
    cbv zeta. split; [|split].
    + destruct (section (fst (Retreat.goToPrevPage st1))) as [p t c s] eqn:E.
      destruct (section st) as [p0 t0 c0 s0]. cbn in *.
      f_equal; lia.
    + rewrite Hoff2, Hp, Hw. f_equal; ring.
    + rewrite Hpend2, Hp2, Hs, Hp. f_equal; ring.
  - intros [Hlt Hle].
    destruct (goToPrevPage_in_section st Hv Hlt)
      as (_ & Hp & Ht & Hs & Hc & _ & _ & _ & Hw & Hv1).
    set (st1 := fst (Retreat.goToPrevPage st)) in *.
    destruct (goToNextPage_in_section st1 Hv1 ltac:(lia))
      as (_ & Hp2 & Ht2 & Hs2 & Hoff2 & Hpend2 & _).
    assert (Hc2 : containerWidthRef (section (fst (Transform.goToNextPage st1)))
                  = containerWidthRef (section st1)).
    { unfold Transform.goToNextPage.
      assert (Hr : exists r, renditionRef st1 = Some r).
      { unfold Transform.viewPresent in Hv1.
        destruct (renditionRef st1); [eauto|discriminate]. }
      destruct Hr as [r Hr]. rewrite Hr.
      assert (Hb : (sectionPageRef (section st1) <? sectionTotalPagesRef (section st1)) = true)
        by (apply Z.ltb_lt; lia).
      rewrite Hb. cbn [fst]. rewrite section_update.
      apply (applyPageTransform_present _ st1 Hv1). }
    cbv zeta. split; [|split].
    + destruct (section (fst (Transform.goToNextPage st1))) as [p t c s] eqn:E.
      destruct (section st) as [p0 t0 c0 s0]. cbn in *.
      f_equal; lia.
    + rewrite Hoff2, Hp, Hw. f_equal; ring.
    + rewrite Hpend2, Hp2, Hs, Hp. f_equal; ring.
Qed.

Lemma advance_and_retreat_cancel_witness :
  let st := Cases.onPage (Some Samples.oneView) 3 5 11 in
  section (fst (Retreat.goToPrevPage (fst (Transform.goToNextPage st)))) = section st /\
  section (fst (Transform.goToNextPage (fst (Retreat.goToPrevPage st)))) = section st.
Proof.
  destruct (advance_and_retreat_cancel (Cases.onPage (Some Samples.oneView) 3 5 11) eq_refl)
    as [Hnp Hpn].
  destruct Hnp as (H1 & _); [simpl; lia|].
  destruct Hpn as (H2 & _); [simpl; lia|].
  split; [exact H1 | exact H2].
Defined.

(** ** Section state and relocation *)

Lemma nonNegative_of_nonneg s : 0 <= s -> Relocated.nonNegative (Some s) = Some s.
Proof.
  intros H. unfold Relocated.nonNegative. apply Z.leb_le in H. rewrite H. reflexivity.
Qed.

(** The parts of [settledState] that the chapter lookup does not touch. *)
Lemma settled_parts start s e st :
  let st' := Settled.settledState start s e st in
  section st' =
    match b_displayed start with
    | Some {| d_page := Some p; d_total := Some t |} =>
        section (Relocated.syncSection p t s st)
    | _ => section st
    end /\
  renditionRef st' =
    match b_displayed start with
    | Some {| d_page := Some p; d_total := Some t |} =>
        renditionRef (Relocated.syncSection p t s st)
    | _ => renditionRef st
    end /\
  coalescer st' =
    match Relocated.nonNegative s with
    | Some n => Coalescer.updatePageNonBlocking (Z.max 1 (n + 1)) (coalescer st)
    | None => coalescer st
    end /\
  viewport st' = Relocated.syncViewport s e (viewport st) /\
  nav st' = nav st /\
  chapters st' = Settled.chaptersAfter s (chapters st) /\
  currentLocation st' = b_cfi start /\
  lastRelocatedStartRef (relocatedRefs st') = s /\
  lastRelocatedEndRef (relocatedRefs st') = e.
Proof.
  unfold Settled.settledState.
  destruct (b_displayed start) as [[[p|] [t|]]|];
    destruct (Relocated.nonNegative s); cbn; repeat split; reflexivity.
Qed.

Lemma relocated_section_reset
    (env : Env) (loc : option Location) (st : State) (s : Z) (e : option Z) :
  Relocated.processedRange env loc = Some (Some s, e) ->
  0 <= s ->
  let st' := fst (Relocated.relocated env loc st) in
  (forall p t,
      displayedNumbers loc = Some (p, t) ->
      sectionPageRef (section st') = 1 /\
      sectionTotalPagesRef (section st') = t /\
      sectionStartGlobalPageRef (section st') = s + 1 /\
      currentDisplayedPageRef (relocatedRefs st') = Some p /\
      currentDisplayedTotalRef (relocatedRefs st') = Some t /\
      PageMatchesSection st' /\
      (Transform.viewPresent st = true ->
       Transform.viewPresent st' = true /\ Transform.appliedOffset st' = Some 0)) /\
  (displayedNumbers loc = None ->
   section st' = section st /\ renditionRef st' = renditionRef st).
Proof.
  intros Hp Hs.
  destruct (relocated_settled env loc st (Some s) e Hp) as (start & end_ & -> & _ & Heq).
  cbv zeta. rewrite Heq. clear Heq.
  destruct (settled_parts start (Some s) e st) as (Hsec & Hren & Hco & _ & _ & _ & _ & _).
  assert (Hrel : relocatedRefs (Settled.settledState start (Some s) e st) =
                 match b_displayed start with
                 | Some {| d_page := Some p; d_total := Some t |} =>
                     {| lastRelocatedStartRef := Some s; lastRelocatedEndRef := e;
                        currentDisplayedPageRef := Some p;
                        currentDisplayedTotalRef := Some t |}
                 | _ =>
                     {| lastRelocatedStartRef := Some s; lastRelocatedEndRef := e;
                        currentDisplayedPageRef := currentDisplayedPageRef (relocatedRefs st);
                        currentDisplayedTotalRef :=
                          currentDisplayedTotalRef (relocatedRefs st) |}
                 end).
  { unfold Settled.settledState.
    destruct (b_displayed start) as [[[p|] [t|]]|];
      destruct (Relocated.nonNegative (Some s)); reflexivity. }
  destruct start as [scfi sloc sdisp]. unfold displayedNumbers.
  cbn [b_displayed] in *. split.
  - intros p t Hd.
    assert (Hb : sdisp = Some {| d_page := Some p; d_total := Some t |}).
    { destruct sdisp as [[[p'|] [t'|]]|]; try discriminate.
      inversion Hd. reflexivity. }
    subst sdisp.
    unfold PageMatchesSection. rewrite Hsec, Hco, Hrel, (nonNegative_of_nonneg s Hs).
    unfold Transform.viewPresent, Transform.appliedOffset. rewrite Hren.
    unfold Relocated.syncSection. rewrite (nonNegative_of_nonneg s Hs).
    cbn -[Z.max Z.add].
    split; [reflexivity|]. split; [reflexivity|]. split; [reflexivity|].
    split; [reflexivity|]. split; [reflexivity|].
    split; [f_equal; lia|].
    destruct (renditionRef st) as [[[[views cw]|]]|]; try discriminate.
    destruct views as [|[doc|] others]; try discriminate.
    cbn. unfold Transform.setTransform.
    destruct (d_body doc); [|discriminate].
    destruct (d_transform doc); [|discriminate].
    intros _. split; reflexivity.
  - intros Hd. rewrite Hsec, Hren.
    destruct sdisp as [[[p'|] [t'|]]|]; try discriminate; split; reflexivity.
Qed.

(** X3. A processed relocation that carries [displayed.page] and
    [displayed.total] and a start index [s >= 0] resets the section state:
    [sectionPage = 1], [sectionTotalPages = displayed.total],
    [sectionStartGlobalPage = s + 1], the transform of a rendered view back
    at 0; the page it submits is the one the section state names. An event
    without these numbers leaves the section state as it was. *)
Theorem relocation_resets_section
    (env : Env) (loc : option Location) (st : State) (s : Z) (e : option Z) :
  Relocated.processedRange env loc = Some (Some s, e) ->
  0 <= s ->
  let st' := fst (Relocated.relocated env loc st) in
  (forall p t,
      displayedNumbers loc = Some (p, t) ->
      sectionPageRef (section st') = 1 /\
      sectionTotalPagesRef (section st') = t /\
      sectionStartGlobalPageRef (section st') = s + 1 /\
      currentDisplayedPageRef (relocatedRefs st') = Some p /\
      currentDisplayedTotalRef (relocatedRefs st') = Some t /\
      PageMatchesSection st' /\
      (Transform.viewPresent st = true ->
       Transform.viewPresent st' = true /\ Transform.appliedOffset st' = Some 0)) /\
  (displayedNumbers loc = None ->
   section st' = section st /\ renditionRef st' = renditionRef st).
Proof. exact (relocated_section_reset env loc st s e). Qed.

Lemma relocation_resets_section_witness :
  let st' := fst (Relocated.relocated Samples.book100 (displayedEvent "epubcfi(/6/8!/4/2/1:0)" 20 22 1 7)
                    (Cases.onPage (Some Samples.oneView) 3 5 11)) in
  sectionPageRef (section st') = 1 /\
  sectionTotalPagesRef (section st') = 7 /\
  sectionStartGlobalPageRef (section st') = 21 /\
  Transform.appliedOffset st' = Some 0.
Proof.
  destruct (relocation_resets_section Samples.book100
              (displayedEvent "epubcfi(/6/8!/4/2/1:0)" 20 22 1 7)
              (Cases.onPage (Some Samples.oneView) 3 5 11) 20 (Some 22) eq_refl)
    as [Hnum _]; [lia|].
  destruct (Hnum 1 7 eq_refl) as (Hp & Ht & Hs & _ & _ & _ & Hview).
  destruct (Hview eq_refl) as [_ Hoff].
  cbv zeta. split; [exact Hp|]. split; [exact Ht|]. split; [exact Hs | exact Hoff].
Defined.

Lemma displayedTotalOf_numbers loc p t :
  displayedNumbers loc = Some (p, t) -> 1 <= t -> Retreat.displayedTotalOf loc = t.
Proof.
  unfold displayedNumbers, Retreat.displayedTotalOf, numOr.
  destruct loc as [[[[c l [[[p'|] [t'|]]|]]|] en]|]; try discriminate.
  intros H Ht. inversion H; subst.
  destruct (t =? 0) eqn:E; [apply Z.eqb_eq in E; lia | reflexivity].
Qed.

(** The [then] callback of [rendition.prev()], with the view present. *)
Lemma prevSectionResolved_present loc st :
  Transform.viewPresent st = true ->
  let total := Retreat.displayedTotalOf loc in
  let st' := fst (Retreat.prevSectionResolved loc st) in
  snd (Retreat.prevSectionResolved loc st) = total /\
  sectionPageRef (section st') = total /\
  sectionTotalPagesRef (section st') = total /\
  sectionStartGlobalPageRef (section st') = sectionStartGlobalPageRef (section st) /\
  Transform.appliedOffset st' = Some ((total - 1) * Transform.widthOf st) /\
  Transform.viewPresent st' = true /\
  coalescer st' = coalescer st /\
  relocatedRefs st' = relocatedRefs st /\
  nav st' = nav st.
Proof.
  intros Hv. unfold Retreat.prevSectionResolved. cbv zeta. cbn [fst snd].
  set (s1 := withSection _ st).
  assert (Hv1 : Transform.viewPresent s1 = true) by exact Hv.
  destruct (applyPageTransform_present (Retreat.displayedTotalOf loc) s1 Hv1)
    as (Hp & Ht & Hs & _ & Ho & _ & Hv' & Hco).
  split; [reflexivity|]. split; [exact Hp|]. split; [exact Ht|].
  split; [exact Hs|]. split; [exact Ho|]. split; [exact Hv'|].
  split; [exact Hco|].
  unfold Transform.applyPageTransform.
  destruct (renditionRef s1) as [[[[views cw]|]]|]; try (split; reflexivity).
  destruct views as [|[doc|] others]; try (split; reflexivity).
  cbn. destruct (d_body doc); split; reflexivity.
Qed.

(** X4. Going back across a section boundary. When the relocation for the
    previous section (start index [s >= 0], [displayed.total = t >= 1]) is
    handled before the completion callback of [rendition.prev()], the
    callback and its deferred page update leave the reader on the last page
    of that section: [sectionPage = sectionTotalPages = t], the view moved
    by [t - 1] page widths, and the page [s + t] submitted, which is the
    page the section state names. When the relocation is handled between
    the callback and the deferred update, the same page [s + t] is
    submitted while the section state and the view are back on page 1. *)
Theorem retreat_to_previous_section
    (env : Env) (loc : option Location) (st : State) (s p t : Z) (e : option Z) :
  Relocated.processedRange env loc = Some (Some s, e) ->
  0 <= s ->
  displayedNumbers loc = Some (p, t) ->
  1 <= t ->
  Transform.viewPresent st = true ->
  (let st1 := fst (Relocated.relocated env loc st) in
   let resolved := Retreat.prevSectionResolved loc st1 in
   let st3 := Retreat.prevSectionDeferred (snd resolved) (fst resolved) in
   sectionPageRef (section st3) = t /\
   sectionTotalPagesRef (section st3) = t /\
   sectionStartGlobalPageRef (section st3) = s + 1 /\
   Transform.appliedOffset st3 = Some ((t - 1) * Transform.widthOf st1) /\
   pendingPageRef (coalescer st3) = Some (s + t) /\
   PageMatchesSection st3) /\
  (let resolved := Retreat.prevSectionResolved loc st in
   let st2 := fst (Relocated.relocated env loc (fst resolved)) in
   let st3 := Retreat.prevSectionDeferred (snd resolved) st2 in
   sectionPageRef (section st3) = 1 /\
   sectionTotalPagesRef (section st3) = t /\
   Transform.appliedOffset st3 = Some 0 /\
   pendingPageRef (coalescer st3) = Some (s + t)).
Proof.
  intros Hp Hs Hd Ht Hv.
  pose proof (displayedTotalOf_numbers loc p t Hd Ht) as Htot.
  split.
  - destruct (relocated_section_reset env loc st s e Hp Hs) as [Hreset _].
    destruct (Hreset p t Hd) as (_ & _ & Hstart & _ & _ & _ & Hview).
    destruct (Hview Hv) as [Hv1 _].
    set (st1 := fst (Relocated.relocated env loc st)) in *.
    destruct (prevSectionResolved_present loc st1 Hv1)
      as (Hsnd & Hpage & Htotal & Hst & Hoff & _ & _).
    cbv zeta. rewrite Hsnd, Htot in *.
    unfold Retreat.prevSectionDeferred, PageMatchesSection.
    rewrite section_update, appliedOffset_update.
    unfold updatePageNonBlocking. cbn [coalescer withCoalescer].
    cbn [Coalescer.updatePageNonBlocking pendingPageRef].
    rewrite Hpage, Htotal, Hst, Hoff, Hstart.
    repeat split; try reflexivity; f_equal; lia.
  - destruct (prevSectionResolved_present loc st Hv)
      as (Hsnd & _ & _ & _ & _ & Hv1 & _).
    cbv zeta. rewrite Hsnd, Htot.
    set (st1 := fst (Retreat.prevSectionResolved loc st)) in *.
    destruct (relocated_section_reset env loc st1 s e Hp Hs) as [Hreset _].
    destruct (Hreset p t Hd) as (Hpage & Htotal & Hstart & _ & _ & _ & Hview).
    destruct (Hview Hv1) as [_ Hoff].
    unfold Retreat.prevSectionDeferred.
    rewrite section_update, appliedOffset_update.
    unfold updatePageNonBlocking. cbn [coalescer withCoalescer].
    cbn [Coalescer.updatePageNonBlocking pendingPageRef].
    rewrite Hpage, Htotal, Hstart, Hoff.
    repeat split; try reflexivity; f_equal; lia.
Qed.

Lemma retreat_to_previous_section_witness :
  let loc := displayedEvent "epubcfi(/6/8!/4/2/1:0)" 20 22 1 7 in
  let st1 := fst (Relocated.relocated Samples.book100 loc
                    (Samples.inSection (Some Samples.oneView) 5 31)) in
  let resolved := Retreat.prevSectionResolved loc st1 in
  let st3 := Retreat.prevSectionDeferred (snd resolved) (fst resolved) in
  sectionPageRef (section st3) = 7 /\ pendingPageRef (coalescer st3) = Some 27.
Proof.
  destruct (retreat_to_previous_section Samples.book100
              (displayedEvent "epubcfi(/6/8!/4/2/1:0)" 20 22 1 7)
              (Samples.inSection (Some Samples.oneView) 5 31) 20 1 7 (Some 22)
              eq_refl ltac:(lia) eq_refl ltac:(lia) eq_refl)
    as [(Hp & _ & _ & _ & Hpend & _) _].
  cbv zeta in *. split; [exact Hp | exact Hpend].
Defined.

(** ** Invariants of the reachable states *)

Lemma applyPageTransform_cases pageNum st :
  let st' := Transform.applyPageTransform pageNum st in
  coalescer st' = coalescer st /\
  (section st' = section st \/
   section st' = Transform.setSectionPage pageNum (section st)).
Proof.
  unfold Transform.applyPageTransform.
  destruct (renditionRef st) as [[[[views cw]|]]|]; try (split; [reflexivity | left; reflexivity]).
  destruct views as [|[doc|] others]; try (split; [reflexivity | left; reflexivity]).
  cbn. destruct (d_body doc); cbn; split; try reflexivity; [right | left]; reflexivity.
Qed.

Lemma healthy_update p st :
  1 <= p -> Healthy st -> Healthy (updatePageNonBlocking p st).
Proof.
  intros Hp [(Hc & Hpend & Hs & Hpg) Hwf]. split.
  - unfold PagesPositive. cbn. repeat split; auto.
    intros q Hq. inversion Hq; subst. exact Hp.
  - apply wellFormed_update, Hwf.
Qed.

Lemma healthy_applyPageTransform pageNum st :
  1 <= pageNum -> Healthy st -> Healthy (Transform.applyPageTransform pageNum st).
Proof.
  intros Hp [(Hc & Hpend & Hs & Hpg) Hwf].
  destruct (applyPageTransform_cases pageNum st) as [Hco [Hse | Hse]];
    (split; [unfold PagesPositive | rewrite Hco; exact Hwf]);
    rewrite Hco, Hse; cbn; repeat split; auto.
Qed.

Lemma healthy_relocated env loc st :
  Healthy st -> Healthy (fst (Relocated.relocated env loc st)).
Proof.
  intros [(Hc & Hpend & Hs & Hpg) Hwf].
  split; [|apply wellFormed_relocated, Hwf].
  destruct (Relocated.processedRange env loc) as [[s e]|] eqn:Hp.
  - destruct (relocated_settled env loc st s e Hp) as (start & end_ & _ & _ & ->).
    destruct (settled_parts start s e st) as (Hsec & _ & Hco & _).
    unfold PagesPositive. rewrite Hsec, Hco.
    assert (Hsync : forall p t,
               1 <= sectionStartGlobalPageRef (section (Relocated.syncSection p t s st)) /\
               1 <= sectionPageRef (section (Relocated.syncSection p t s st))).
    { intros p t. unfold Relocated.syncSection. cbn.
      destruct (Relocated.nonNegative s) as [n|] eqn:En; [|split; [exact Hs | lia]].
      destruct s as [s|]; [|discriminate].
      apply nonNegative_some in En. split; lia. }
    assert (Hpage : 1 <= currentPage
                            match Relocated.nonNegative s with
                            | Some n => Coalescer.updatePageNonBlocking (Z.max 1 (n + 1))
                                          (coalescer st)
                            | None => coalescer st
                            end /\
                    forall q, pendingPageRef
                                match Relocated.nonNegative s with
                                | Some n => Coalescer.updatePageNonBlocking (Z.max 1 (n + 1))
                                              (coalescer st)
                                | None => coalescer st
                                end = Some q -> 1 <= q).
    { destruct (Relocated.nonNegative s); cbn; split; auto.
      intros q Hq. inversion Hq. lia. }
    destruct Hpage as [H1 H2]. split; [exact H1|]. split; [exact H2|].
    destruct (b_displayed start) as [[[p|] [t|]]|]; try (split; assumption).
    apply Hsync.
  - destruct (relocated_untracked env loc st Hp) as (st' & log & Hr & Hst & _).
    rewrite Hr. cbn [fst]. rewrite Hst.
    destruct loc as [[[b|] end_]|]; repeat split; assumption.
Qed.

Lemma healthy_paint st : Healthy st -> Healthy (paint st).
Proof.
  intros [(Hc & Hpend & Hs & Hpg) Hwf]. split.
  - unfold PagesPositive, paint. cbn [coalescer section withCoalescer].
    rewrite (painted_spec _ Hwf). cbn.
    split; [|split; [discriminate | split; assumption]].
    destruct (pendingPageRef (coalescer st)) as [p|] eqn:E; [apply Hpend; reflexivity | exact Hc].
  - apply wellFormed_painted, Hwf.
Qed.

Lemma healthy_step env st st' : Step env st st' -> Healthy st -> Healthy st'.
Proof.
  intros Hstep Hh. destruct Hstep.
  - apply healthy_relocated, Hh.
  - apply healthy_paint, Hh.
  - unfold Transform.goToNextPage.
    destruct (renditionRef st); [|exact Hh].
    destruct (sectionPageRef (section st) <? sectionTotalPagesRef (section st));
      [|exact Hh].
    cbn [fst]. pose proof Hh as [(_ & _ & Hs & Hpg) _].
    assert (Hn : Healthy (Transform.applyPageTransform (sectionPageRef (section st) + 1) st))
      by (apply healthy_applyPageTransform; [lia | exact Hh]).
    apply healthy_update; [|exact Hn].
    destruct Hn as [(_ & _ & Hs1 & _) _]. lia.
  - unfold Transform.nextSectionResolved.
    apply healthy_applyPageTransform; [lia|].
    destruct Hh as [(Hc & Hpend & Hs & Hpg) Hwf].
    split; [|exact Hwf]. unfold PagesPositive. cbn. repeat split; auto. lia.
  - unfold Retreat.goToPrevPage.
    destruct (renditionRef st); [|exact Hh].
    destruct (1 <? sectionPageRef (section st)) eqn:E; [|exact Hh].
    apply Z.ltb_lt in E. cbn [fst].
    assert (Hn : Healthy (Transform.applyPageTransform (sectionPageRef (section st) - 1) st))
      by (apply healthy_applyPageTransform; [lia | exact Hh]).
    apply healthy_update; [|exact Hn].
    destruct Hn as [(_ & _ & Hs1 & _) _]. lia.
  - unfold Retreat.prevSectionResolved. cbn [fst].
    apply healthy_applyPageTransform; [assumption|].
    destruct Hh as [(Hc & Hpend & Hs & Hpg) Hwf].
    split; [|exact Hwf]. unfold PagesPositive. cbn. repeat split; auto.
  - unfold Retreat.prevSectionDeferred. cbv zeta.
    apply healthy_update; [|exact Hh].
    destruct Hh as [(_ & _ & Hs & _) _]. lia.
  - unfold Tap.clickHandler.
    destruct (Tap.onLink e), (isChatOpenRef (nav st)), (Tap.hasSelection e),
      (Tap.now e - lastNavigationTimeRef (nav st) <? 200),
      (isNavigatingRef (nav st)), (Tap.centerTap e); exact Hh.
  - exact Hh.
  - unfold ChapterIndex.buildChapterLocations.
    destruct (ChapterIndex.buildLoop _ _ _ _); exact Hh.
Qed.

Lemma healthy_reachable env r st : Reachable env r st -> Healthy st.
Proof.
  induction 1 as [|st st' _ IH Hstep].
  - split; [|apply wellFormed_initial].
    unfold PagesPositive. cbn. repeat split; try lia. discriminate.
  - exact (healthy_step env st st' Hstep IH).
Qed.



(** X6. At most one page callback is ever registered with
    [requestAnimationFrame]: in every reachable state the callback count is
    1 when an update is scheduled and 0 otherwise, and a page is pending
    only while one is scheduled. So the frame after any reachable state
    leaves nothing pending. *)
Theorem reachable_one_callback
    (env : Env) (r : option Rendition) (st : State) :
  Reachable env r st ->
  (rafQueue (coalescer st) <= 1)%nat /\
  Coalescer.wellFormed (coalescer st) /\
  pendingPageRef (coalescer (paint st)) = None /\
  rafQueue (coalescer (paint st)) = 0%nat.
Proof.
  intros H. pose proof (proj2 (healthy_reachable env r st H)) as Hwf.
  split; [|split; [exact Hwf|]].
  - destruct Hwf as [Hq _]. rewrite Hq.
    destruct (pageUpdateScheduledRef (coalescer st)); auto.
  - unfold paint. cbn [coalescer withCoalescer].
    rewrite (painted_spec _ Hwf). split; reflexivity.
Qed.

Lemma reachable_one_callback_witness :
  let st := fst (Transform.goToNextPage
                   (fst (Relocated.relocated Samples.book100 (Samples.rangeEvent 10 12)
                           (initialState (Some Samples.oneView))))) in
  (rafQueue (coalescer st) <= 1)%nat /\ pendingPageRef (coalescer (paint st)) = None.
Proof.
  destruct (reachable_one_callback Samples.book100 (Some Samples.oneView)
              (fst (Transform.goToNextPage
                      (fst (Relocated.relocated Samples.book100 (Samples.rangeEvent 10 12)
                              (initialState (Some Samples.oneView)))))))
    as (Hq & _ & Hpend & _).
  - apply (ReachableStep Samples.book100 (Some Samples.oneView)
             (fst (Relocated.relocated Samples.book100 (Samples.rangeEvent 10 12)
                     (initialState (Some Samples.oneView))))).
    + apply (ReachableStep Samples.book100 (Some Samples.oneView)
               (initialState (Some Samples.oneView))).
      * apply ReachableInitial.
      * apply StepRelocated.
    + apply StepNextButton.
  - cbv zeta. split; [exact Hq | exact Hpend].
Defined.

(** ** What the relocated handler leaves alone *)

Lemma settled_commutes_with_nav start s e n st :
  Settled.settledState start s e (withNav n st) =
  withNav n (Settled.settledState start s e st).
Proof.
  unfold Settled.settledState, Settled.chaptersAfter.
  destruct (b_displayed start) as [[[p|] [t|]]|];
    destruct (Relocated.nonNegative s);
    cbn -[Relocated.findChapter Relocated.shownPagesLeft Z.max Z.add];
    destruct (chapterLocationsRef (chapters st)); destruct s as [i|];
    try destruct (Relocated.findChapter i _); reflexivity.
Qed.

(** X7. The stuck condition is a diagnosis and nothing else. The relocated
    handler never writes the navigation refs (the requested index, the
    debounce time, the in-progress flag, the chat flag), and the state it
    leaves does not depend on them: with other navigation refs the outcome
    is the same state with those refs. *)
Theorem relocated_leaves_navigation_refs
    (env : Env) (loc : option Location) (st : State) (n : NavRefs) :
  nav (fst (Relocated.relocated env loc st)) = nav st /\
  fst (Relocated.relocated env loc (withNav n st)) =
    withNav n (fst (Relocated.relocated env loc st)).
Proof.
  destruct (Relocated.processedRange env loc) as [[s e]|] eqn:Hp.
  - destruct (relocated_settled env loc st s e Hp) as (start & end_ & Hloc & _ & Heq).
    destruct (relocated_settled env loc (withNav n st) s e Hp)
      as (start' & end' & Hloc' & _ & Heq').
    assert (start' = start) by congruence. subst start'.
    rewrite Heq, Heq'. split.
    + apply (settled_parts start s e st).
    + apply settled_commutes_with_nav.
  - destruct (relocated_untracked env loc st Hp) as (st1 & log1 & Hr1 & -> & _).
    destruct (relocated_untracked env loc (withNav n st) Hp) as (st2 & log2 & Hr2 & -> & _).
    rewrite Hr1, Hr2. cbn [fst].
    destruct loc as [[[b|] end_]|]; split; reflexivity.
Qed.

Lemma state_ext (a b : State) :
  coalescer a = coalescer b -> section a = section b -> viewport a = viewport b ->
  relocatedRefs a = relocatedRefs b -> chapters a = chapters b -> nav a = nav b ->
  renditionRef a = renditionRef b -> currentLocation a = currentLocation b ->
  a = b.
Proof. destruct a, b; cbn; intros; subst; reflexivity. Qed.

Lemma settled_relocatedRefs start s e st :
  relocatedRefs (Settled.settledState start s e st) =
    match b_displayed start with
    | Some {| d_page := Some p; d_total := Some t |} =>
        {| lastRelocatedStartRef := s; lastRelocatedEndRef := e;
           currentDisplayedPageRef := Some p; currentDisplayedTotalRef := Some t |}
    | _ =>
        {| lastRelocatedStartRef := s; lastRelocatedEndRef := e;
           currentDisplayedPageRef := currentDisplayedPageRef (relocatedRefs st);
           currentDisplayedTotalRef := currentDisplayedTotalRef (relocatedRefs st) |}
    end.
Proof.
  unfold Settled.settledState.
  destruct (b_displayed start) as [[[p|] [t|]]|];
    destruct (Relocated.nonNegative s); reflexivity.
Qed.

Lemma syncSection_again p t s st x :
  section x = section (Relocated.syncSection p t s st) ->
  renditionRef x = renditionRef (Relocated.syncSection p t s st) ->
  section (Relocated.syncSection p t s x) = section x /\
  renditionRef (Relocated.syncSection p t s x) = renditionRef x.
Proof.
  unfold Relocated.syncSection. cbn. intros Hs Hr. rewrite Hs, Hr. cbn.
  destruct (Relocated.nonNegative s);
    (destruct (renditionRef st) as [[[[views cw]|]]|]; try (split; reflexivity);
     destruct views as [|[doc|] others]; cbn;
     [ destruct cw; split; reflexivity
     | unfold Transform.setTransform;
       destruct (d_transform doc) eqn:Et; cbn; rewrite ?Et;
       destruct cw; split; reflexivity
     | destruct cw; split; reflexivity ]).
Qed.

Lemma syncViewport_again s e v :
  Relocated.syncViewport s e (Relocated.syncViewport s e v) = Relocated.syncViewport s e v.
Proof.
  unfold Relocated.syncViewport.
  destruct (Relocated.nonNegative s), (Relocated.nonNegative e); reflexivity.
Qed.

Lemma chaptersAfter_again s c :
  Settled.chaptersAfter s (Settled.chaptersAfter s c) = Settled.chaptersAfter s c.
Proof.
  unfold Settled.chaptersAfter.
  destruct (chapterLocationsRef c) eqn:El; [rewrite El; reflexivity|].
  destruct s as [i|]; [|rewrite El; reflexivity].
  destruct (Relocated.findChapter i (c0 :: l)) eqn:Ef;
    cbn [chapterLocationsRef]; rewrite Ef; reflexivity.
Qed.

(** X8. Handling the same event twice leaves the state of handling it
    once: a relocation that reports the position already recorded changes
    nothing, whatever the event is. *)
Theorem relocated_idempotent
    (env : Env) (loc : option Location) (st : State) :
  fst (Relocated.relocated env loc (fst (Relocated.relocated env loc st))) =
  fst (Relocated.relocated env loc st).
Proof.
  destruct (Relocated.processedRange env loc) as [[s e]|] eqn:Hp.
  - destruct (relocated_settled env loc st s e Hp) as (start & end_ & Hloc & _ & Heq).
    rewrite Heq.
    destruct (relocated_settled env loc (Settled.settledState start s e st) s e Hp)
      as (start' & end' & Hloc' & _ & Heq').
    rewrite Heq'. assert (start' = start) by congruence. subst start'.
    clear Heq Heq' Hloc Hloc' Hp.
    set (st1 := Settled.settledState start s e st).
    destruct (settled_parts start s e st)
      as (Hsec & Hren & Hco & Hv & Hnav & Hch & Hcur & _).
    destruct (settled_parts start s e st1)
      as (Hsec' & Hren' & Hco' & Hv' & Hnav' & Hch' & Hcur' & _).
    pose proof (settled_relocatedRefs start s e st) as Hrel.
    pose proof (settled_relocatedRefs start s e st1) as Hrel'.
    fold st1 in Hsec, Hren, Hco, Hv, Hnav, Hch, Hcur, Hrel.
    apply state_ext.
    + rewrite Hco', Hco.
      destruct (Relocated.nonNegative s); [apply updatePageNonBlocking_twice | reflexivity].
    + rewrite Hsec'.
      destruct (b_displayed start) as [[[p|] [t|]]|]; try reflexivity.
      apply (syncSection_again p t s st st1 Hsec Hren).
    + rewrite Hv', Hv. apply syncViewport_again.
    + rewrite Hrel', Hrel.
      destruct (b_displayed start) as [[[p|] [t|]]|]; reflexivity.
    + rewrite Hch', Hch. apply chaptersAfter_again.
    + rewrite Hnav', Hnav. reflexivity.
    + rewrite Hren'.
      destruct (b_displayed start) as [[[p|] [t|]]|]; try reflexivity.
      apply (syncSection_again p t s st st1 Hsec Hren).
    + rewrite Hcur', Hcur. reflexivity.
  - destruct (relocated_untracked env loc st Hp) as (st1 & log1 & Hr1 & -> & _).
    rewrite Hr1. cbn [fst].
    destruct (relocated_untracked env loc
                match loc with
                | Some {| loc_start := Some b |} => withCurrentLocation (b_cfi b) st
                | _ => st
                end Hp) as (st2 & log2 & Hr2 & -> & _).
    rewrite Hr2. cbn [fst].
    destruct loc as [[[b|] end_]|]; reflexivity.
Qed.

(** ** Events that cannot be placed *)

(** X9. Before the location table is ready ([book.locations.length()] is
    not positive) a relocation whose callback returns is handled without
    error: it records the event's CFI as the current location and changes
    nothing else, so no page number is submitted and no range is
    recorded. *)
Theorem relocation_before_locations_ready
    (env : Env) (start : Boundary) (end_ : option Boundary) (st : State) :
  locationsLength env <= 0 ->
  match onLocationChange env with
  | Some callback => callback (b_cfi start) = Ok tt
  | None => True
  end ->
  let loc := Some {| loc_start := Some start; loc_end := end_ |} in
  Relocated.completes env loc st = true /\
  fst (Relocated.relocated env loc st) = withCurrentLocation (b_cfi start) st /\
  logged RELOCATED_EVENT_COMPLETE (snd (Relocated.relocated env loc st)) = true /\
  logged RELOCATED_EVENT_ERROR (snd (Relocated.relocated env loc st)) = false /\
  logged RELOCATED_BEFORE_SET_PAGE (snd (Relocated.relocated env loc st)) = false.
Proof.
  intros Hlen Hcb. cbv zeta.
  assert (Hready : (0 <? locationsLength env) = false) by (apply Z.ltb_ge; exact Hlen).
  unfold Relocated.completes, Relocated.relocated, Relocated.relocatedHandler, tryCatch,
    Relocated.relocatedBody, when, bind, lift, modify, get, ret, logPageIndicator.
  rewrite Hready.
  destruct (onLocationChange env) as [cb|]; [rewrite Hcb|]; cbn;
    repeat split; reflexivity.
Qed.

Lemma relocation_before_locations_ready_witness :
  fst (Relocated.relocated
         {| locationsLength := 0; locationFromCfi := fun _ => Ok (JNum (-1));
            onLocationChange := None |}
         (Samples.rangeEvent 0 0) (initialState None))
  = withCurrentLocation (Some "epubcfi(/6/8!/4/2/1:0)") (initialState None).
Proof.
  apply (relocation_before_locations_ready
           {| locationsLength := 0; locationFromCfi := fun _ => Ok (JNum (-1));
              onLocationChange := None |}
           (Samples.boundaryAt "epubcfi(/6/8!/4/2/1:0)" 0)
           (Some (Samples.boundaryAt "epubcfi(/6/8!/4/2/9:0)" 0))
           (initialState None)); [simpl; lia | exact I].
Defined.

(** X10. A processed relocation whose start index is missing or negative
    moves nothing the reader shows: no page is submitted, the viewport
    start and the section's first page keep their values. With a missing
    start the chapter progress is kept too and the stuck condition is not
    flagged. The range it recorded as the last relocated one is the
    unresolved one. *)
Theorem relocation_without_start
    (env : Env) (loc : option Location) (st : State) (s e : option Z) :
  Relocated.processedRange env loc = Some (s, e) ->
  Relocated.nonNegative s = None ->
  let st' := fst (Relocated.relocated env loc st) in
  coalescer st' = coalescer st /\
  currentStartLocationRef (viewport st') = currentStartLocationRef (viewport st) /\
  currentLocationIndexRef (viewport st') = currentLocationIndexRef (viewport st) /\
  sectionStartGlobalPageRef (section st') = sectionStartGlobalPageRef (section st) /\
  lastRelocatedStartRef (relocatedRefs st') = s /\
  (s = None ->
   chapters st' = chapters st /\
   logged RELOCATED_STUCK_DETECTED (snd (Relocated.relocated env loc st)) = false).
Proof.
  intros Hp Hneg.
  destruct (relocated_run env loc st s e Hp)
    as (_ & st1 & log & Hr & Hstuck & _ & _ & _ & _ & _ & _ & _ & _ & _).
  destruct (relocated_settled env loc st s e Hp) as (start & end_ & _ & _ & Heq).
  cbv zeta. rewrite Heq.
  destruct (settled_parts start s e st)
    as (Hsec & _ & Hco & Hv & _ & Hch & _ & Hls & _).
  rewrite Hco, Hv, Hsec, Hch, Hls, Hneg. unfold Relocated.syncViewport. rewrite Hneg.
  split; [reflexivity|]. split; [reflexivity|]. split; [reflexivity|].
  split; [|split; [reflexivity|]].
  - destruct (b_displayed start) as [[[p|] [t|]]|]; try reflexivity.
    unfold Relocated.syncSection. cbn. rewrite Hneg. reflexivity.
  - intros ->. rewrite Hr. cbn [snd]. rewrite Hstuck. split.
    + unfold Settled.chaptersAfter.
      destruct (chapterLocationsRef (chapters st)); reflexivity.
    + reflexivity.
Qed.

Lemma relocation_without_start_witness :
  coalescer (fst (Relocated.relocated Samples.book100 Samples.bareEvent
                    (Samples.viewing 3 5)))
  = coalescer (Samples.viewing 3 5).
Proof.
  apply (relocation_without_start Samples.book100 Samples.bareEvent
           (Samples.viewing 3 5) None None eq_refl eq_refl).
Defined.

(** ** A run of relocations before one frame *)

Lemma relocateAll_snoc env front loc st :
  relocateAll env (front ++ [loc]) st =
  fst (Relocated.relocated env loc (relocateAll env front st)).
Proof.
  revert st. induction front as [|l front IH]; intros st; [reflexivity|].
  cbn [app relocateAll]. apply IH.
Qed.

Lemma currentPage_relocated env loc st :
  currentPage (coalescer (fst (Relocated.relocated env loc st))) = currentPage (coalescer st).
Proof.
  destruct (Relocated.processedRange env loc) as [[s e]|] eqn:Hp.
  - destruct (relocated_settled env loc st s e Hp) as (start & end_ & _ & _ & ->).
    destruct (settled_parts start s e st) as (_ & _ & Hco & _). rewrite Hco.
    destruct (Relocated.nonNegative s); reflexivity.
  - destruct (relocated_untracked env loc st Hp) as (st1 & log1 & -> & -> & _).
    destruct loc as [[[b|] end_]|]; reflexivity.
Qed.

Lemma relocateAll_keeps env events :
  forall st,
    Coalescer.wellFormed (coalescer st) ->
    Coalescer.wellFormed (coalescer (relocateAll env events st)) /\
    currentPage (coalescer (relocateAll env events st)) = currentPage (coalescer st).
Proof.
  induction events as [|loc events IH]; intros st Hwf; [split; [exact Hwf | reflexivity]|].
  cbn [relocateAll].
  destruct (IH _ (wellFormed_relocated env loc st Hwf)) as [H1 H2].
  split; [exact H1|]. rewrite H2. apply currentPage_relocated.
Qed.

(** X11. Last write wins at the level of events. However many relocations
    are handled before the next frame, and whatever the earlier ones were,
    when the last one is processed with a start index [s >= 0] the page
    shown does not change until the frame, the frame makes exactly one
    [setCurrentPage] call, with [s + 1], and the viewport start is
    already [s]. *)
Theorem relocations_coalesce_to_last
    (env : Env) (front : list (option Location)) (loc : option Location)
    (st : State) (s : Z) (e : option Z) :
  Coalescer.wellFormed (coalescer st) ->
  Relocated.processedRange env loc = Some (Some s, e) ->
  0 <= s ->
  let st' := relocateAll env (front ++ [loc]) st in
  currentPage (coalescer st') = currentPage (coalescer st) /\
  snd (Coalescer.animationFrame (coalescer st')) = [s + 1] /\
  currentPage (coalescer (paint st')) = s + 1 /\
  currentStartLocationRef (viewport st') = Some s.
Proof.
  intros Hwf Hp Hs. cbv zeta. rewrite relocateAll_snoc.
  destruct (relocateAll_keeps env front st Hwf) as [Hwf1 Hcur1].
  set (st1 := relocateAll env front st) in *.
  destruct (relocated_settled env loc st1 (Some s) e Hp) as (start & end_ & _ & _ & ->).
  destruct (settled_parts start (Some s) e st1) as (_ & _ & Hco & Hv & _).
  rewrite (nonNegative_of_nonneg s Hs) in Hco.
  assert (Hmax : Z.max 1 (s + 1) = s + 1) by lia. rewrite Hmax in Hco.
  destruct (update_scheduled (s + 1) _ Hwf1) as (Hq & _ & Hpend & Hcur).
  cbv zeta in Hq, Hpend, Hcur. rewrite <- Hco in Hq, Hpend, Hcur.
  split; [rewrite Hcur; exact Hcur1|].
  assert (Hframe : Coalescer.animationFrame
                     (coalescer (Settled.settledState start (Some s) e st1)) =
                   ({| currentPage := s + 1; pendingPageRef := None;
                       pageUpdateScheduledRef := false; rafQueue := 0 |}, [s + 1])).
  { unfold Coalescer.animationFrame. rewrite Hq. cbn [Coalescer.runCallbacks].
    unfold Coalescer.pageCallback. cbn [pendingPageRef]. rewrite Hpend. reflexivity. }
  split; [rewrite Hframe; reflexivity|].
  split.
  - unfold paint, Coalescer.painted. cbn [coalescer withCoalescer].
    rewrite Hframe. reflexivity.
  - rewrite Hv. unfold Relocated.syncViewport.
    rewrite (nonNegative_of_nonneg s Hs). reflexivity.
Qed.

Lemma relocations_coalesce_to_last_witness :
  let st' := relocateAll Samples.book100
               [Samples.rangeEvent 10 12; Samples.bareEvent; Samples.rangeEvent 55 58]
               (initialState None) in
  currentPage (coalescer st') = 1 /\
  snd (Coalescer.animationFrame (coalescer st')) = [56].
Proof.
  destruct (relocations_coalesce_to_last Samples.book100
              [Samples.rangeEvent 10 12; Samples.bareEvent] (Samples.rangeEvent 55 58)
              (initialState None) 55 (Some 58)
              (conj eq_refl (fun _ => eq_refl)) eq_refl ltac:(lia))
    as (Hcur & Hcalls & _).
  split; [exact Hcur | exact Hcalls].
Defined.

(** ** Taps: one navigation at a time *)

Lemma relocated_nav env loc st : nav (fst (Relocated.relocated env loc st)) = nav st.
Proof.
  destruct (Relocated.processedRange env loc) as [[s e]|] eqn:Hp.
  - destruct (relocated_settled env loc st s e Hp) as (start & end_ & _ & _ & ->).
    apply (settled_parts start s e st).
  - destruct (relocated_untracked env loc st Hp) as (st1 & log1 & -> & -> & _).
    destruct loc as [[[b|] end_]|]; reflexivity.
Qed.

Lemma applyPageTransform_nav pageNum st :
  nav (Transform.applyPageTransform pageNum st) = nav st.
Proof.
  unfold Transform.applyPageTransform.
  destruct (renditionRef st) as [[[[views cw]|]]|]; try reflexivity.
  destruct views as [|[doc|] others]; try reflexivity.
  cbn. destruct (d_body doc); reflexivity.
Qed.

Lemma step_nav_other env st st' :
  Step env st st' ->
  nav st' = nav st \/
  (exists e, st' = fst (Tap.clickHandler e st)) \/
  st' = Tap.navigationSettled st.
Proof.
  intros Hstep. destruct Hstep.
  - left. apply relocated_nav.
  - left. reflexivity.
  - left. unfold Transform.goToNextPage.
    destruct (renditionRef st); [|reflexivity].
    destruct (sectionPageRef (section st) <? sectionTotalPagesRef (section st));
      [|reflexivity].
    cbn [fst]. unfold updatePageNonBlocking. cbn [nav withCoalescer].
    apply applyPageTransform_nav.
  - left. unfold Transform.nextSectionResolved. rewrite applyPageTransform_nav. reflexivity.
  - left. unfold Retreat.goToPrevPage.
    destruct (renditionRef st); [|reflexivity].
    destruct (1 <? sectionPageRef (section st)); [|reflexivity].
    cbn [fst]. unfold updatePageNonBlocking. cbn [nav withCoalescer].
    apply applyPageTransform_nav.
  - left. unfold Retreat.prevSectionResolved. cbn [fst].
    rewrite applyPageTransform_nav. reflexivity.
  - left. reflexivity.
  - right; left. exists e. reflexivity.
  - right; right. reflexivity.
  - left. unfold ChapterIndex.buildChapterLocations.
    destruct (ChapterIndex.buildLoop _ _ _ _); reflexivity.
Qed.

Lemma clickHandler_rejected e st :
  Tap.accepted (snd (Tap.clickHandler e st)) = false -> fst (Tap.clickHandler e st) = st.
Proof.
  unfold Tap.clickHandler.
  destruct (Tap.onLink e), (isChatOpenRef (nav st)), (Tap.hasSelection e),
    (Tap.now e - lastNavigationTimeRef (nav st) <? 200),
    (isNavigatingRef (nav st)), (Tap.centerTap e); cbn; intros H;
    try reflexivity; discriminate.
Qed.

Lemma clickHandler_busy e st :
  isNavigatingRef (nav st) = true ->
  Tap.accepted (snd (Tap.clickHandler e st)) = false.
Proof.
  intros Hbusy. unfold Tap.clickHandler. rewrite Hbusy.
  destruct (Tap.onLink e), (isChatOpenRef (nav st)), (Tap.hasSelection e),
    (Tap.now e - lastNavigationTimeRef (nav st) <? 200); reflexivity.
Qed.

(** X12. One navigation at a time. A tap the handler accepts sets the
    in-progress flag and records its time; a tap it rejects changes
    nothing at all; no tap changes anything but the navigation refs.
    While the flag is set every tap is rejected, whatever its position
    and time, and of all the reactions of the component only the
    settlement of the navigation promise clears the flag. *)
Theorem tap_single_flight (env : Env) :
  (forall e st,
      Tap.accepted (snd (Tap.clickHandler e st)) = true ->
      isNavigatingRef (nav (fst (Tap.clickHandler e st))) = true /\
      lastNavigationTimeRef (nav (fst (Tap.clickHandler e st))) = Tap.now e) /\
  (forall e st,
      Tap.accepted (snd (Tap.clickHandler e st)) = false ->
      fst (Tap.clickHandler e st) = st) /\
  (forall e st,
      fst (Tap.clickHandler e st) = withNav (nav (fst (Tap.clickHandler e st))) st) /\
  (forall e st,
      isNavigatingRef (nav st) = true ->
      Tap.accepted (snd (Tap.clickHandler e st)) = false) /\
  (forall st st',
      Step env st st' ->
      isNavigatingRef (nav st) = true ->
      isNavigatingRef (nav st') = true \/ st' = Tap.navigationSettled st).
Proof.
  split; [|split; [|split; [|split]]].
  - intros e st Hacc. split.
    + revert Hacc. unfold Tap.clickHandler.
      destruct (Tap.onLink e), (isChatOpenRef (nav st)), (Tap.hasSelection e),
        (Tap.now e - lastNavigationTimeRef (nav st) <? 200),
        (isNavigatingRef (nav st)), (Tap.centerTap e); cbn; intros H;
        try reflexivity; discriminate.
    + rewrite clickHandler_window, Hacc. reflexivity.
  - apply clickHandler_rejected.
  - intros e st. unfold Tap.clickHandler.
    destruct st as [co se vi re ch na rr cl]. cbn [nav].
    destruct (Tap.onLink e), (isChatOpenRef na), (Tap.hasSelection e),
      (Tap.now e - lastNavigationTimeRef na <? 200),
      (isNavigatingRef na), (Tap.centerTap e); reflexivity.
  - apply clickHandler_busy.
  - intros st st' Hstep Hbusy.
    destruct (step_nav_other env st st' Hstep) as [Hnav | [[e ->] | ->]].
    + left. rewrite Hnav. exact Hbusy.
    + left. rewrite (clickHandler_rejected e st (clickHandler_busy e st Hbusy)).
      exact Hbusy.
    + right. reflexivity.
Qed.

Lemma tap_single_flight_witness :
  let st1 := fst (Tap.clickHandler (Samples.rightTap 1000) (Samples.lastTapAt 0)) in
  isNavigatingRef (nav st1) = true /\
  Tap.accepted (snd (Tap.clickHandler (Samples.rightTap 5000) st1)) = false /\
  Tap.accepted
    (snd (Tap.clickHandler (Samples.rightTap 5000) (Tap.navigationSettled st1))) = true.
Proof.
  destruct (tap_single_flight Samples.book100) as (Hset & _ & _ & Hbusy & _).
  destruct (Hset (Samples.rightTap 1000) (Samples.lastTapAt 0) eq_refl) as [Hflag _].
  cbv zeta. split; [exact Hflag|]. split.
  - apply Hbusy. exact Hflag.
  - reflexivity.
Defined.

(** ** Chapter ranges that tile the book *)

Lemma chapterOf_resolved total spineGet locationFromCfi item next s :
  startOf spineGet locationFromCfi item = Some s ->
  match next with
  | Some n => exists s', startOf spineGet locationFromCfi n = Some s'
  | None => True
  end ->
  ChapterIndex.chapterOf total spineGet locationFromCfi item next =
    Ok (Some {| href := ChapterIndex.itemHref item;
                label := ChapterIndex.itemLabel item;
                startLocationIndex := s;
                endLocationIndex :=
                  match next with
                  | Some n =>
                      match startOf spineGet locationFromCfi n with
                      | Some s' => if s <? s' then s' - 1 else total - 1
                      | None => total - 1
                      end
                  | None => total - 1
                  end |}).
Proof.
  unfold startOf, ChapterIndex.chapterOf, ChapterIndex.endLocOf.
  destruct (spineGet (ChapterIndex.itemHref item)) as [cfi|]; [|discriminate].
  destruct (locationFromCfi cfi) as [[n| |]|]; try discriminate.
  intros [= ->] Hnext.
  cbn [orZero].
  destruct next as [n|]; [|reflexivity].
  destruct Hnext as [s' Hs'].
  destruct (spineGet (ChapterIndex.itemHref n)) as [cfi'|]; [|discriminate].
  destruct (locationFromCfi cfi') as [[n'| |]|]; try discriminate.
  reflexivity.
Qed.

Lemma buildLoop_tiled total spineGet locationFromCfi :
  forall flatToc starts,
    map (startOf spineGet locationFromCfi) flatToc = map Some starts ->
    Ascending total starts ->
    exists cs,
      ChapterIndex.buildLoop total spineGet locationFromCfi flatToc = Ok cs /\
      map startLocationIndex cs = starts /\
      map href cs = map ChapterIndex.itemHref flatToc /\
      map label cs = map ChapterIndex.itemLabel flatToc /\
      Tiled (total - 1) cs.
Proof.
  induction flatToc as [|item rest IH]; intros starts Hmap Hasc.
  - destruct starts; [|discriminate]. exists []. cbn. repeat split; reflexivity.
  - destruct starts as [|s starts']; [discriminate|].
    cbn [map] in Hmap. injection Hmap as Hs Hrest.
    cbn [Ascending] in Hasc. destruct Hasc as (Hlt & Hnext & Hasc').
    destruct (IH starts' Hrest Hasc') as (cs' & Hbuild & Hstarts & Hhrefs & Hlabels & Htiled).
    cbn [ChapterIndex.buildLoop]. rewrite Hbuild.
    destruct rest as [|n rest'].
    + destruct starts'; [|discriminate]. cbn [hd_error].
      rewrite (chapterOf_resolved total spineGet locationFromCfi item None s Hs I).
      cbn [ChapterIndex.buildLoop] in Hbuild. injection Hbuild as <-.
      eexists. split; [reflexivity|]. cbn. repeat split; try reflexivity. lia.
    + destruct starts' as [|s' starts'']; [discriminate|].
      cbn [map] in Hrest. injection Hrest as Hs' _.
      cbn [hd_error].
      rewrite (chapterOf_resolved total spineGet locationFromCfi item (Some n) s Hs
                 (ex_intro _ s' Hs')).
      rewrite Hs'.
      assert (Hlt' : (s <? s') = true) by (apply Z.ltb_lt; exact Hnext).
      rewrite Hlt'.
      eexists. split; [reflexivity|].
      destruct cs' as [|d cs'']; [discriminate|].
      cbn [map] in Hstarts. injection Hstarts as Hd Hstarts.
      cbn [map startLocationIndex href label Tiled endLocationIndex].
      rewrite Hd, Hstarts. cbn [map] in Hhrefs, Hlabels. rewrite Hhrefs, Hlabels.
      split; [reflexivity|]. split; [reflexivity|]. split; [reflexivity|].
      split; [lia|]. split; [lia|]. rewrite <- Hd. exact Htiled.
Qed.

Lemma tiled_starts_from last :
  forall rest d c',
    Tiled last (d :: rest) -> In c' (d :: rest) ->
    startLocationIndex d <= startLocationIndex c'.
Proof.
  induction rest as [|d' rest IH]; intros d c' Ht Hin.
  - destruct Hin as [<- | []]. lia.
  - destruct Hin as [<- | Hin]; [lia|].
    cbn [Tiled] in Ht. destruct Ht as (Hle & Hnext & Ht').
    pose proof (IH d' c' Ht' Hin) as H.
    assert (Hd' : startLocationIndex d' <= endLocationIndex d').
    { cbn [Tiled] in Ht'. apply Ht'. }
    lia.
Qed.

Lemma tiled_lookup last :
  forall cs first i,
    Tiled last cs ->
    hd_error cs <> None ->
    (forall c, hd_error cs = Some c -> startLocationIndex c = first) ->
    first <= i <= last ->
    exists c,
      Relocated.findChapter i cs = Some c /\
      In c cs /\
      Relocated.Contains c i /\
      (forall c', In c' cs -> Relocated.Contains c' i -> c' = c).
Proof.
  induction cs as [|c rest IH]; intros first i Ht Hne Hfirst Hi.
  - exfalso. apply Hne. reflexivity.
  - pose proof (Hfirst c eq_refl) as Hc.
    cbn [Tiled] in Ht. destruct Ht as (Hle & Hnext & Ht').
    destruct (Z_le_gt_dec i (endLocationIndex c)) as [Hin | Hout].
    + exists c.
      assert (Hcont : Relocated.Contains c i) by (unfold Relocated.Contains; lia).
      split; [|split; [left; reflexivity | split; [exact Hcont|]]].
      * apply (findChapter_first i [] c rest); [intros ? []| exact Hcont].
      * intros c' [<- | Hin'] Hc'; [reflexivity|]. exfalso.
        destruct rest as [|d rest']; [destruct Hin'|].
        pose proof (tiled_starts_from last rest' d c' Ht' Hin') as Hge.
        unfold Relocated.Contains in Hc'. lia.
    + destruct rest as [|d rest']; [lia|].
      destruct (IH (startLocationIndex d) i Ht') as (c0 & Hfind & Hin0 & Hcont & Huniq).
      * discriminate.
      * intros ? [= <-]. reflexivity.
      * lia.
      * exists c0. split; [|split; [right; exact Hin0 | split; [exact Hcont|]]].
        -- unfold Relocated.findChapter in *. cbn [find].
           assert (Hno : Relocated.inChapter i c = false).
           { unfold Relocated.inChapter. apply andb_false_iff. right.
             apply Z.leb_gt. lia. }
           rewrite Hno. exact Hfind.
        -- intros c' [<- | Hin'] Hc'.
           ++ unfold Relocated.Contains in Hc'. lia.
           ++ apply Huniq; assumption.
Qed.

(** X13. When every entry of the flat table of contents has a spine item
    and the entries resolve to strictly increasing start indices below the
    number of locations, the build succeeds with one range per entry, in
    the order of the table, and the ranges tile the book: none is empty,
    each ends one before the next starts, the last ends at [total - 1]. *)
Theorem chapter_ranges_tile
    (total : Z) (spineGet : string -> option string)
    (locationFromCfi : string -> Result JsVal)
    (toc : list ChapterIndex.TocItem) (starts : list Z) (st : State) :
  map (startOf spineGet locationFromCfi) (ChapterIndex.flattenToc toc) = map Some starts ->
  Ascending total starts ->
  let built := ChapterIndex.buildChapterLocations total spineGet locationFromCfi toc st in
  let cs := chapterLocationsRef (chapters (fst built)) in
  snd built = [CHAPTER_LOCATIONS_BUILT] /\
  map startLocationIndex cs = starts /\
  map href cs = map ChapterIndex.itemHref (ChapterIndex.flattenToc toc) /\
  map label cs = map ChapterIndex.itemLabel (ChapterIndex.flattenToc toc) /\
  Tiled (total - 1) cs.
Proof.
  intros Hmap Hasc.
  destruct (buildLoop_tiled total spineGet locationFromCfi _ starts Hmap Hasc)
    as (cs & Hbuild & Hstarts & Hhrefs & Hlabels & Htiled).
  cbv zeta. unfold ChapterIndex.buildChapterLocations. rewrite Hbuild.
  cbn [fst snd chapters withChapters chapterLocationsRef].
  split; [reflexivity|]. split; [exact Hstarts|]. split; [exact Hhrefs|].
  split; [exact Hlabels | exact Htiled].
Qed.

Lemma chapter_ranges_tile_witness :
  let cs :=
    chapterLocationsRef
      (chapters (fst (ChapterIndex.buildChapterLocations 100 Samples.spineOfThree
                        Samples.lookupOfThree Samples.threeEntries (initialState None)))) in
  map startLocationIndex cs = [0; 50; 80] /\ Tiled 99 cs.
Proof.
  destruct (chapter_ranges_tile 100 Samples.spineOfThree Samples.lookupOfThree
              Samples.threeEntries [0; 50; 80] (initialState None) eq_refl)
    as (_ & Hstarts & _ & _ & Htiled); [simpl; lia|].
  cbv zeta. split; [exact Hstarts | exact Htiled].
Defined.

(** X14. With a chapter table that tiles the book, every processed
    relocation whose start index [s] lies between the first chapter's start
    and the last index is in exactly one chapter of the table; the handler
    publishes that chapter's label and [endLocationIndex - s] pages left,
    which is the distance to the page before the next chapter. *)
Theorem tiled_table_progress
    (env : Env) (loc : option Location) (st : State)
    (last first s : Z) (e : option Z) (c0 : Chapter) :
  Tiled last (chapterLocationsRef (chapters st)) ->
  hd_error (chapterLocationsRef (chapters st)) = Some c0 ->
  startLocationIndex c0 = first ->
  Relocated.processedRange env loc = Some (Some s, e) ->
  first <= s <= last ->
  let st' := fst (Relocated.relocated env loc st) in
  exists c,
    In c (chapterLocationsRef (chapters st)) /\
    Relocated.Contains c s /\
    (forall c', In c' (chapterLocationsRef (chapters st)) ->
                Relocated.Contains c' s -> c' = c) /\
    pagesLeftInChapter (chapters st') = Some (endLocationIndex c - s) /\
    currentChapterName (chapters st') = label c /\
    chapterLocationsRef (chapters st') = chapterLocationsRef (chapters st).
Proof.
  intros Ht Hhd Hfirst Hp Hs. cbv zeta.
  destruct (tiled_lookup last (chapterLocationsRef (chapters st)) first s Ht)
    as (c & Hfind & Hin & Hcont & Huniq).
  - rewrite Hhd. discriminate.
  - intros c1 Hc1. rewrite Hhd in Hc1. injection Hc1 as <-. exact Hfirst.
  - exact Hs.
  - exists c. split; [exact Hin|]. split; [exact Hcont|]. split; [exact Huniq|].
    destruct (relocated_settled env loc st (Some s) e Hp) as (start & end_ & _ & _ & ->).
    destruct (settled_parts start (Some s) e st) as (_ & _ & _ & _ & _ & Hch & _).
    rewrite Hch. unfold Settled.chaptersAfter.
    destruct (chapterLocationsRef (chapters st)) as [|c1 cs] eqn:Etable; [discriminate|].
    rewrite Hfind. cbn [pagesLeftInChapter currentChapterName chapterLocationsRef].
    rewrite (shownPagesLeft_inside c s Hcont).
    split; [reflexivity|]. split; reflexivity.
Qed.

Lemma tiled_table_progress_witness :
  let st' := fst (Relocated.relocated Samples.book100 (Samples.rangeEvent 60 62)
                    Samples.twoChapters) in
  pagesLeftInChapter (chapters st') = Some 39 /\ currentChapterName (chapters st') = "Ch2".
Proof.
  destruct (tiled_table_progress Samples.book100 (Samples.rangeEvent 60 62)
              Samples.twoChapters 99 0 60 (Some 62) Samples.ch1)
    as (c & Hin & Hcont & _ & Hleft & Hname & _).
  - simpl. lia.
  - reflexivity.
  - reflexivity.
  - reflexivity.
  - lia.
  - cbv zeta. destruct Hin as [<- | [<- | []]].
    + exfalso. unfold Relocated.Contains in Hcont. simpl in Hcont. lia.
    + split; [exact Hleft | exact Hname].
Defined.

(** ** The visibility of the page indicator *)

Lemma clearTimeout_one t :
  Indicator.clearTimeout (Indicator.timerId t) [t] = [].
Proof.
  unfold Indicator.clearTimeout. cbn. rewrite Pos.eqb_refl. reflexivity.
Qed.

Lemma oneTimer_showCallback v :
  Indicator.OneTimer v ->
  Indicator.timers (Indicator.showCallback v) =
    [{| Indicator.timerId := Indicator.nextTimerId v;
        Indicator.due := Indicator.clock v + 2000 |}].
Proof.
  intros [Hnone | (t & Ht & Href)]; unfold Indicator.showCallback; cbn.
  - rewrite Hnone. destruct (Indicator.hideTimerRef v); reflexivity.
  - rewrite Href, Ht, clearTimeout_one. reflexivity.
Qed.

Lemma oneTimer_runCallback cb v :
  Indicator.OneTimer v -> Indicator.OneTimer (Indicator.runCallback cb v).
Proof.
  intros H. destruct cb; cbn [Indicator.runCallback].
  - right. eexists. split; [apply (oneTimer_showCallback v H) | reflexivity].
  - exact H.
Qed.

Lemma oneTimer_runCallbacks cbs :
  forall v, Indicator.OneTimer v -> Indicator.OneTimer (Indicator.runCallbacks cbs v).
Proof.
  induction cbs as [|cb cbs IH]; intros v H; [exact H|].
  apply IH, oneTimer_runCallback, H.
Qed.

Lemma oneTimer_timerFires id v :
  Indicator.OneTimer v -> Indicator.OneTimer (Indicator.timerFires id v).
Proof.
  intros H. unfold Indicator.timerFires.
  destruct (find _ (Indicator.timers v)) as [t|] eqn:Ef; [|exact H].
  destruct (Indicator.due t <=? Indicator.clock v); [|exact H].
  left. cbn. destruct H as [Hnone | (t' & Ht' & _)].
  - rewrite Hnone. reflexivity.
  - rewrite Ht' in *. cbn in Ef.
    destruct (Pos.eqb (Indicator.timerId t') id) eqn:E; [|discriminate].
    apply Pos.eqb_eq in E. subst id. apply clearTimeout_one.
Qed.

Lemma oneTimer_react ev v :
  Indicator.OneTimer v -> Indicator.OneTimer (Indicator.react ev v).
Proof.
  intros H. destruct ev; cbn [Indicator.react].
  - exact H.
  - apply oneTimer_runCallbacks. exact H.
  - apply oneTimer_timerFires, H.
  - exact H.
Qed.

Lemma oneTimer_run events :
  forall v, Indicator.OneTimer v -> Indicator.OneTimer (Indicator.run events v).
Proof.
  induction events as [|ev events IH]; intros v H; [exact H|].
  apply IH, oneTimer_react, H.
Qed.

Lemma runCallback_ref cb v :
  Indicator.hideTimerRef v <> None ->
  Indicator.hideTimerRef (Indicator.runCallback cb v) <> None.
Proof. intros H. destruct cb; cbn; [discriminate | exact H]. Qed.

Lemma runCallbacks_ref cbs :
  forall v,
    Indicator.hideTimerRef v <> None ->
    Indicator.hideTimerRef (Indicator.runCallbacks cbs v) <> None.
Proof.
  induction cbs as [|cb cbs IH]; intros v H; [exact H|].
  apply IH, runCallback_ref, H.
Qed.

Lemma react_ref ev v :
  Indicator.hideTimerRef v <> None ->
  Indicator.hideTimerRef (Indicator.react ev v) <> None.
Proof.
  intros H. destruct ev; cbn [Indicator.react].
  - exact H.
  - apply runCallbacks_ref. exact H.
  - unfold Indicator.timerFires.
    destruct (find _ (Indicator.timers v)) as [t|]; [|exact H].
    destruct (Indicator.due t <=? Indicator.clock v); exact H.
  - exact H.
Qed.

Lemma hiddenAfterShow_react ev v :
  Indicator.HiddenAfterShow v -> Indicator.HiddenAfterShow (Indicator.react ev v).
Proof.
  intros H.
  destruct (Indicator.hideTimerRef v) as [id|] eqn:Eref.
  { intros _. apply react_ref. rewrite Eref. discriminate. }
  assert (Hshow : Indicator.showPageIndicator v = true).
  { destruct (Indicator.showPageIndicator v) eqn:E; [reflexivity|].
    exfalso. apply H; [left; exact E | exact Eref]. }
  assert (Hq : ~ In Indicator.HideFrame (Indicator.frameCallbacks v)).
  { intros Hin. apply H; [right; left; exact Hin | exact Eref]. }
  assert (Ht : Indicator.timers v = []).
  { destruct (Indicator.timers v) eqn:E; [reflexivity|].
    exfalso. apply H; [right; right; rewrite E; discriminate | exact Eref]. }
  destruct ev; cbn [Indicator.react].
  - intros [Hf | [Hin | Hne]]; exfalso.
    + cbn in Hf. congruence.
    + cbn in Hin. apply in_app_or in Hin. destruct Hin as [Hin | [Hin | []]];
        [exact (Hq Hin) | discriminate].
    + apply Hne. exact Ht.
  - unfold Indicator.animationFrame.
    destruct (Indicator.frameCallbacks v) as [|cb cbs] eqn:Eq.
    + intros [Hf | [Hin | Hne]]; exfalso.
      * cbn in Hf. congruence.
      * destruct Hin.
      * apply Hne. exact Ht.
    + intros _. cbn [Indicator.runCallbacks fold_left].
      apply (runCallbacks_ref cbs).
      destruct cb; [cbn; discriminate|].
      exfalso. apply Hq. left. reflexivity.
  - unfold Indicator.timerFires. rewrite Ht. cbn [find]. exact H.
  - intros [Hf | [Hin | Hne]]; exfalso.
    + cbn in Hf. congruence.
    + exact (Hq Hin).
    + apply Hne. exact Ht.
Qed.

Lemma hiddenAfterShow_run events :
  forall v, Indicator.HiddenAfterShow v ->
            Indicator.HiddenAfterShow (Indicator.run events v).
Proof.
  induction events as [|ev events IH]; intros v H; [exact H|].
  apply IH, hiddenAfterShow_react, H.
Qed.

(** X15. At most one hide timer is ever set. After any sequence of show
    requests, frames, timers firing and time passing since the first
    render, no timer is set but the one whose id [hideTimerRef] holds;
    and the indicator, visible at the first render, is hidden or has a
    hide on its way only after a show callback has run. *)
Theorem indicator_one_hide_timer (now : Z) (events : list Indicator.Event) :
  let v := Indicator.run events (Indicator.mounted now) in
  (List.length (Indicator.timers v) <= 1)%nat /\
  (forall t, In t (Indicator.timers v) ->
             Indicator.hideTimerRef v = Some (Indicator.timerId t)) /\
  (Indicator.hideTimerRef v = None ->
   Indicator.showPageIndicator v = true /\
   ~ In Indicator.HideFrame (Indicator.frameCallbacks v)).
Proof.
  cbv zeta.
  assert (Hone : Indicator.OneTimer (Indicator.run events (Indicator.mounted now))).
  { apply oneTimer_run. left. reflexivity. }
  assert (Hhid : Indicator.HiddenAfterShow (Indicator.run events (Indicator.mounted now))).
  { apply hiddenAfterShow_run. intros [H | [[] | H]]; [discriminate | exfalso; apply H; reflexivity]. }
  set (v := Indicator.run events (Indicator.mounted now)) in *.
  split; [|split].
  - destruct Hone as [-> | (t & -> & _)]; cbn; auto.
  - intros t Hin. destruct Hone as [Hnone | (t' & Ht' & Href)].
    + rewrite Hnone in Hin. destruct Hin.
    + rewrite Ht' in Hin. destruct Hin as [<- | []]. exact Href.
  - intros Href. split.
    + destruct (Indicator.showPageIndicator v) eqn:E; [reflexivity|].
      exfalso. apply Hhid; [left; exact E | exact Href].
    + intros Hin. apply Hhid; [right; left; exact Hin | exact Href].
Qed.

Lemma indicator_one_hide_timer_witness :
  let v := Indicator.run
             [Indicator.Called; Indicator.Frame; Indicator.Elapsed 500;
              Indicator.Called; Indicator.Called; Indicator.Frame]
             (Indicator.mounted 0) in
  Indicator.timers v = [{| Indicator.timerId := 3; Indicator.due := 2500 |}] /\
  Indicator.hideTimerRef v = Some 3%positive.
Proof.
  destruct (indicator_one_hide_timer 0
              [Indicator.Called; Indicator.Frame; Indicator.Elapsed 500;
               Indicator.Called; Indicator.Called; Indicator.Frame])
    as (_ & Href & _).
  cbv zeta. split; [reflexivity|].
  apply (Href {| Indicator.timerId := 3; Indicator.due := 2500 |}).
  left. reflexivity.
Defined.



Lemma runCallbacks_clock cbs :
  forall v, Indicator.clock (Indicator.runCallbacks cbs v) = Indicator.clock v.
Proof.
  induction cbs as [|cb cbs IH]; intros v; [reflexivity|].
  cbn [Indicator.runCallbacks fold_left].
  change (Indicator.clock (Indicator.runCallbacks cbs (Indicator.runCallback cb v)) =
          Indicator.clock v).
  rewrite IH. destruct cb; reflexivity.
Qed.






Lemma animationFrame_last v cbs cb :
  Indicator.frameCallbacks v = cbs ++ [cb] ->
  Indicator.animationFrame v =
    Indicator.runCallback cb
      (Indicator.runCallbacks cbs
         {| Indicator.showPageIndicator := Indicator.showPageIndicator v;
            Indicator.hideTimerRef := Indicator.hideTimerRef v;
            Indicator.timers := Indicator.timers v;
            Indicator.frameCallbacks := [];
            Indicator.nextTimerId := Indicator.nextTimerId v;
            Indicator.clock := Indicator.clock v |}).
Proof.
  intros Hq. unfold Indicator.animationFrame, Indicator.runCallbacks.
  rewrite Hq, fold_left_app. reflexivity.
Qed.



Lemma frame_after_request_then_timer v t :
  Indicator.timers v = [t] ->
  Indicator.due t <= Indicator.clock v ->
  Indicator.run [Indicator.Called; Indicator.TimerFires (Indicator.timerId t);
                 Indicator.Frame] v =
  Indicator.hideCallback
    (Indicator.showCallback
       (Indicator.runCallbacks (Indicator.frameCallbacks v)
          {| Indicator.showPageIndicator := Indicator.showPageIndicator v;
             Indicator.hideTimerRef := Indicator.hideTimerRef v;
             Indicator.timers := [];
             Indicator.frameCallbacks := [];
             Indicator.nextTimerId := Indicator.nextTimerId v;
             Indicator.clock := Indicator.clock v |})).
Proof.
  intros Ht Hdue.
  assert (Hd : (Indicator.due t <=? Indicator.clock v) = true) by (apply Z.leb_le; exact Hdue).
  unfold Indicator.run. cbn [fold_left Indicator.react].
  unfold Indicator.timerFires.
  cbn [Indicator.showIndicatorTemporarily Indicator.requestAnimationFrame
       Indicator.timers Indicator.clock].
  rewrite Ht. cbn [find]. rewrite Pos.eqb_refl, Hd, clearTimeout_one.
  unfold Indicator.animationFrame, Indicator.runCallbacks.
  cbn [Indicator.showIndicatorTemporarily Indicator.requestAnimationFrame
       Indicator.frameCallbacks Indicator.showPageIndicator
       Indicator.hideTimerRef Indicator.timers Indicator.nextTimerId Indicator.clock].
  rewrite !fold_left_app. reflexivity.
Qed.

Lemma frame_after_timer_then_request v t :
  Indicator.timers v = [t] ->
  Indicator.due t <= Indicator.clock v ->
  Indicator.run [Indicator.TimerFires (Indicator.timerId t); Indicator.Called;
                 Indicator.Frame] v =
  Indicator.showCallback
    (Indicator.hideCallback
       (Indicator.runCallbacks (Indicator.frameCallbacks v)
          {| Indicator.showPageIndicator := Indicator.showPageIndicator v;
             Indicator.hideTimerRef := Indicator.hideTimerRef v;
             Indicator.timers := [];
             Indicator.frameCallbacks := [];
             Indicator.nextTimerId := Indicator.nextTimerId v;
             Indicator.clock := Indicator.clock v |})).
Proof.
  intros Ht Hdue.
  assert (Hd : (Indicator.due t <=? Indicator.clock v) = true) by (apply Z.leb_le; exact Hdue).
  unfold Indicator.run. cbn [fold_left Indicator.react].
  unfold Indicator.timerFires.
  rewrite Ht. cbn [find]. rewrite Pos.eqb_refl, Hd, clearTimeout_one.
  unfold Indicator.animationFrame, Indicator.runCallbacks.
  cbn [Indicator.showIndicatorTemporarily Indicator.requestAnimationFrame Indicator.frameCallbacks Indicator.showPageIndicator
       Indicator.hideTimerRef Indicator.timers Indicator.nextTimerId Indicator.clock].
  rewrite !fold_left_app. reflexivity.
Qed.

(** X17. The last callback of a frame decides. A frame leaves the
    indicator shown when the last callback registered for it is the one of
    a show request, hidden when it is the one of the hide timer, and as it
    was when none is registered. So the order of a show request and a due
    hide timer before a frame matters: with the request first the frame
    ends with the indicator hidden, with the timer first it ends with the
    indicator shown; either way the one timer then set is due 2000 ms
    later. *)
Theorem indicator_last_callback_decides (v : Indicator.Visibility) :
  (forall cbs cb,
      Indicator.frameCallbacks v = cbs ++ [cb] ->
      Indicator.showPageIndicator (Indicator.animationFrame v) =
        match cb with
        | Indicator.ShowFrame => true
        | Indicator.HideFrame => false
        end) /\
  (Indicator.frameCallbacks v = [] ->
   Indicator.animationFrame v = v) /\
  (forall t,
      Indicator.timers v = [t] ->
      Indicator.due t <= Indicator.clock v ->
      let lost :=
        Indicator.run [Indicator.Called; Indicator.TimerFires (Indicator.timerId t);
                       Indicator.Frame] v in
      let kept :=
        Indicator.run [Indicator.TimerFires (Indicator.timerId t); Indicator.Called;
                       Indicator.Frame] v in
      Indicator.showPageIndicator lost = false /\
      Indicator.showPageIndicator kept = true /\
      (exists id,
          Indicator.timers lost =
            [{| Indicator.timerId := id; Indicator.due := Indicator.clock v + 2000 |}] /\
          Indicator.hideTimerRef lost = Some id) /\
      Indicator.timers kept = Indicator.timers lost).
Proof.
  split; [|split].
  - intros cbs cb Hq. rewrite (animationFrame_last v cbs cb Hq).
    destruct cb; reflexivity.
  - intros Hq. unfold Indicator.animationFrame. rewrite Hq.
    destruct v; cbn in *. subst. reflexivity.
  - intros t Ht Hdue. cbv zeta.
    rewrite (frame_after_request_then_timer v t Ht Hdue).
    rewrite (frame_after_timer_then_request v t Ht Hdue).
    set (u := Indicator.runCallbacks _ _).
    assert (Hu : Indicator.OneTimer u).
    { apply oneTimer_runCallbacks. left. reflexivity. }
    assert (Hc : Indicator.clock u = Indicator.clock v).
    { unfold u. rewrite runCallbacks_clock. reflexivity. }
    split; [reflexivity|]. split; [reflexivity|].
    cbn [Indicator.hideCallback Indicator.timers Indicator.nextTimerId].
    rewrite (oneTimer_showCallback u Hu).
    rewrite (oneTimer_showCallback (Indicator.hideCallback u) Hu).
    cbn [Indicator.showCallback Indicator.hideCallback Indicator.nextTimerId
         Indicator.clock Indicator.hideTimerRef].
    rewrite Hc. split; [|reflexivity].
    exists (Indicator.nextTimerId u). split; reflexivity.
Qed.

Lemma indicator_last_callback_decides_witness :
  let v := Indicator.run [Indicator.Called; Indicator.Frame; Indicator.Elapsed 2000]
             (Indicator.mounted 0) in
  Indicator.showPageIndicator
    (Indicator.run [Indicator.Called; Indicator.TimerFires 1; Indicator.Frame] v) = false /\
  Indicator.showPageIndicator
    (Indicator.run [Indicator.TimerFires 1; Indicator.Called; Indicator.Frame] v) = true.
Proof.
  destruct (indicator_last_callback_decides
              (Indicator.run [Indicator.Called; Indicator.Frame; Indicator.Elapsed 2000]
                 (Indicator.mounted 0))) as (_ & _ & Hrace).
  destruct (Hrace {| Indicator.timerId := 1; Indicator.due := 2000 |} eq_refl)
    as (Hlost & Hkept & _); [simpl; lia|].
  split; [exact Hlost | exact Hkept].
Defined.

(** ** The selected text *)

Lemma space_isWhiteSpace : Selection.isWhiteSpace Selection.space = true.
Proof. reflexivity. Qed.

Lemma replaceRuns_visible b l :
  filter Selection.visible (Selection.replaceRuns b l) = filter Selection.visible l.
Proof.
  revert b. induction l as [|c rest IH]; intros b; [reflexivity|].
  cbn [Selection.replaceRuns filter]. unfold Selection.visible at 2.
  destruct (Selection.isWhiteSpace c) eqn:Ec; cbn [negb].
  - destruct b; [apply IH|]. cbn [filter]. unfold Selection.visible at 1.
    rewrite space_isWhiteSpace. cbn [negb]. apply IH.
  - cbn [filter]. unfold Selection.visible at 1. rewrite Ec. cbn [negb].
    f_equal. apply IH.
Qed.

Lemma trimStart_visible l :
  filter Selection.visible (Selection.trimStart l) = filter Selection.visible l.
Proof.
  induction l as [|c rest IH]; [reflexivity|].
  cbn [Selection.trimStart]. destruct (Selection.isWhiteSpace c) eqn:Ec; [|reflexivity].
  cbn [filter]. unfold Selection.visible at 2. rewrite Ec. cbn [negb]. exact IH.
Qed.

Lemma trimEnd_visible l :
  filter Selection.visible (Selection.trimEnd l) = filter Selection.visible l.
Proof.
  induction l as [|c rest IH]; [reflexivity|].
  cbn [Selection.trimEnd].
  destruct (Selection.trimEnd rest) as [|k kept] eqn:Et.
  - cbn [filter] in *. rewrite <- IH.
    destruct (Selection.isWhiteSpace c) eqn:Ec.
    + unfold Selection.visible. rewrite Ec. reflexivity.
    + cbn [filter]. unfold Selection.visible. rewrite Ec. reflexivity.
  - cbn [filter] in *. rewrite IH. reflexivity.
Qed.

Lemma cleanText_visible l :
  filter Selection.visible (Selection.cleanText l) = filter Selection.visible l.
Proof.
  unfold Selection.cleanText, Selection.trim.
  rewrite trimEnd_visible, trimStart_visible. apply replaceRuns_visible.
Qed.

Lemma replaceRuns_spaced l :
  forall b,
    Selection.Spaced (Selection.replaceRuns b l) /\
    Selection.OnlySpaces (Selection.replaceRuns b l) /\
    (b = true ->
     match Selection.replaceRuns b l with
     | [] => True
     | d :: _ => Selection.isWhiteSpace d = false
     end).
Proof.
  induction l as [|c rest IH]; intros b.
  - cbn. split; [exact I|]. split; [intros ? []|]. intros _. exact I.
  - cbn [Selection.replaceRuns].
    destruct (Selection.isWhiteSpace c) eqn:Ec.
    + destruct (IH true) as (Hs & Ho & Hh). specialize (Hh eq_refl).
      destruct b.
      * split; [exact Hs|]. split; [exact Ho|]. intros _. exact Hh.
      * split; [|split; [|discriminate]].
        -- cbn [Selection.Spaced]. split; [intros _; exact Hh | exact Hs].
        -- intros x [<- | Hin] Hx; [reflexivity | apply Ho; assumption].
    + destruct (IH false) as (Hs & Ho & _).
      split; [|split].
      * cbn [Selection.Spaced]. split; [|exact Hs]. intros H. congruence.
      * intros x [<- | Hin] Hx; [congruence | apply Ho; assumption].
      * intros _. exact Ec.
Qed.

Lemma trimStart_spaced l :
  Selection.Spaced l ->
  Selection.Spaced (Selection.trimStart l) /\
  match Selection.trimStart l with
  | [] => True
  | d :: _ => Selection.isWhiteSpace d = false
  end.
Proof.
  induction l as [|c rest IH]; intros Hs; [split; exact I|].
  cbn [Selection.trimStart]. destruct (Selection.isWhiteSpace c) eqn:Ec.
  - apply IH. apply Hs.
  - split; [exact Hs | exact Ec].
Qed.

Lemma trimStart_incl l x : In x (Selection.trimStart l) -> In x l.
Proof.
  induction l as [|c rest IH]; [intros []|].
  cbn [Selection.trimStart]. destruct (Selection.isWhiteSpace c); [|auto].
  intros H. right. apply IH, H.
Qed.

Lemma trimEnd_incl l x : In x (Selection.trimEnd l) -> In x l.
Proof.
  revert x. induction l as [|c rest IH]; intros x; [intros []|].
  cbn [Selection.trimEnd]. destruct (Selection.trimEnd rest) as [|k kept].
  - destruct (Selection.isWhiteSpace c); [intros [] | intros [<- | []]; left; reflexivity].
  - intros [<- | Hin]; [left; reflexivity | right; apply IH, Hin].
Qed.

Lemma trimEnd_head c rest :
  Selection.isWhiteSpace c = false ->
  exists kept, Selection.trimEnd (c :: rest) = c :: kept.
Proof.
  intros Ec. cbn [Selection.trimEnd]. rewrite Ec.
  destruct (Selection.trimEnd rest) as [|k kept]; eexists; reflexivity.
Qed.

Lemma trimEnd_separated l :
  Selection.Spaced l -> Selection.Separated (Selection.trimEnd l).
Proof.
  induction l as [|c rest IH]; intros Hs; [exact I|].
  cbn [Selection.Spaced] in Hs. destruct Hs as [Hc Hs].
  specialize (IH Hs). cbn [Selection.trimEnd].
  destruct (Selection.trimEnd rest) as [|k kept] eqn:Et.
  - destruct (Selection.isWhiteSpace c) eqn:Ec; [exact I|].
    cbn. split; [congruence | exact I].
  - cbn [Selection.Separated]. split; [|exact IH].
    intros Ec. specialize (Hc Ec).
    destruct rest as [|d rest']; [discriminate|].
    destruct (trimEnd_head d rest' Hc) as [kept' Hk].
    rewrite Hk in Et. injection Et as <- _. exact Hc.
Qed.

Lemma cleanText_clean l : Selection.Clean (Selection.cleanText l).
Proof.
  unfold Selection.cleanText, Selection.trim.
  destruct (replaceRuns_spaced l false) as (Hs & Ho & _).
  destruct (trimStart_spaced _ Hs) as [Hs' Hh].
  split; [|split].
  - intros x Hin. apply Ho. apply trimStart_incl, trimEnd_incl, Hin.
  - apply trimEnd_separated, Hs'.
  - destruct (Selection.trimStart (Selection.replaceRuns false l)) as [|d rest]; [exact I|].
    destruct (trimEnd_head d rest Hh) as [kept ->]. exact Hh.
Qed.

Lemma separated_spaced l : Selection.Separated l -> Selection.Spaced l.
Proof.
  induction l as [|c rest IH]; [auto|].
  cbn [Selection.Separated Selection.Spaced]. intros [Hc Hs]. split; [|apply IH, Hs].
  intros Ec. specialize (Hc Ec). destruct rest; [destruct Hc | exact Hc].
Qed.

Lemma replaceRuns_fixed l :
  Selection.OnlySpaces l -> Selection.Spaced l ->
  Selection.replaceRuns false l = l /\
  (match l with
   | [] => True
   | d :: _ => Selection.isWhiteSpace d = false
   end -> Selection.replaceRuns true l = l).
Proof.
  induction l as [|c rest IH]; intros Ho Hs; [split; reflexivity|].
  cbn [Selection.Spaced] in Hs. destruct Hs as [Hc Hs].
  assert (Ho' : Selection.OnlySpaces rest) by (intros x Hin; apply Ho; right; exact Hin).
  destruct (IH Ho' Hs) as [Hf Ht].
  cbn [Selection.replaceRuns]. destruct (Selection.isWhiteSpace c) eqn:Ec.
  - split; [|discriminate].
    rewrite (Ho c (or_introl eq_refl) Ec). f_equal. apply Ht.
    specialize (Hc eq_refl). destruct rest; [exact I | exact Hc].
  - split; [|intros _]; f_equal; exact Hf.
Qed.

Lemma trimEnd_fixed l : Selection.Separated l -> Selection.trimEnd l = l.
Proof.
  induction l as [|c rest IH]; [reflexivity|].
  cbn [Selection.Separated]. intros [Hc Hs]. cbn [Selection.trimEnd].
  rewrite (IH Hs). destruct rest as [|d rest']; [|reflexivity].
  destruct (Selection.isWhiteSpace c); [destruct (Hc eq_refl) | reflexivity].
Qed.

Lemma cleanText_fixed l : Selection.Clean l -> Selection.cleanText l = l.
Proof.
  intros (Ho & Hs & Hh). unfold Selection.cleanText, Selection.trim.
  destruct (replaceRuns_fixed l Ho (separated_spaced l Hs)) as [-> _].
  assert (Hstart : Selection.trimStart l = l).
  { destruct l as [|c rest]; [reflexivity|]. cbn [Selection.trimStart]. rewrite Hh. reflexivity. }
  rewrite Hstart. apply trimEnd_fixed, Hs.
Qed.

Lemma cleanText_empty l :
  Selection.cleanText l = [] <-> forallb Selection.isWhiteSpace l = true.
Proof.
  split.
  - intros He. pose proof (cleanText_visible l) as Hv. rewrite He in Hv. cbn in Hv.
    apply forallb_forall. intros x Hin.
    destruct (Selection.isWhiteSpace x) eqn:Ex; [reflexivity|]. exfalso.
    assert (Hin' : In x (filter Selection.visible l)).
    { apply filter_In. split; [exact Hin|]. unfold Selection.visible. rewrite Ex. reflexivity. }
    rewrite <- Hv in Hin'. destruct Hin'.
  - intros Hall. pose proof (cleanText_clean l) as (_ & _ & Hh).
    pose proof (cleanText_visible l) as Hv.
    destruct (Selection.cleanText l) as [|c rest]; [reflexivity|]. exfalso.
    assert (Hin : In c (filter Selection.visible l)).
    { rewrite <- Hv. cbn [filter]. unfold Selection.visible at 1. rewrite Hh. left. reflexivity. }
    apply filter_In in Hin. destruct Hin as [Hin _].
    rewrite forallb_forall in Hall. specialize (Hall c Hin). congruence.
Qed.

(** X18. The text handed to [onTextSelected] is in normal form: its only
    white space is single spaces between visible code units, none at
    either end. Cleaning keeps the visible code units and their order, and
    cleaning a clean text changes nothing. The callback is not called
    exactly when the selected range holds nothing but white space. *)
Theorem selected_text_normal_form (range : string) (rangeText : list N) :
  Selection.Clean (Selection.cleanText rangeText) /\
  filter Selection.visible (Selection.cleanText rangeText) =
    filter Selection.visible rangeText /\
  Selection.cleanText (Selection.cleanText rangeText) = Selection.cleanText rangeText /\
  (Selection.selected range rangeText = None <->
   forallb Selection.isWhiteSpace rangeText = true) /\
  (forall data,
      Selection.selected range rangeText = Some data ->
      Selection.text data = Selection.cleanText rangeText /\
      Selection.cfiRange data = range /\
      Selection.text data <> []).
Proof.
  split; [apply cleanText_clean|]. split; [apply cleanText_visible|].
  split; [apply cleanText_fixed, cleanText_clean|].
  unfold Selection.selected. cbv zeta.
  destruct (Selection.cleanText rangeText) as [|c rest] eqn:Ec.
  - cbn. split.
    + split; [intros _; apply cleanText_empty; exact Ec | reflexivity].
    + intros data H. discriminate.
  - cbn. split.
    + split; [discriminate|]. intros Hall. apply cleanText_empty in Hall. congruence.
    + intros data [= <-]. cbn. split; [reflexivity|]. split; [reflexivity | discriminate].
Qed.

Lemma selected_text_normal_form_witness :
  Selection.selected "epubcfi(/6/8!/4/2,/1:0,/1:9)" [32; 72; 105; 10; 9; 33; 32]%N
  = Some {| Selection.text := [72; 105; 32; 33]%N;
            Selection.cfiRange := "epubcfi(/6/8!/4/2,/1:0,/1:9)" |} /\
  Selection.selected "epubcfi(/6/8!/4/2,/1:0,/1:9)" [32; 10; 9; 160]%N = None.
Proof.
  split; [reflexivity|].
  destruct (selected_text_normal_form "epubcfi(/6/8!/4/2,/1:0,/1:9)" [32; 10; 9; 160]%N)
    as (_ & _ & _ & Hnone & _).
  apply Hnone. reflexivity.
Defined.

(** ** Font size and bookmarks *)

Lemma click_keeps_size b f :
  (60 <= f <= 200 /\ f mod 10 = 0) ->
  (60 <= App.click b f <= 200 /\ App.click b f mod 10 = 0).
Proof.
  intros [Hr Hm]. unfold App.click, App.increaseDisabled, App.decreaseDisabled,
    App.increaseFontSize, App.decreaseFontSize.
  destruct b.
  - destruct (200 <=? f) eqn:E; [split; assumption|]. apply Z.leb_gt in E.
    assert (f + 10 <= 200).
    { pose proof (Z.div_mod f 10 ltac:(lia)). lia. }
    rewrite Z.min_l by lia. split; [lia|].
    replace (f + 10) with (f + 1 * 10) by ring. rewrite Z.mod_add by lia. exact Hm.
  - destruct (f <=? 60) eqn:E; [split; assumption|]. apply Z.leb_gt in E.
    assert (60 <= f - 10).
    { pose proof (Z.div_mod f 10 ltac:(lia)). lia. }
    rewrite Z.max_l by lia. split; [lia|].
    replace (f - 10) with (f + (-1) * 10) by ring. rewrite Z.mod_add by lia. exact Hm.
Qed.

Lemma clicks_keep_size bs :
  forall f,
    (60 <= f <= 200 /\ f mod 10 = 0) ->
    (60 <= App.clicks bs f <= 200 /\ App.clicks bs f mod 10 = 0).
Proof.
  induction bs as [|b bs IH]; intros f H; [exact H|].
  cbn [App.clicks fold_left].
  change (60 <= App.clicks bs (App.click b f) <= 200 /\
          App.clicks bs (App.click b f) mod 10 = 0).
  apply IH, click_keeps_size, H.
Qed.

(** X19. The font size stays on the scale. After any sequence of clicks
    on the two buttons the size is a multiple of 10 between 60 and 200.
    On that scale a button is disabled exactly when its handler would
    change nothing, and an enabled button is undone by the other one. *)
Theorem font_size_on_scale (bs : list App.FontButton) :
  let size := App.clicks bs App.initialFontSize in
  60 <= size <= 200 /\
  size mod 10 = 0 /\
  (App.increaseDisabled size = true <-> App.increaseFontSize size = size) /\
  (App.decreaseDisabled size = true <-> App.decreaseFontSize size = size) /\
  (App.increaseDisabled size = false ->
   App.decreaseFontSize (App.increaseFontSize size) = size) /\
  (App.decreaseDisabled size = false ->
   App.increaseFontSize (App.decreaseFontSize size) = size).
Proof.
  cbv zeta.
  destruct (clicks_keep_size bs App.initialFontSize) as [Hr Hm].
  { unfold App.initialFontSize. split; [lia | reflexivity]. }
  set (size := App.clicks bs App.initialFontSize) in *.
  pose proof (Z.div_mod size 10 ltac:(lia)) as Hdm.
  unfold App.increaseDisabled, App.decreaseDisabled, App.increaseFontSize,
    App.decreaseFontSize.
  split; [exact Hr|]. split; [exact Hm|].
  split; [|split; [|split]].
  - rewrite Z.leb_le. lia.
  - rewrite Z.leb_le. lia.
  - rewrite Z.leb_gt. lia.
  - rewrite Z.leb_gt. lia.
Qed.

Lemma font_size_on_scale_witness :
  App.decreaseFontSize
    (App.increaseFontSize
       (App.clicks [App.Plus; App.Plus; App.Minus; App.Plus] App.initialFontSize))
  = 120.
Proof.
  destruct (font_size_on_scale [App.Plus; App.Plus; App.Minus; App.Plus])
    as (_ & _ & _ & _ & Hundo & _).
  apply Hundo. reflexivity.
Defined.

Lemma findIndex_none p l : App.findIndex p l = None <-> existsb p l = false.
Proof.
  induction l as [|b rest IH]; [split; reflexivity|].
  cbn [App.findIndex existsb]. destruct (p b); cbn [orb].
  - split; discriminate.
  - destruct (App.findIndex p rest); [|tauto].
    split; [discriminate|]. intros H. apply IH in H. discriminate.
Qed.

Lemma findIndex_some p l i :
  App.findIndex p l = Some i ->
  exists b, nth_error l i = Some b /\ p b = true /\
            l = firstn i l ++ b :: skipn (S i) l.
Proof.
  revert i. induction l as [|c rest IH]; intros i; [discriminate|].
  cbn [App.findIndex]. destruct (p c) eqn:Ec.
  - intros [= <-]. exists c. cbn. repeat split; [exact Ec].
  - destruct (App.findIndex p rest) as [j|]; [|discriminate].
    intros [= <-]. destruct (IH j eq_refl) as (b & Hn & Hp & Hl).
    exists b. cbn [nth_error firstn skipn]. split; [exact Hn|]. split; [exact Hp|].
    cbn [app]. f_equal. exact Hl.
Qed.







Lemma NoDup_map_filter (p : App.Bookmark -> bool) l :
  NoDup (map App.cfi l) -> NoDup (map App.cfi (filter p l)).
Proof.
  induction l as [|b rest IH]; [auto|].
  cbn [map filter]. intros Hnd. inversion Hnd as [|x xs Hnotin Hrest]; subst.
  destruct (p b); [|apply IH, Hrest].
  cbn [map]. constructor; [|apply IH, Hrest].
  intros Hin. apply Hnotin. apply in_map_iff in Hin. destruct Hin as (y & Hy & Hin).
  apply filter_In in Hin. rewrite <- Hy. apply in_map, Hin.
Qed.

Lemma onePerPlace_withBook book l prev :
  NoDup (map App.cfi l) -> App.OnePerPlace prev ->
  App.OnePerPlace (App.withBook book l prev).
Proof.
  intros Hl Hprev k. unfold App.ofBook, App.withBook.
  destruct (String.eqb k book); [exact Hl | apply Hprev].
Qed.

Lemma onePerPlace_toggle s newLabel now bookmarks :
  App.OnePerPlace bookmarks ->
  App.OnePerPlace (App.toggleBookmark s newLabel now bookmarks bookmarks).
Proof.
  intros H. unfold App.toggleBookmark.
  destruct (App.activeBookId s) as [book|]; [|exact H].
  destruct (App.authUser s) as [uid|]; [|exact H].
  destruct (App.nonEmpty book && App.nonEmpty (App.currentCfi s)); [|exact H].
  destruct (App.findIndex _ _) as [i|] eqn:Ef.
  - destruct (findIndex_some _ _ i Ef) as (b & Hn & _ & Hl).
    rewrite Hn. destruct (App.deleteBookmark s (App.id b)); [|exact H].
    apply onePerPlace_withBook; [|exact H].
    pose proof (H book) as Hnd. rewrite Hl in Hnd.
    rewrite map_app in Hnd. cbn [map] in Hnd. apply NoDup_remove_1 in Hnd.
    unfold App.splice1. rewrite map_app. exact Hnd.
  - destruct (App.saveBookmark s uid book (App.currentCfi s) newLabel) as [bookmarkId|];
      [|exact H].
    apply onePerPlace_withBook; [|exact H].
    cbn [map App.cfi]. constructor; [|apply H].
    apply findIndex_none in Ef. intros Hin.
    apply in_map_iff in Hin. destruct Hin as (x & Hx & Hin).
    assert (Hex : existsb (fun b => String.eqb (App.cfi b) (App.currentCfi s))
                    (App.ofBook bookmarks book) = true).
    { apply existsb_exists. exists x. split; [exact Hin|]. apply String.eqb_eq, Hx. }
    congruence.
Qed.

Lemma onePerPlace_remove s bookmarkId bookmarks :
  App.OnePerPlace bookmarks ->
  App.OnePerPlace (App.removeBookmark s bookmarkId bookmarks bookmarks).
Proof.
  intros H. unfold App.removeBookmark.
  destruct (App.activeBookId s) as [book|]; [|exact H].
  destruct (App.authUser s) as [uid|]; [|exact H].
  destruct (App.nonEmpty book); [|exact H].
  destruct (App.deleteBookmark s bookmarkId); [|exact H].
  apply onePerPlace_withBook; [|exact H].
  apply NoDup_map_filter, H.
Qed.

(** X21. One bookmark per place. When the bookmarks loaded have no two
    at the same place of a book, no sequence of clicks on the bookmark
    button and on the bins of the list, each handled to its end before
    the next, whatever the book, the place and the answers of the service,
    produces two bookmarks at the same place of a book. *)
Theorem one_bookmark_per_place (l : list App.Action) (bookmarks : App.Bookmarks) :
  App.OnePerPlace bookmarks -> App.OnePerPlace (App.acts l bookmarks).
Proof.
  revert bookmarks. induction l as [|a l IH]; intros bookmarks H; [exact H|].
  cbn [App.acts fold_left].
  change (App.OnePerPlace (App.acts l (App.act a bookmarks))).
  apply IH. destruct a as [s newLabel now | s bookmarkId]; cbn [App.act].
  - apply onePerPlace_toggle, H.
  - apply onePerPlace_remove, H.
Qed.

Lemma one_bookmark_per_place_witness :
  let s := {| App.activeBookId := Some "book-1";
              App.currentCfi := "epubcfi(/6/8!/4/2/1:0)";
              App.authUser := Some "uid-7";
              App.deleteBookmark := fun _ => Throw;
              App.saveBookmark := fun _ _ _ _ => Ok "bm-1" |} in
  NoDup (map App.cfi
           (App.ofBook
              (App.acts [App.Toggle s "Bookmark at 10:15" 1700000000000;
                         App.Toggle s "Bookmark at 10:16" 1700000060000;
                         App.Remove s "bm-2"]
                 (fun _ => None))
              "book-1")).
Proof.
  cbv zeta.
  apply (one_bookmark_per_place
           [App.Toggle _ "Bookmark at 10:15" 1700000000000;
            App.Toggle _ "Bookmark at 10:16" 1700000060000;
            App.Remove _ "bm-2"]
           (fun _ => None)).
  intros book. cbn. constructor.
Defined.
